(** * Scalene: sampling and attribution engine

    A shallow embedding of [scalene/scalene.py] (class [Scalene]) and the
    verification of its specification.

    Conventions of the embedding.
    - Python floats are idealised as exact rationals ([Q]); [==] is [Qeq].
    - A Python [str] that is rendered (sparklines, report lines) is a list
      of code points ([pystr]); file names are [string]s.
    - Exceptions are values of [exn]; a computation that may raise returns
      a [result].
    - The class attributes of [Scalene] form the record [Scalene]; handlers
      are state transformers in the monad [M], which keeps the mutations
      made before an exception was raised, as Python does. *)

From Stdlib Require Import Ascii String.
From Stdlib Require Import List ZArith QArith Qround Qminmax Lia Lqa Bool.
Import ListNotations.

Set Implicit Arguments.
Local Open Scope Q_scope.

(** ** Exceptions and results *)

Inductive exn : Type :=
| IndexError
| ValueError
| FileNotFoundError
| AttributeError
| ZeroDivisionError.

Inductive result (A : Type) : Type :=
| Ok (a : A)
| Raise (e : exn).

Arguments Ok {A} a.
Arguments Raise {A} e.

Definition rbind {A B} (r : result A) (k : A -> result B) : result B :=
  match r with
  | Ok a => k a
  | Raise e => Raise e
  end.

Notation "'let?' x ':=' r 'in' k" := (rbind r (fun x => k))
  (at level 10, x pattern, r at level 100, k at level 200).

Fixpoint rmap {A B} (f : A -> result B) (l : list A) : result (list B) :=
  match l with
  | [] => Ok []
  | x :: l' =>
      let? y := f x in
      let? ys := rmap f l' in
      Ok (y :: ys)
  end.

(** ** Numbers *)

(** Python's [x < y], [x > y], [x == y] on numbers. *)
Definition Qltb (x y : Q) : bool := negb (Qle_bool y x).
Definition Qgtb (x y : Q) : bool := Qltb y x.

(** [int(x)]: truncation toward zero. *)
Definition py_int (q : Q) : Z := Z.quot (Qnum q) (Zpos (Qden q)).

(** [min(xs)] and [max(xs)]: the first smallest (largest) element;
    [ValueError] on an empty sequence. *)
Fixpoint min_from (m : Q) (l : list Q) : Q :=
  match l with
  | [] => m
  | x :: l' => min_from (if Qltb x m then x else m) l'
  end.

Fixpoint max_from (m : Q) (l : list Q) : Q :=
  match l with
  | [] => m
  | x :: l' => max_from (if Qgtb x m then x else m) l'
  end.

Definition py_min (l : list Q) : result Q :=
  match l with
  | [] => Raise ValueError
  | x :: l' => Ok (min_from x l')
  end.

Definition py_max (l : list Q) : result Q :=
  match l with
  | [] => Raise ValueError
  | x :: l' => Ok (max_from x l')
  end.

(** ** Rendered strings *)

(** A rendered string is its sequence of Unicode code points. *)
Definition pystr : Type := list N.

Definition str_of (s : string) : pystr :=
  map N_of_ascii (list_ascii_of_string s).

(** [s[i]]: a negative [i] counts from the end; out of range is
    [IndexError]. *)
Definition getitem {A} (s : list A) (i : Z) : result A :=
  let n := Z.of_nat (length s) in
  let j := if (i <? 0)%Z then (i + n)%Z else i in
  if ((0 <=? j) && (j <? n))%Z
  then match nth_error s (Z.to_nat j) with
       | Some c => Ok c
       | None => Raise IndexError
       end
  else Raise IndexError.

(** ** Sparkline (scalene.py, lines 137-162) *)

(** [bar = '▁▂▃▄▅▆▇█'], code points 9601 .. 9608. *)
Definition bar : pystr := [9601; 9602; 9603; 9604; 9605; 9606; 9607; 9608]%N.
Definition barcount : Z := Z.of_nat (length bar).

(** The [extent] computed at lines 155-157. *)
Definition sparkline_extent (mn mx : Q) : Q :=
  let extent := mx - mn in
  if Qeq_bool extent 0 then 1 else extent.

(** The index expression of lines 159-160. *)
Definition sparkline_index (mn extent n : Q) : Z :=
  Z.min (barcount - 1) (py_int ((n - mn) / extent * inject_Z barcount)).

Definition sparkline (numbers : list Q) (fixed_min fixed_max : Q)
  : result (Q * Q * pystr) :=
  let? mn := (if Qeq_bool fixed_min (-1) then py_min numbers else Ok fixed_min) in
  let? mx := (if Qeq_bool fixed_max (-1) then py_max numbers else Ok fixed_max) in
  let extent := sparkline_extent mn mx in
  let? s := rmap (fun n => getitem bar (sparkline_index mn extent n)) numbers in
  Ok (mn, mx, s).

(** The index the specification gives:
    [clamp(floor((n - min)/extent * 8), 0, 7)] with
    [extent = max(max - min, 1)]. *)
Definition clamp (lo hi x : Z) : Z := Z.max lo (Z.min hi x).




(** ** Interpreter and operating-system services

    What the profiler obtains from the Python runtime and the operating
    system.  None of it is code of the profiler, so it is a parameter of
    the model. *)

Class Runtime : Type := {
  (** [os.path.abspath], under the working directory in effect *)
  abspath : string -> string;
  (** [dis.opmap]: opcode number of an opcode name *)
  opmap : string -> Z;
  (** [float(s)] on a string; [None] stands for [ValueError] *)
  pyfloat : string -> option Q;
  (** [time.process_time()]: the value of the n-th reading *)
  process_time : nat -> Q;
  (** the random choice of a reservoir of capacity [k] at its [n]-th
      offer: the slot to overwrite, or [None] to drop the item *)
  draw : nat -> nat -> option nat;
  (** [open(fname, 'r')] on a source file: its lines, or [None] when the
      file cannot be opened *)
  source_lines : string -> option (list string);
  (** ["%w.pf" % x] and ["%wd" % n] *)
  fmt_float : nat -> nat -> Q -> pystr;
  fmt_int : nat -> Z -> pystr
}.

(** ** Paths and the file filter (scalene.py, lines 397-410) *)

Local Open Scope string_scope.

(** [needle in hay] on strings. *)
Fixpoint contains (needle hay : string) : bool :=
  String.prefix needle hay ||
  match hay with
  | EmptyString => false
  | String _ hay' => contains needle hay'
  end.

(** [s.split(sep)]. *)
Fixpoint split_on (sep : ascii) (s : string) : list string :=
  match s with
  | EmptyString => [EmptyString]
  | String c s' =>
      if Ascii.eqb c sep then EmptyString :: split_on sep s'
      else match split_on sep s' with
           | h :: t => String c h :: t
           | [] => [String c EmptyString]
           end
  end.

(** The component loop of [posixpath.normpath]; [new_comps] is kept in
    reverse. *)
Fixpoint normpath_comps (initial_slashes : bool) (comps new_comps : list string)
  : list string :=
  match comps with
  | [] => rev new_comps
  | comp :: comps' =>
      if String.eqb comp "" || String.eqb comp "." then
        normpath_comps initial_slashes comps' new_comps
      else if negb (String.eqb comp "..")
              || (negb initial_slashes && match new_comps with [] => true | _ => false end)
              || match new_comps with last :: _ => String.eqb last ".." | [] => false end
      then normpath_comps initial_slashes comps' (comp :: new_comps)
      else normpath_comps initial_slashes comps' (tl new_comps)
  end.

(** [posixpath.normpath]. *)
Definition normpath (path : string) : string :=
  if String.eqb path "" then "." else
  let initial_slashes := String.prefix "/" path in
  let two := String.prefix "//" path && negb (String.prefix "///" path) in
  let comps := normpath_comps initial_slashes (split_on "/" path) [] in
  let body := String.concat "/" comps in
  let path' := if two then "//" ++ body
               else if initial_slashes then "/" ++ body else body in
  if String.eqb path' "" then "." else path'.

(** [posixpath.abspath] with working directory [cwd]; it instantiates
    [abspath] when a property is evaluated on concrete paths. *)
Definition posix_abspath (cwd path : string) : string :=
  if String.prefix "/" path then normpath path
  else normpath (if String.eqb path "" then cwd ++ "/"
                 else if String.eqb (substring (String.length cwd - 1) 1 cwd) "/"
                      then cwd ++ path
                      else cwd ++ "/" ++ path).

(** [should_trace]: the body under [lru_cache(128)].  [program_path] and
    the working directory are set before profiling starts and the body
    reads nothing else, so the memoised function returns what the body
    returns; an exception is not cached. *)
Definition should_trace `{Runtime} (program_path filename : string) : result bool :=
  let? first := match filename with
                | EmptyString => Raise IndexError
                | String c _ => Ok c
                end in
  if Ascii.eqb first "<" || contains "site-packages" filename
     || contains "/usr/lib/python" filename
  then Ok false
  else if contains "scalene.py" filename then Ok false
  else
    let filename := abspath filename in
    Ok (contains program_path filename).

(** The specification's words: [p] is a descendant of directory [dir]. *)
Definition descendant (dir p : string) : bool :=
  String.prefix (dir ++ "/") p.

Local Close Scope string_scope.

(** ** Dictionaries

    A Python [dict] keeps its items in insertion order; it is modelled as
    an association list without repeated keys. *)

Class Key (K : Type) : Type := {
  keqb : K -> K -> bool;
  keqb_eq : forall x y, keqb x y = true <-> x = y
}.

#[global] Instance Key_string : Key string :=
  {| keqb := String.eqb; keqb_eq := String.eqb_eq |}.

#[global] Instance Key_Z : Key Z :=
  {| keqb := Z.eqb; keqb_eq := Z.eqb_eq |}.

Definition dict (K V : Type) : Type := list (K * V).

Section Dict.
Context {K V : Type} `{Key K}.

(** [d.get(k)] *)
Fixpoint dict_find (d : dict K V) (k : K) : option V :=
  match d with
  | [] => None
  | (k', v) :: d' => if keqb k' k then Some v else dict_find d' k
  end.

(** [d[k] = v]: an existing key keeps its position, a new one goes last. *)
Fixpoint dict_set (d : dict K V) (k : K) (v : V) : dict K V :=
  match d with
  | [] => [(k, v)]
  | (k', v') :: d' =>
      if keqb k' k then (k', v) :: d' else (k', v') :: dict_set d' k v
  end.

Definition dict_keys (d : dict K V) : list K := map fst d.
Definition dict_values (d : dict K V) : list V := map snd d.

(** [d[k]] on a [defaultdict] whose factory returns [dflt]: a missing key
    is inserted with the default value.  Returns the value and the
    dictionary afterwards. *)
Definition dd_getitem (dflt : V) (d : dict K V) (k : K) : V * dict K V :=
  match dict_find d k with
  | Some v => (v, d)
  | None => (dflt, dict_set d k dflt)
  end.

(** The value [d[k]] would return, without the insertion. *)
Definition lookup (dflt : V) (d : dict K V) (k : K) : V :=
  match dict_find d k with
  | Some v => v
  | None => dflt
  end.
End Dict.

(** Two- and three-level [defaultdict]s.  The inner dictionary returned by
    [d[f]] is the object stored in [d], so what is done to it is written
    back under [f]. *)
Definition dd_getitem2 {V} (dflt : V) (d : dict string (dict Z V))
           (f : string) (l : Z) : V * dict string (dict Z V) :=
  let '(inner, d1) := dd_getitem [] d f in
  let '(v, inner') := dd_getitem dflt inner l in
  (v, dict_set d1 f inner').

Definition dd_setitem2 {V} (d : dict string (dict Z V))
           (f : string) (l : Z) (v : V) : dict string (dict Z V) :=
  let '(inner, d1) := dd_getitem [] d f in
  dict_set d1 f (dict_set inner l v).

Definition lookup2 {V} (dflt : V) (d : dict string (dict Z V))
           (f : string) (l : Z) : V :=
  lookup dflt (lookup [] d f) l.

Definition dd_getitem3 {V} (dflt : V) (d : dict string (dict Z (dict Z V)))
           (f : string) (l b : Z) : V * dict string (dict Z (dict Z V)) :=
  let '(inner, d1) := dd_getitem2 [] d f l in
  let '(v, inner') := dd_getitem dflt inner b in
  (v, dd_setitem2 d1 f l inner').

Definition dd_setitem3 {V} (d : dict string (dict Z (dict Z V)))
           (f : string) (l b : Z) (v : V) : dict string (dict Z (dict Z V)) :=
  let '(inner, d1) := dd_getitem2 [] d f l in
  dd_setitem2 d1 f l (dict_set inner b v).

Definition lookup3 {V} (dflt : V) (d : dict string (dict Z (dict Z V)))
           (f : string) (l b : Z) : V :=
  lookup dflt (lookup2 [] d f l) b.

(** ** Reservoir *)

(** Modelled from the spec: the module [reservoir] ([reservoir.py]) is not
    among the sources.  Section 4.1: a fixed-capacity sample over a
    stream; [offer] stores the item while fewer than [k] items have been
    offered, and afterwards replaces a stored item chosen at random (here
    by the oracle [draw]) or drops the item; [snapshot] returns the
    current contents as a sequence.  [get] returns the stored sequence
    itself, which the reporter sorts in place. *)
Record reservoir : Type := {
  max_samples : nat;
  total_samples : nat;
  sample_array : list (Q * Q)
}.

Definition new_reservoir (k : nat) : reservoir :=
  {| max_samples := k; total_samples := 0; sample_array := [] |}.

Fixpoint replace_nth {A} (i : nat) (x : A) (l : list A) : list A :=
  match l, i with
  | [], _ => []
  | _ :: l', O => x :: l'
  | y :: l', S i' => y :: replace_nth i' x l'
  end.

Definition reservoir_add `{Runtime} (r : reservoir) (item : Q * Q) : reservoir :=
  let n := S (total_samples r) in
  if (n <=? max_samples r)%nat
  then {| max_samples := max_samples r; total_samples := n;
          sample_array := sample_array r ++ [item] |}
  else match draw (max_samples r) n with
       | Some i => {| max_samples := max_samples r; total_samples := n;
                      sample_array := replace_nth i item (sample_array r) |}
       | None => {| max_samples := max_samples r; total_samples := n;
                    sample_array := sample_array r |}
       end.

Definition reservoir_get (r : reservoir) : list (Q * Q) := sample_array r.

(** [arr.sort()] where the items are two-element lists of floats: Python
    compares them lexicographically and sorts stably. *)
Definition item_lt (a b : Q * Q) : bool :=
  match fst a ?= fst b with
  | Lt => true
  | Eq => Qltb (snd a) (snd b)
  | Gt => false
  end.

Section Sort.
Context {A : Type} (lt : A -> A -> bool).

Fixpoint sort_insert (x : A) (l : list A) : list A :=
  match l with
  | [] => [x]
  | y :: l' => if lt y x then y :: sort_insert x l' else x :: y :: l'
  end.

(** A stable sort: equal items keep their order. *)
Fixpoint list_sort (l : list A) : list A :=
  match l with
  | [] => []
  | x :: l' => sort_insert x (list_sort l')
  end.
End Sort.

(** ** The profiler state

    The class attributes of [Scalene] that the handlers and the reporter
    read or write, the two bridge files, and the number of clock readings
    taken so far.  [footprint_history] is a ghost field: it records every
    value assigned to [current_footprint] and is read by no code. *)

(** A float that may be [float("inf")]. *)
Inductive xfloat : Type :=
| Fin (q : Q)
| Inf.

Definition xfloat_add (x y : xfloat) : xfloat :=
  match x, y with
  | Fin a, Fin b => Fin (a + b)
  | _, _ => Inf
  end.

(** [now >= x] *)
Definition reached (now : Q) (x : xfloat) : bool :=
  match x with
  | Fin q => Qle_bool q now
  | Inf => false
  end.

Record Scalene : Type := {
  (* statistics counters, lines 83-104 *)
  cpu_samples_python : dict string (dict Z Q);
  cpu_samples_c : dict string (dict Z Q);
  memory_malloc_samples : dict string (dict Z (dict Z Q));
  memory_malloc_count : dict string (dict Z (dict Z Z));
  memory_free_samples : dict string (dict Z (dict Z Q));
  memory_free_count : dict string (dict Z (dict Z Z));
  total_cpu_samples : Q;
  total_memory_malloc_samples : Q;
  total_memory_free_samples : Q;
  current_footprint : Q;
  max_footprint : Q;
  (* timing, lines 106-107 and 216 *)
  last_signal_interval : Q;
  last_signal_time : Q;
  (* reservoirs, lines 109-110 *)
  memory_footprint_samples : reservoir;
  per_line_footprint_samples : dict string (dict Z reservoir);
  (* lines 114-120 *)
  program_path : string;
  output_profile_interval : xfloat;
  next_output_time : xfloat;
  elapsed_time : Q;
  bytei_map : dict string (dict Z (list Z));
  (* the two bridge files: their lines, or [None] when absent *)
  malloc_signal_file : option (list string);
  free_signal_file : option (list string);
  (* how many times [gettime] has been called *)
  clock_reads : nat;
  (* ghost: every value assigned to [current_footprint], latest first *)
  footprint_history : list Q
}.

(** Assignment to one attribute. *)
Definition set_cpu_samples_python (v : dict string (dict Z Q)) (s : Scalene) : Scalene :=
  {| cpu_samples_python := v; cpu_samples_c := cpu_samples_c s;
    memory_malloc_samples := memory_malloc_samples s;
    memory_malloc_count := memory_malloc_count s;
    memory_free_samples := memory_free_samples s;
    memory_free_count := memory_free_count s;
    total_cpu_samples := total_cpu_samples s;
    total_memory_malloc_samples := total_memory_malloc_samples s;
    total_memory_free_samples := total_memory_free_samples s;
    current_footprint := current_footprint s;
    max_footprint := max_footprint s;
    last_signal_interval := last_signal_interval s;
    last_signal_time := last_signal_time s;
    memory_footprint_samples := memory_footprint_samples s;
    per_line_footprint_samples := per_line_footprint_samples s;
    program_path := program_path s;
    output_profile_interval := output_profile_interval s;
    next_output_time := next_output_time s; elapsed_time := elapsed_time s;
    bytei_map := bytei_map s; malloc_signal_file := malloc_signal_file s;
    free_signal_file := free_signal_file s; clock_reads := clock_reads s;
    footprint_history := footprint_history s |}.

Definition set_cpu_samples_c (v : dict string (dict Z Q)) (s : Scalene) : Scalene :=
  {| cpu_samples_python := cpu_samples_python s; cpu_samples_c := v;
    memory_malloc_samples := memory_malloc_samples s;
    memory_malloc_count := memory_malloc_count s;
    memory_free_samples := memory_free_samples s;
    memory_free_count := memory_free_count s;
    total_cpu_samples := total_cpu_samples s;
    total_memory_malloc_samples := total_memory_malloc_samples s;
    total_memory_free_samples := total_memory_free_samples s;
    current_footprint := current_footprint s;
    max_footprint := max_footprint s;
    last_signal_interval := last_signal_interval s;
    last_signal_time := last_signal_time s;
    memory_footprint_samples := memory_footprint_samples s;
    per_line_footprint_samples := per_line_footprint_samples s;
    program_path := program_path s;
    output_profile_interval := output_profile_interval s;
    next_output_time := next_output_time s; elapsed_time := elapsed_time s;
    bytei_map := bytei_map s; malloc_signal_file := malloc_signal_file s;
    free_signal_file := free_signal_file s; clock_reads := clock_reads s;
    footprint_history := footprint_history s |}.

Definition set_memory_malloc_samples (v : dict string (dict Z (dict Z Q))) (s : Scalene) : Scalene :=
  {| cpu_samples_python := cpu_samples_python s;
    cpu_samples_c := cpu_samples_c s; memory_malloc_samples := v;
    memory_malloc_count := memory_malloc_count s;
    memory_free_samples := memory_free_samples s;
    memory_free_count := memory_free_count s;
    total_cpu_samples := total_cpu_samples s;
    total_memory_malloc_samples := total_memory_malloc_samples s;
    total_memory_free_samples := total_memory_free_samples s;
    current_footprint := current_footprint s;
    max_footprint := max_footprint s;
    last_signal_interval := last_signal_interval s;
    last_signal_time := last_signal_time s;
    memory_footprint_samples := memory_footprint_samples s;
    per_line_footprint_samples := per_line_footprint_samples s;
    program_path := program_path s;
    output_profile_interval := output_profile_interval s;
    next_output_time := next_output_time s; elapsed_time := elapsed_time s;
    bytei_map := bytei_map s; malloc_signal_file := malloc_signal_file s;
    free_signal_file := free_signal_file s; clock_reads := clock_reads s;
    footprint_history := footprint_history s |}.

Definition set_memory_malloc_count (v : dict string (dict Z (dict Z Z))) (s : Scalene) : Scalene :=
  {| cpu_samples_python := cpu_samples_python s;
    cpu_samples_c := cpu_samples_c s;
    memory_malloc_samples := memory_malloc_samples s;
    memory_malloc_count := v; memory_free_samples := memory_free_samples s;
    memory_free_count := memory_free_count s;
    total_cpu_samples := total_cpu_samples s;
    total_memory_malloc_samples := total_memory_malloc_samples s;
    total_memory_free_samples := total_memory_free_samples s;
    current_footprint := current_footprint s;
    max_footprint := max_footprint s;
    last_signal_interval := last_signal_interval s;
    last_signal_time := last_signal_time s;
    memory_footprint_samples := memory_footprint_samples s;
    per_line_footprint_samples := per_line_footprint_samples s;
    program_path := program_path s;
    output_profile_interval := output_profile_interval s;
    next_output_time := next_output_time s; elapsed_time := elapsed_time s;
    bytei_map := bytei_map s; malloc_signal_file := malloc_signal_file s;
    free_signal_file := free_signal_file s; clock_reads := clock_reads s;
    footprint_history := footprint_history s |}.

Definition set_memory_free_samples (v : dict string (dict Z (dict Z Q))) (s : Scalene) : Scalene :=
  {| cpu_samples_python := cpu_samples_python s;
    cpu_samples_c := cpu_samples_c s;
    memory_malloc_samples := memory_malloc_samples s;
    memory_malloc_count := memory_malloc_count s; memory_free_samples := v;
    memory_free_count := memory_free_count s;
    total_cpu_samples := total_cpu_samples s;
    total_memory_malloc_samples := total_memory_malloc_samples s;
    total_memory_free_samples := total_memory_free_samples s;
    current_footprint := current_footprint s;
    max_footprint := max_footprint s;
    last_signal_interval := last_signal_interval s;
    last_signal_time := last_signal_time s;
    memory_footprint_samples := memory_footprint_samples s;
    per_line_footprint_samples := per_line_footprint_samples s;
    program_path := program_path s;
    output_profile_interval := output_profile_interval s;
    next_output_time := next_output_time s; elapsed_time := elapsed_time s;
    bytei_map := bytei_map s; malloc_signal_file := malloc_signal_file s;
    free_signal_file := free_signal_file s; clock_reads := clock_reads s;
    footprint_history := footprint_history s |}.

Definition set_memory_free_count (v : dict string (dict Z (dict Z Z))) (s : Scalene) : Scalene :=
  {| cpu_samples_python := cpu_samples_python s;
    cpu_samples_c := cpu_samples_c s;
    memory_malloc_samples := memory_malloc_samples s;
    memory_malloc_count := memory_malloc_count s;
    memory_free_samples := memory_free_samples s; memory_free_count := v;
    total_cpu_samples := total_cpu_samples s;
    total_memory_malloc_samples := total_memory_malloc_samples s;
    total_memory_free_samples := total_memory_free_samples s;
    current_footprint := current_footprint s;
    max_footprint := max_footprint s;
    last_signal_interval := last_signal_interval s;
    last_signal_time := last_signal_time s;
    memory_footprint_samples := memory_footprint_samples s;
    per_line_footprint_samples := per_line_footprint_samples s;
    program_path := program_path s;
    output_profile_interval := output_profile_interval s;
    next_output_time := next_output_time s; elapsed_time := elapsed_time s;
    bytei_map := bytei_map s; malloc_signal_file := malloc_signal_file s;
    free_signal_file := free_signal_file s; clock_reads := clock_reads s;
    footprint_history := footprint_history s |}.

Definition set_total_cpu_samples (v : Q) (s : Scalene) : Scalene :=
  {| cpu_samples_python := cpu_samples_python s;
    cpu_samples_c := cpu_samples_c s;
    memory_malloc_samples := memory_malloc_samples s;
    memory_malloc_count := memory_malloc_count s;
    memory_free_samples := memory_free_samples s;
    memory_free_count := memory_free_count s; total_cpu_samples := v;
    total_memory_malloc_samples := total_memory_malloc_samples s;
    total_memory_free_samples := total_memory_free_samples s;
    current_footprint := current_footprint s;
    max_footprint := max_footprint s;
    last_signal_interval := last_signal_interval s;
    last_signal_time := last_signal_time s;
    memory_footprint_samples := memory_footprint_samples s;
    per_line_footprint_samples := per_line_footprint_samples s;
    program_path := program_path s;
    output_profile_interval := output_profile_interval s;
    next_output_time := next_output_time s; elapsed_time := elapsed_time s;
    bytei_map := bytei_map s; malloc_signal_file := malloc_signal_file s;
    free_signal_file := free_signal_file s; clock_reads := clock_reads s;
    footprint_history := footprint_history s |}.

Definition set_total_memory_malloc_samples (v : Q) (s : Scalene) : Scalene :=
  {| cpu_samples_python := cpu_samples_python s;
    cpu_samples_c := cpu_samples_c s;
    memory_malloc_samples := memory_malloc_samples s;
    memory_malloc_count := memory_malloc_count s;
    memory_free_samples := memory_free_samples s;
    memory_free_count := memory_free_count s;
    total_cpu_samples := total_cpu_samples s;
    total_memory_malloc_samples := v;
    total_memory_free_samples := total_memory_free_samples s;
    current_footprint := current_footprint s;
    max_footprint := max_footprint s;
    last_signal_interval := last_signal_interval s;
    last_signal_time := last_signal_time s;
    memory_footprint_samples := memory_footprint_samples s;
    per_line_footprint_samples := per_line_footprint_samples s;
    program_path := program_path s;
    output_profile_interval := output_profile_interval s;
    next_output_time := next_output_time s; elapsed_time := elapsed_time s;
    bytei_map := bytei_map s; malloc_signal_file := malloc_signal_file s;
    free_signal_file := free_signal_file s; clock_reads := clock_reads s;
    footprint_history := footprint_history s |}.

Definition set_total_memory_free_samples (v : Q) (s : Scalene) : Scalene :=
  {| cpu_samples_python := cpu_samples_python s;
    cpu_samples_c := cpu_samples_c s;
    memory_malloc_samples := memory_malloc_samples s;
    memory_malloc_count := memory_malloc_count s;
    memory_free_samples := memory_free_samples s;
    memory_free_count := memory_free_count s;
    total_cpu_samples := total_cpu_samples s;
    total_memory_malloc_samples := total_memory_malloc_samples s;
    total_memory_free_samples := v; current_footprint := current_footprint s;
    max_footprint := max_footprint s;
    last_signal_interval := last_signal_interval s;
    last_signal_time := last_signal_time s;
    memory_footprint_samples := memory_footprint_samples s;
    per_line_footprint_samples := per_line_footprint_samples s;
    program_path := program_path s;
    output_profile_interval := output_profile_interval s;
    next_output_time := next_output_time s; elapsed_time := elapsed_time s;
    bytei_map := bytei_map s; malloc_signal_file := malloc_signal_file s;
    free_signal_file := free_signal_file s; clock_reads := clock_reads s;
    footprint_history := footprint_history s |}.

Definition set_current_footprint (v : Q) (s : Scalene) : Scalene :=
  {| cpu_samples_python := cpu_samples_python s;
    cpu_samples_c := cpu_samples_c s;
    memory_malloc_samples := memory_malloc_samples s;
    memory_malloc_count := memory_malloc_count s;
    memory_free_samples := memory_free_samples s;
    memory_free_count := memory_free_count s;
    total_cpu_samples := total_cpu_samples s;
    total_memory_malloc_samples := total_memory_malloc_samples s;
    total_memory_free_samples := total_memory_free_samples s;
    current_footprint := v; max_footprint := max_footprint s;
    last_signal_interval := last_signal_interval s;
    last_signal_time := last_signal_time s;
    memory_footprint_samples := memory_footprint_samples s;
    per_line_footprint_samples := per_line_footprint_samples s;
    program_path := program_path s;
    output_profile_interval := output_profile_interval s;
    next_output_time := next_output_time s; elapsed_time := elapsed_time s;
    bytei_map := bytei_map s; malloc_signal_file := malloc_signal_file s;
    free_signal_file := free_signal_file s; clock_reads := clock_reads s;
    footprint_history := footprint_history s |}.

Definition set_max_footprint (v : Q) (s : Scalene) : Scalene :=
  {| cpu_samples_python := cpu_samples_python s;
    cpu_samples_c := cpu_samples_c s;
    memory_malloc_samples := memory_malloc_samples s;
    memory_malloc_count := memory_malloc_count s;
    memory_free_samples := memory_free_samples s;
    memory_free_count := memory_free_count s;
    total_cpu_samples := total_cpu_samples s;
    total_memory_malloc_samples := total_memory_malloc_samples s;
    total_memory_free_samples := total_memory_free_samples s;
    current_footprint := current_footprint s; max_footprint := v;
    last_signal_interval := last_signal_interval s;
    last_signal_time := last_signal_time s;
    memory_footprint_samples := memory_footprint_samples s;
    per_line_footprint_samples := per_line_footprint_samples s;
    program_path := program_path s;
    output_profile_interval := output_profile_interval s;
    next_output_time := next_output_time s; elapsed_time := elapsed_time s;
    bytei_map := bytei_map s; malloc_signal_file := malloc_signal_file s;
    free_signal_file := free_signal_file s; clock_reads := clock_reads s;
    footprint_history := footprint_history s |}.

Definition set_last_signal_time (v : Q) (s : Scalene) : Scalene :=
  {| cpu_samples_python := cpu_samples_python s;
    cpu_samples_c := cpu_samples_c s;
    memory_malloc_samples := memory_malloc_samples s;
    memory_malloc_count := memory_malloc_count s;
    memory_free_samples := memory_free_samples s;
    memory_free_count := memory_free_count s;
    total_cpu_samples := total_cpu_samples s;
    total_memory_malloc_samples := total_memory_malloc_samples s;
    total_memory_free_samples := total_memory_free_samples s;
    current_footprint := current_footprint s;
    max_footprint := max_footprint s;
    last_signal_interval := last_signal_interval s; last_signal_time := v;
    memory_footprint_samples := memory_footprint_samples s;
    per_line_footprint_samples := per_line_footprint_samples s;
    program_path := program_path s;
    output_profile_interval := output_profile_interval s;
    next_output_time := next_output_time s; elapsed_time := elapsed_time s;
    bytei_map := bytei_map s; malloc_signal_file := malloc_signal_file s;
    free_signal_file := free_signal_file s; clock_reads := clock_reads s;
    footprint_history := footprint_history s |}.

Definition set_memory_footprint_samples (v : reservoir) (s : Scalene) : Scalene :=
  {| cpu_samples_python := cpu_samples_python s;
    cpu_samples_c := cpu_samples_c s;
    memory_malloc_samples := memory_malloc_samples s;
    memory_malloc_count := memory_malloc_count s;
    memory_free_samples := memory_free_samples s;
    memory_free_count := memory_free_count s;
    total_cpu_samples := total_cpu_samples s;
    total_memory_malloc_samples := total_memory_malloc_samples s;
    total_memory_free_samples := total_memory_free_samples s;
    current_footprint := current_footprint s;
    max_footprint := max_footprint s;
    last_signal_interval := last_signal_interval s;
    last_signal_time := last_signal_time s; memory_footprint_samples := v;
    per_line_footprint_samples := per_line_footprint_samples s;
    program_path := program_path s;
    output_profile_interval := output_profile_interval s;
    next_output_time := next_output_time s; elapsed_time := elapsed_time s;
    bytei_map := bytei_map s; malloc_signal_file := malloc_signal_file s;
    free_signal_file := free_signal_file s; clock_reads := clock_reads s;
    footprint_history := footprint_history s |}.

Definition set_per_line_footprint_samples (v : dict string (dict Z reservoir)) (s : Scalene) : Scalene :=
  {| cpu_samples_python := cpu_samples_python s;
    cpu_samples_c := cpu_samples_c s;
    memory_malloc_samples := memory_malloc_samples s;
    memory_malloc_count := memory_malloc_count s;
    memory_free_samples := memory_free_samples s;
    memory_free_count := memory_free_count s;
    total_cpu_samples := total_cpu_samples s;
    total_memory_malloc_samples := total_memory_malloc_samples s;
    total_memory_free_samples := total_memory_free_samples s;
    current_footprint := current_footprint s;
    max_footprint := max_footprint s;
    last_signal_interval := last_signal_interval s;
    last_signal_time := last_signal_time s;
    memory_footprint_samples := memory_footprint_samples s;
    per_line_footprint_samples := v; program_path := program_path s;
    output_profile_interval := output_profile_interval s;
    next_output_time := next_output_time s; elapsed_time := elapsed_time s;
    bytei_map := bytei_map s; malloc_signal_file := malloc_signal_file s;
    free_signal_file := free_signal_file s; clock_reads := clock_reads s;
    footprint_history := footprint_history s |}.

Definition set_next_output_time (v : xfloat) (s : Scalene) : Scalene :=
  {| cpu_samples_python := cpu_samples_python s;
    cpu_samples_c := cpu_samples_c s;
    memory_malloc_samples := memory_malloc_samples s;
    memory_malloc_count := memory_malloc_count s;
    memory_free_samples := memory_free_samples s;
    memory_free_count := memory_free_count s;
    total_cpu_samples := total_cpu_samples s;
    total_memory_malloc_samples := total_memory_malloc_samples s;
    total_memory_free_samples := total_memory_free_samples s;
    current_footprint := current_footprint s;
    max_footprint := max_footprint s;
    last_signal_interval := last_signal_interval s;
    last_signal_time := last_signal_time s;
    memory_footprint_samples := memory_footprint_samples s;
    per_line_footprint_samples := per_line_footprint_samples s;
    program_path := program_path s;
    output_profile_interval := output_profile_interval s;
    next_output_time := v; elapsed_time := elapsed_time s;
    bytei_map := bytei_map s; malloc_signal_file := malloc_signal_file s;
    free_signal_file := free_signal_file s; clock_reads := clock_reads s;
    footprint_history := footprint_history s |}.

Definition set_elapsed_time (v : Q) (s : Scalene) : Scalene :=
  {| cpu_samples_python := cpu_samples_python s;
    cpu_samples_c := cpu_samples_c s;
    memory_malloc_samples := memory_malloc_samples s;
    memory_malloc_count := memory_malloc_count s;
    memory_free_samples := memory_free_samples s;
    memory_free_count := memory_free_count s;
    total_cpu_samples := total_cpu_samples s;
    total_memory_malloc_samples := total_memory_malloc_samples s;
    total_memory_free_samples := total_memory_free_samples s;
    current_footprint := current_footprint s;
    max_footprint := max_footprint s;
    last_signal_interval := last_signal_interval s;
    last_signal_time := last_signal_time s;
    memory_footprint_samples := memory_footprint_samples s;
    per_line_footprint_samples := per_line_footprint_samples s;
    program_path := program_path s;
    output_profile_interval := output_profile_interval s;
    next_output_time := next_output_time s; elapsed_time := v;
    bytei_map := bytei_map s; malloc_signal_file := malloc_signal_file s;
    free_signal_file := free_signal_file s; clock_reads := clock_reads s;
    footprint_history := footprint_history s |}.

Definition set_bytei_map (v : dict string (dict Z (list Z))) (s : Scalene) : Scalene :=
  {| cpu_samples_python := cpu_samples_python s;
    cpu_samples_c := cpu_samples_c s;
    memory_malloc_samples := memory_malloc_samples s;
    memory_malloc_count := memory_malloc_count s;
    memory_free_samples := memory_free_samples s;
    memory_free_count := memory_free_count s;
    total_cpu_samples := total_cpu_samples s;
    total_memory_malloc_samples := total_memory_malloc_samples s;
    total_memory_free_samples := total_memory_free_samples s;
    current_footprint := current_footprint s;
    max_footprint := max_footprint s;
    last_signal_interval := last_signal_interval s;
    last_signal_time := last_signal_time s;
    memory_footprint_samples := memory_footprint_samples s;
    per_line_footprint_samples := per_line_footprint_samples s;
    program_path := program_path s;
    output_profile_interval := output_profile_interval s;
    next_output_time := next_output_time s; elapsed_time := elapsed_time s;
    bytei_map := v; malloc_signal_file := malloc_signal_file s;
    free_signal_file := free_signal_file s; clock_reads := clock_reads s;
    footprint_history := footprint_history s |}.

Definition set_malloc_signal_file (v : option (list string)) (s : Scalene) : Scalene :=
  {| cpu_samples_python := cpu_samples_python s;
    cpu_samples_c := cpu_samples_c s;
    memory_malloc_samples := memory_malloc_samples s;
    memory_malloc_count := memory_malloc_count s;
    memory_free_samples := memory_free_samples s;
    memory_free_count := memory_free_count s;
    total_cpu_samples := total_cpu_samples s;
    total_memory_malloc_samples := total_memory_malloc_samples s;
    total_memory_free_samples := total_memory_free_samples s;
    current_footprint := current_footprint s;
    max_footprint := max_footprint s;
    last_signal_interval := last_signal_interval s;
    last_signal_time := last_signal_time s;
    memory_footprint_samples := memory_footprint_samples s;
    per_line_footprint_samples := per_line_footprint_samples s;
    program_path := program_path s;
    output_profile_interval := output_profile_interval s;
    next_output_time := next_output_time s; elapsed_time := elapsed_time s;
    bytei_map := bytei_map s; malloc_signal_file := v;
    free_signal_file := free_signal_file s; clock_reads := clock_reads s;
    footprint_history := footprint_history s |}.

Definition set_free_signal_file (v : option (list string)) (s : Scalene) : Scalene :=
  {| cpu_samples_python := cpu_samples_python s;
    cpu_samples_c := cpu_samples_c s;
    memory_malloc_samples := memory_malloc_samples s;
    memory_malloc_count := memory_malloc_count s;
    memory_free_samples := memory_free_samples s;
    memory_free_count := memory_free_count s;
    total_cpu_samples := total_cpu_samples s;
    total_memory_malloc_samples := total_memory_malloc_samples s;
    total_memory_free_samples := total_memory_free_samples s;
    current_footprint := current_footprint s;
    max_footprint := max_footprint s;
    last_signal_interval := last_signal_interval s;
    last_signal_time := last_signal_time s;
    memory_footprint_samples := memory_footprint_samples s;
    per_line_footprint_samples := per_line_footprint_samples s;
    program_path := program_path s;
    output_profile_interval := output_profile_interval s;
    next_output_time := next_output_time s; elapsed_time := elapsed_time s;
    bytei_map := bytei_map s; malloc_signal_file := malloc_signal_file s;
    free_signal_file := v; clock_reads := clock_reads s;
    footprint_history := footprint_history s |}.

Definition set_clock_reads (v : nat) (s : Scalene) : Scalene :=
  {| cpu_samples_python := cpu_samples_python s;
    cpu_samples_c := cpu_samples_c s;
    memory_malloc_samples := memory_malloc_samples s;
    memory_malloc_count := memory_malloc_count s;
    memory_free_samples := memory_free_samples s;
    memory_free_count := memory_free_count s;
    total_cpu_samples := total_cpu_samples s;
    total_memory_malloc_samples := total_memory_malloc_samples s;
    total_memory_free_samples := total_memory_free_samples s;
    current_footprint := current_footprint s;
    max_footprint := max_footprint s;
    last_signal_interval := last_signal_interval s;
    last_signal_time := last_signal_time s;
    memory_footprint_samples := memory_footprint_samples s;
    per_line_footprint_samples := per_line_footprint_samples s;
    program_path := program_path s;
    output_profile_interval := output_profile_interval s;
    next_output_time := next_output_time s; elapsed_time := elapsed_time s;
    bytei_map := bytei_map s; malloc_signal_file := malloc_signal_file s;
    free_signal_file := free_signal_file s; clock_reads := v;
    footprint_history := footprint_history s |}.

Definition set_footprint_history (v : list Q) (s : Scalene) : Scalene :=
  {| cpu_samples_python := cpu_samples_python s;
    cpu_samples_c := cpu_samples_c s;
    memory_malloc_samples := memory_malloc_samples s;
    memory_malloc_count := memory_malloc_count s;
    memory_free_samples := memory_free_samples s;
    memory_free_count := memory_free_count s;
    total_cpu_samples := total_cpu_samples s;
    total_memory_malloc_samples := total_memory_malloc_samples s;
    total_memory_free_samples := total_memory_free_samples s;
    current_footprint := current_footprint s;
    max_footprint := max_footprint s;
    last_signal_interval := last_signal_interval s;
    last_signal_time := last_signal_time s;
    memory_footprint_samples := memory_footprint_samples s;
    per_line_footprint_samples := per_line_footprint_samples s;
    program_path := program_path s;
    output_profile_interval := output_profile_interval s;
    next_output_time := next_output_time s; elapsed_time := elapsed_time s;
    bytei_map := bytei_map s; malloc_signal_file := malloc_signal_file s;
    free_signal_file := free_signal_file s; clock_reads := clock_reads s;
    footprint_history := v |}.

(** The attributes as the class body initialises them (lines 83-120);
    [program_path] is set by [__init__] and [main]. *)
Definition initial (path : string) (interval : xfloat) (next : xfloat) : Scalene :=
  {| cpu_samples_python := []; cpu_samples_c := [];
     memory_malloc_samples := []; memory_malloc_count := [];
     memory_free_samples := []; memory_free_count := [];
     total_cpu_samples := 0; total_memory_malloc_samples := 0;
     total_memory_free_samples := 0; current_footprint := 0;
     max_footprint := 0;
     last_signal_interval := 1 # 100; last_signal_time := 0;
     memory_footprint_samples := new_reservoir 47;
     per_line_footprint_samples := [];
     program_path := path;
     output_profile_interval := interval; next_output_time := next;
     elapsed_time := 0; bytei_map := [];
     malloc_signal_file := None; free_signal_file := None;
     clock_reads := 0; footprint_history := [] |}.

(** ** The monad of handlers

    A computation reads and writes the profiler state, prints, and may
    raise.  The state and what was printed before an exception are kept. *)

Inductive printed : Type :=
| Out (line : pystr)        (* [print(line, file=out)] in the reporter *)
| Stdout (line : pystr)     (* [print(line)] *)
| StdoutExn (e : exn).      (* [print(e)] *)

Record outcome (A : Type) : Type := {
  st : Scalene;
  log : list printed;
  res : result A
}.

Definition M (A : Type) : Type := Scalene -> outcome A.

Definition ret {A} (a : A) : M A :=
  fun s => {| st := s; log := []; res := Ok a |}.

Definition raise {A} (e : exn) : M A :=
  fun s => {| st := s; log := []; res := Raise e |}.

Definition bind {A B} (m : M A) (k : A -> M B) : M B :=
  fun s =>
    let o := m s in
    match res o with
    | Ok a => let o' := k a (st o) in
              {| st := st o'; log := log o ++ log o'; res := res o' |}
    | Raise e => {| st := st o; log := log o; res := Raise e |}
    end.

Notation "x <- m ;; k" := (bind m (fun x => k))
  (at level 61, m at next level, right associativity).
Notation "' pat <- m ;; k" := (bind m (fun x => match x with pat => k end))
  (at level 61, pat pattern, m at next level, right associativity).
Notation "m ;; k" := (bind m (fun _ => k))
  (at level 61, right associativity).

Definition gets {A} (f : Scalene -> A) : M A :=
  fun s => {| st := s; log := []; res := Ok (f s) |}.

Definition modify (f : Scalene -> Scalene) : M unit :=
  fun s => {| st := f s; log := []; res := Ok tt |}.

Definition print (p : printed) : M unit :=
  fun s => {| st := s; log := [p]; res := Ok tt |}.

Definition lift {A} (r : result A) : M A :=
  match r with
  | Ok a => ret a
  | Raise e => raise e
  end.

(** [for x in l: body(x)] *)
Fixpoint for_each {X} (l : list X) (body : X -> M unit) : M unit :=
  match l with
  | [] => ret tt
  | x :: l' => body x ;; for_each l' body
  end.

(** A [for] loop that updates local variables [acc]. *)
Fixpoint for_fold {X Acc} (l : list X) (acc : Acc) (body : Acc -> X -> M Acc)
  : M Acc :=
  match l with
  | [] => ret acc
  | x :: l' => acc' <- body acc x ;; for_fold l' acc' body
  end.

(** [Scalene.gettime()] (lines 219-222) *)
Definition gettime `{Runtime} : M Q :=
  n <- gets clock_reads ;;
  modify (set_clock_reads (S n)) ;;
  ret (process_time n).

(** [x / y] on floats *)
Definition py_div (x y : Q) : result Q :=
  if Qeq_bool y 0 then Raise ZeroDivisionError else Ok (x / y).

(** [round(x, 0)]: to the nearest integer, ties to even. *)
Definition py_round (q : Q) : Z :=
  let f := Qfloor q in
  let r := q - inject_Z f in
  match Qcompare r (1 # 2) with
  | Lt => f
  | Gt => (f + 1)%Z
  | Eq => if Z.even f then f else (f + 1)%Z
  end.

(** ** Table access *)

(** The tables of one kind of allocation event. *)
Definition samples_table (is_malloc : bool) (s : Scalene) :=
  if is_malloc then memory_malloc_samples s else memory_free_samples s.

Definition set_samples_table (is_malloc : bool) v :=
  if is_malloc then set_memory_malloc_samples v else set_memory_free_samples v.

Definition count_table (is_malloc : bool) (s : Scalene) :=
  if is_malloc then memory_malloc_count s else memory_free_count s.

Definition set_count_table (is_malloc : bool) v :=
  if is_malloc then set_memory_malloc_count v else set_memory_free_count v.

Definition bridge_file (is_malloc : bool) (s : Scalene) :=
  if is_malloc then malloc_signal_file s else free_signal_file s.

Definition set_bridge_file (is_malloc : bool) v :=
  if is_malloc then set_malloc_signal_file v else set_free_signal_file v.

(** [Scalene.memory_*_samples[fname][line_no][bytei]] read *)
Definition samples_getitem (is_malloc : bool) (fname : string) (line_no bytei : Z)
  : M Q :=
  fun s =>
    let r := dd_getitem3 0 (samples_table is_malloc s) fname line_no bytei in
    {| st := set_samples_table is_malloc (snd r) s; log := []; res := Ok (fst r) |}.

(** [Scalene.memory_*_count[fname][line_no][bytei]] read *)
Definition count_getitem (is_malloc : bool) (fname : string) (line_no bytei : Z)
  : M Z :=
  fun s =>
    let r := dd_getitem3 0%Z (count_table is_malloc s) fname line_no bytei in
    {| st := set_count_table is_malloc (snd r) s; log := []; res := Ok (fst r) |}.

(** [Scalene.cpu_samples_*[fname][line_no]] read *)
Definition cpu_getitem (native : bool) (fname : string) (line_no : Z) : M Q :=
  fun s =>
    if native then
      let r := dd_getitem2 0 (cpu_samples_c s) fname line_no in
      {| st := set_cpu_samples_c (snd r) s; log := []; res := Ok (fst r) |}
    else
      let r := dd_getitem2 0 (cpu_samples_python s) fname line_no in
      {| st := set_cpu_samples_python (snd r) s; log := []; res := Ok (fst r) |}.

(** [Scalene.cpu_samples_*[fname][line_no] += x] *)
Definition cpu_iadd (native : bool) (fname : string) (line_no : Z) (x : Q)
  : M unit :=
  v <- cpu_getitem native fname line_no ;;
  modify (fun s =>
    if native
    then set_cpu_samples_c (dd_setitem2 (cpu_samples_c s) fname line_no (v + x)) s
    else set_cpu_samples_python
           (dd_setitem2 (cpu_samples_python s) fname line_no (v + x)) s).

(** [Scalene.bytei_map[fname][line_no]]: the set, in iteration order.  A
    Python [set] is modelled as the list of its elements in some fixed
    order; [add] puts a new element last. *)
Definition bytei_getitem (fname : string) (line_no : Z) : M (list Z) :=
  fun s =>
    let r := dd_getitem2 [] (bytei_map s) fname line_no in
    {| st := set_bytei_map (snd r) s; log := []; res := Ok (fst r) |}.

(** [Scalene.per_line_footprint_samples[fname][line_no]] *)
Definition per_line_getitem (fname : string) (line_no : Z) : M reservoir :=
  fun s =>
    let r :=
      dd_getitem2 (new_reservoir 10) (per_line_footprint_samples s) fname line_no in
    {| st := set_per_line_footprint_samples (snd r) s; log := []; res := Ok (fst r) |}.

(** A change made to the reservoir object obtained from
    [per_line_footprint_samples[fname][line_no]]. *)
Definition per_line_update (fname : string) (line_no : Z) (r : reservoir) : M unit :=
  modify (fun s =>
    set_per_line_footprint_samples
      (dd_setitem2 (per_line_footprint_samples s) fname line_no r) s).

(** ** The allocation handler (scalene.py, lines 333-394) *)

Definition is_space (c : ascii) : bool :=
  let n := nat_of_ascii c in
  ((9 <=? n) && (n <=? 13) || (28 <=? n) && (n <=? 32))%nat.

(** [s.rstrip()] *)
Fixpoint rstrip (s : string) : string :=
  match s with
  | EmptyString => EmptyString
  | String c s' =>
      let r := rstrip s' in
      if is_space c && String.eqb r EmptyString then EmptyString else String c r
  end.

(** Lines 346-358: what one sample of [count] megabytes does. *)
Definition account_sample (is_malloc : bool) (fname : string) (line_no bytei : Z)
           (count : Q) : M unit :=
  (* samples[bytei] += count *)
  v <- samples_getitem is_malloc fname line_no bytei ;;
  modify (fun s =>
    set_samples_table is_malloc
      (dd_setitem3 (samples_table is_malloc s) fname line_no bytei (v + count)) s) ;;
  if is_malloc then
    modify (fun s =>
      set_total_memory_malloc_samples (total_memory_malloc_samples s + count) s) ;;
    modify (fun s =>
      let c := current_footprint s + count in
      set_footprint_history (c :: footprint_history s) (set_current_footprint c s)) ;;
    cur <- gets current_footprint ;;
    mx <- gets max_footprint ;;
    if Qgtb cur mx then modify (set_max_footprint cur) else ret tt
  else
    modify (fun s =>
      set_total_memory_free_samples (total_memory_free_samples s + count) s) ;;
    modify (fun s =>
      let c := current_footprint s - count in
      set_footprint_history (c :: footprint_history s) (set_current_footprint c s)).

(** The loop of lines 342-358 over the lines of the bridge file.  It
    returns the local variable [read_something] and how the loop ended:
    normally, or with the [ValueError] of [float]. *)
Fixpoint drain_lines `{Runtime} (is_malloc : bool) (fname : string)
         (line_no bytei : Z) (lines : list string) (read_something : bool)
  : M (bool * result unit) :=
  match lines with
  | [] => ret (read_something, Ok tt)
  | count_str :: lines' =>
      let read_something := true in
      let count_str := rstrip count_str in
      match pyfloat count_str with
      | None => ret (read_something, Raise ValueError)
      | Some x =>
          let count := x / (1024 * 1024) in
          account_sample is_malloc fname line_no bytei count ;;
          drain_lines is_malloc fname line_no bytei lines' read_something
      end
  end.

Definition alloc_handler_helper `{Runtime} (fname : string) (line_no bytei : Z)
           (is_malloc : bool) : M unit :=
  (* line 336: [samples = Scalene.memory_*_samples[fname][line_no]]; the
     read creates the entry, and [samples] is that entry from then on *)
  modify (fun s =>
    set_samples_table is_malloc
      (snd (dd_getitem2 [] (samples_table is_malloc s) fname line_no)) s) ;;
  file <- gets (bridge_file is_malloc) ;;
  '(read_something, ended) <-
    match file with
    | None => ret (false, Raise FileNotFoundError)      (* [open] raises *)
    | Some lines =>
        '(read_something, ended) <-
          drain_lines is_malloc fname line_no bytei lines false ;;
        match ended with
        | Ok _ =>
            modify (set_bridge_file is_malloc None) ;;  (* [os.remove] *)
            ret (read_something, Ok tt)
        | Raise e => ret (read_something, Raise e)
        end
    end ;;
  match ended with
  | Ok _ => ret tt
  | Raise FileNotFoundError => ret tt                    (* [pass] *)
  | Raise e => print (StdoutExn e)                       (* [print(e)] *)
  end ;;
  if read_something : bool then
    (* counter[fname][line_no][bytei] += 1 *)
    n <- count_getitem is_malloc fname line_no bytei ;;
    modify (fun s =>
      set_count_table is_malloc
        (dd_setitem3 (count_table is_malloc s) fname line_no bytei (n + 1)%Z) s)
  else ret tt.

(** Frames, code objects and instructions, as far as the profiler looks
    at them.  [f_id] is the identity of the frame object: frames compare
    by identity. *)
Record instruction : Type := { offset : Z; opcode : Z }.

Record code : Type := {
  co_filename : string;
  co_instructions : list instruction     (* [dis.get_instructions(code)] *)
}.

#[warnings="-register-all"]
Inductive frame : Type :=
| Frame (f_id : nat) (f_code : code) (f_lineno f_lasti : Z) (f_back : option frame).

Definition f_id (f : frame) : nat := let 'Frame i _ _ _ _ := f in i.
Definition f_code (f : frame) : code := let 'Frame _ c _ _ _ := f in c.
Definition f_lineno (f : frame) : Z := let 'Frame _ _ l _ _ := f in l.
Definition f_lasti (f : frame) : Z := let 'Frame _ _ _ b _ := f in b.
Definition f_back (f : frame) : option frame := let 'Frame _ _ _ _ b := f in b.

Definition allocation_handler `{Runtime} (frame : frame) : M unit :=
  let fname := co_filename (f_code frame) in
  pp <- gets program_path ;;
  traced <- lift (should_trace pp fname) ;;
  if negb traced then ret tt else
  let line_no := f_lineno frame in
  let bytei := f_lasti frame in
  known <- bytei_getitem fname line_no ;;
  (if negb (existsb (Z.eqb bytei) known) then
     known <- bytei_getitem fname line_no ;;
     modify (fun s =>
       set_bytei_map (dd_setitem2 (bytei_map s) fname line_no (known ++ [bytei])) s)
   else ret tt) ;;
  alloc_handler_helper fname line_no bytei true ;;
  alloc_handler_helper fname line_no bytei false.

(** [malloc_event_signal_handler] and [free_event_signal_handler]; the
    interpreter passes the interrupted frame, or [None]. *)
Definition malloc_event_signal_handler `{Runtime} (frame : option frame) : M unit :=
  match frame with
  | Some f => allocation_handler f
  | None => raise AttributeError
  end.

Definition free_event_signal_handler `{Runtime} (frame : option frame) : M unit :=
  match frame with
  | Some f => allocation_handler f
  | None => raise AttributeError
  end.

(** ** Reporter (scalene.py, lines 412-551 and 628-631) *)

(** [Scalene.stop()] and [Scalene.start()], as far as they touch the
    state: the timer and the signal dispositions are outside the model,
    and so are the two [os.chdir]. *)
Definition stop `{Runtime} : M unit :=
  t <- gettime ;;
  modify (fun s => set_elapsed_time (t - elapsed_time s) s).

Definition enable_signals `{Runtime} : M unit :=
  t <- gettime ;;
  modify (set_last_signal_time t).

Definition start `{Runtime} : M unit :=
  enable_signals ;;
  t <- gettime ;;
  modify (set_elapsed_time t).

(** [generate_sparkline(arr, minimum, maximum)].  [arr.sort()] changes the
    list object it is given: the sorted list is returned beside the result
    so that the caller can store it where [arr] came from. *)
Definition generate_sparkline (arr : list (Q * Q)) (minimum maximum : Q)
  : list (Q * Q) * result (Q * Q * pystr) :=
  let iterations := length arr in
  let arr := list_sort item_lt arr in
  let samples := map (fun ti => if Qgtb (snd ti) 0 then snd ti else 0) arr in
  (arr, sparkline (firstn iterations samples) minimum maximum).

(** [sum(values)] starts from [0] and adds from the left. *)
Definition py_sum (l : list Q) : Q := fold_left Qplus l 0.

(** ["%ws" % s] and ["%-ws" % s] *)
Definition rjust (w : nat) (s : pystr) : pystr :=
  repeat 32%N (w - length s) ++ s.

Definition ljust (w : nat) (s : pystr) : pystr :=
  s ++ repeat 32%N (w - length s).

Definition tab : pystr := [9%N].

(** Lines 511-524: the local variables updated for one bytecode index. *)
Record line_memory : Type := {
  n_malloc_mb : Q;
  n_free_mb : Q;
  n_avg_malloc_mb : Q;
  n_avg_free_mb : Q;
  n_malloc_count : Z;
  n_free_count : Z
}.

Definition line_memory_index (fname : string) (line_no : Z)
           (acc : line_memory) (index : Z) : M line_memory :=
  mallocs <- samples_getitem true fname line_no index ;;
  let malloc_mb := n_malloc_mb acc + mallocs in
  c1 <- count_getitem true fname line_no index ;;
  let malloc_count := (n_malloc_count acc + c1)%Z in
  c2 <- count_getitem true fname line_no index ;;
  avg_malloc <-
    (if (0 <? c2)%Z then
       c3 <- count_getitem true fname line_no index ;;
       ret (n_avg_malloc_mb acc + mallocs / inject_Z c3)
     else ret (n_avg_malloc_mb acc)) ;;
  frees <- samples_getitem false fname line_no index ;;
  let free_mb := n_free_mb acc + frees in
  d1 <- count_getitem false fname line_no index ;;
  let free_count := (n_free_count acc + d1)%Z in
  d2 <- count_getitem false fname line_no index ;;
  avg_free <-
    (if (0 <? d2)%Z then
       d3 <- count_getitem false fname line_no index ;;
       ret (n_avg_free_mb acc + frees / inject_Z d3)
     else ret (n_avg_free_mb acc)) ;;
  ret {| n_malloc_mb := malloc_mb; n_free_mb := free_mb;
         n_avg_malloc_mb := avg_malloc; n_avg_free_mb := avg_free;
         n_malloc_count := malloc_count; n_free_count := free_count |}.

(** Lines 486-549: one line of a source file. *)
Definition report_line `{Runtime} (did_sample_memory : bool) (fname : string)
           (line_no : Z) (line : string) : M unit :=
  let line := rstrip line in
  n_cpu_samples_c <- cpu_getitem true fname line_no ;;
  let n_cpu_samples_c := if Qltb n_cpu_samples_c 0 then 0 else n_cpu_samples_c in
  n_cpu_samples_python <- cpu_getitem false fname line_no ;;
  total <- gets total_cpu_samples ;;
  let n_cpu_percent_c :=
    if negb (Qeq_bool total 0) then n_cpu_samples_c * 100 / total else 0 in
  let n_cpu_percent_python :=
    if negb (Qeq_bool total 0) then n_cpu_samples_python * 100 / total else 0 in
  known <- bytei_getitem fname line_no ;;
  mem <- for_fold known
           {| n_malloc_mb := 0; n_free_mb := 0; n_avg_malloc_mb := 0;
              n_avg_free_mb := 0; n_malloc_count := 0; n_free_count := 0 |}
           (line_memory_index fname line_no) ;;
  let n_growth_mb := n_avg_malloc_mb mem - n_avg_free_mb mem in
  let n_growth_mb :=
    if Qltb n_growth_mb 0 && Qgtb n_growth_mb (-1) then 0 else n_growth_mb in
  total_malloc <- gets total_memory_malloc_samples ;;
  let n_usage_mb :=
    if Qeq_bool total_malloc 0 then 0 else n_malloc_mb mem / total_malloc in
  let n_cpu_percent_c_str :=
    if Qeq_bool n_cpu_percent_c 0 then []
    else fmt_float 6 2 n_cpu_percent_c ++ str_of "%" in
  let n_cpu_percent_python_str :=
    if Qeq_bool n_cpu_percent_python 0 then []
    else fmt_float 6 2 n_cpu_percent_python ++ str_of "%" in
  let n_growth_mb_str :=
    if Qeq_bool n_growth_mb 0 && Qeq_bool n_usage_mb 0 then []
    else fmt_float 11 0 n_growth_mb in
  if did_sample_memory then
    r <- per_line_getitem fname line_no ;;
    spark_string <-
      (if (0 <? length (reservoir_get r))%nat then
         r <- per_line_getitem fname line_no ;;
         mxf <- gets max_footprint ;;
         let '(arr, sp) := generate_sparkline (reservoir_get r) 0 mxf in
         per_line_update fname line_no
           {| max_samples := max_samples r; total_samples := total_samples r;
              sample_array := arr |} ;;
         '(_, _, spark) <- lift sp ;;
         ret spark
       else ret []) ;;
    print (Out (fmt_int 6 line_no ++ tab ++ str_of " | "
                ++ rjust 9 n_cpu_percent_python_str ++ str_of " | "
                ++ rjust 9 n_cpu_percent_c_str ++ str_of " | "
                ++ rjust 11 n_growth_mb_str ++ str_of " | "
                ++ ljust 11 spark_string ++ str_of " | " ++ str_of line))
  else
    print (Out (fmt_int 6 line_no ++ tab ++ str_of " | "
                ++ rjust 9 n_cpu_percent_python_str ++ str_of " | "
                ++ rjust 9 n_cpu_percent_c_str ++ str_of " | " ++ str_of line)).

(** [for line_no, line in enumerate(source_file, 1)] *)
Fixpoint report_lines `{Runtime} (did_sample_memory : bool) (fname : string)
         (line_no : Z) (lines : list string) : M unit :=
  match lines with
  | [] => ret tt
  | line :: lines' =>
      report_line did_sample_memory fname line_no line ;;
      report_lines did_sample_memory fname (line_no + 1)%Z lines'
  end.

(** [sum(Scalene.cpu_samples_*[fname].values())]; the read creates the
    entry of [fname]. *)
Definition cpu_file_sum (native : bool) (fname : string) : M Q :=
  fun s =>
    if native then
      let r := dd_getitem [] (cpu_samples_c s) fname in
      {| st := set_cpu_samples_c (snd r) s; log := [];
         res := Ok (py_sum (dict_values (fst r))) |}
    else
      let r := dd_getitem [] (cpu_samples_python s) fname in
      {| st := set_cpu_samples_python (snd r) s; log := [];
         res := Ok (py_sum (dict_values (fst r))) |}.

(** Lines 468-550: one instrumented file. *)
Definition report_file `{Runtime} (did_sample_memory : bool) (fname : string)
  : M unit :=
  sum_c <- cpu_file_sum true fname ;;
  sum_python <- cpu_file_sum false fname ;;
  let this_cpu_samples := sum_c + sum_python in
  total <- gets total_cpu_samples ;;
  let percent_cpu_time :=
    match py_div (100 * this_cpu_samples) total with
    | Ok p => p
    | Raise _ => 0                              (* [except ZeroDivisionError] *)
    end in
  elapsed <- gets elapsed_time ;;
  print (Out (str_of fname ++ str_of ": % of CPU time = "
              ++ fmt_float 6 2 percent_cpu_time ++ str_of "% out of "
              ++ fmt_float 6 2 elapsed ++ str_of "s.")) ;;
  print (Out (str_of "  " ++ tab ++ str_of " | " ++ rjust 9 (str_of "CPU %")
              ++ str_of " | " ++ rjust 9 (str_of "CPU %") ++ str_of " | "
              ++ str_of (if did_sample_memory then "Avg memory  |" else "")
              ++ str_of " "
              ++ str_of (if did_sample_memory then "Memory      |" else "")
              ++ str_of " ")) ;;
  print (Out (str_of "  Line" ++ tab ++ str_of " | " ++ rjust 9 (str_of "(Python)")
              ++ str_of " | " ++ rjust 9 (str_of "(native)") ++ str_of " | "
              ++ str_of (if did_sample_memory then "growth (MB) |" else "")
              ++ str_of (if did_sample_memory then " usage       |" else "")
              ++ str_of " [" ++ str_of fname ++ str_of "]")) ;;
  print (Out (repeat 45%N 80)) ;;
  match source_lines fname with
  | None => raise FileNotFoundError
  | Some lines =>
      report_lines did_sample_memory fname 1%Z lines ;;
      print (Out [])
  end.

(** [list(set(...))]: the distinct elements. *)
Fixpoint distinct (l : list string) : list string :=
  match l with
  | [] => []
  | x :: l' => if existsb (String.eqb x) l' then distinct l' else x :: distinct l'
  end.

(** Line 459. *)
Definition all_instrumented_files (s : Scalene) : list string :=
  distinct (dict_keys (cpu_samples_python s) ++ dict_keys (cpu_samples_c s)
            ++ dict_keys (memory_free_samples s)
            ++ dict_keys (memory_malloc_samples s)).

(** [output_profiles].  What it prints to [out] is the [Out] part of its
    log; which stream [out] is ([file_or_stdout]) is outside the model. *)
Definition output_profiles `{Runtime} : M bool :=
  total_cpu <- gets total_cpu_samples ;;
  total_malloc <- gets total_memory_malloc_samples ;;
  total_free <- gets total_memory_free_samples ;;
  if Qeq_bool total_cpu 0 && Qeq_bool total_malloc 0 && Qeq_bool total_free 0
  then ret false
  else
    let did_sample_memory := Qgtb (total_free + total_malloc) 0 in
    files <- gets all_instrumented_files ;;
    (if did_sample_memory then
       r <- gets memory_footprint_samples ;;
       if (0 <? length (reservoir_get r))%nat then
         mxf <- gets max_footprint ;;
         let '(arr, sp) := generate_sparkline (reservoir_get r) 0 mxf in
         modify (set_memory_footprint_samples
                   {| max_samples := max_samples r;
                      total_samples := total_samples r;
                      sample_array := arr |}) ;;
         '(_, mx, spark) <- lift sp ;;
         print (Out (str_of "Memory usage: " ++ spark ++ str_of " (max: "
                     ++ fmt_float 6 2 mx ++ str_of "MB)"))
       else ret tt
     else ret tt) ;;
    for_each (list_sort String.ltb files) (report_file did_sample_memory) ;;
    ret true.

(** The end of [main] (lines 628-631). *)
Definition main_report `{Runtime} : M unit :=
  reported <- output_profiles ;;
  if reported : bool then ret tt
  else print (Stdout (str_of "Scalene: Program did not run for long enough to profile.")).

(** ** The CPU sampler (scalene.py, lines 165-172 and 237-331) *)

Definition call_functions : list string :=
  ["CALL_FUNCTION"; "CALL_FUNCTION_KW"; "CALL_FUNCTION_EX"]%string.

Definition call_opcodes `{Runtime} : list Z := map opmap call_functions.

(** [is_call_function(code, bytei)]; its [lru_cache] memoises a function
    of immutable arguments. *)
Definition is_call_function `{Runtime} (c : code) (bytei : Z) : bool :=
  existsb (fun ins => (offset ins =? bytei)%Z
                      && existsb (Z.eqb (opcode ins)) call_opcodes)
          (co_instructions c).

(** Lines 281-292: the frames that are kept.  A frame whose file name is
    empty is judged by the file name of its caller. *)
Fixpoint retained_frames `{Runtime} (program_path : string)
         (frames : list (option frame)) : result (list frame) :=
  match frames with
  | [] => Ok []
  | None :: frames' => retained_frames program_path frames'
  | Some frame :: frames' =>
      let fname := co_filename (f_code frame) in
      let? fname :=
        (if (String.length fname =? 0)%nat then
           match f_back frame with
           | Some back => Ok (co_filename (f_code back))
           | None => Raise AttributeError
           end
         else Ok fname) in
      let? traced := should_trace program_path fname in
      let? rest := retained_frames program_path frames' in
      Ok (if negb traced then rest else frame :: rest)
  end.

(** [frame == this_frame] *)
Definition is_this_frame (this_frame : option frame) (frame : frame) : bool :=
  match this_frame with
  | Some t => (f_id t =? f_id frame)%nat
  | None => false
  end.

(** Lines 316-318: roll memory usage into the per-line reservoir. *)
Definition roll_footprint `{Runtime} (fname : string) (line_no : Z) (index : Z)
  : M unit :=
  m <- samples_getitem true fname line_no index ;;
  f <- samples_getitem false fname line_no index ;;
  let growth := m - f in
  r <- per_line_getitem fname line_no ;;
  total <- gets total_cpu_samples ;;
  per_line_update fname line_no (reservoir_add r (total, growth)).

(** Lines 297-318: the body of the loop over the retained frames. *)
Definition attribute_frame `{Runtime} (this_frame : option frame)
           (python_time c_time total_time : Q) (n : nat) (frame : frame) : M unit :=
  let fname := co_filename (f_code frame) in
  let len := inject_Z (Z.of_nat n) in
  (if is_this_frame this_frame frame then
     cpu_iadd false fname (f_lineno frame) (python_time / len) ;;
     cpu_iadd true fname (f_lineno frame) (c_time / len)
   else if is_call_function (f_code frame) (f_lasti frame) then
     cpu_iadd true fname (f_lineno frame) (total_time / len)
   else
     cpu_iadd false fname (f_lineno frame) (total_time / len)) ;;
  known <- bytei_getitem fname (f_lineno frame) ;;
  for_each known (roll_footprint fname (f_lineno frame)).

(** Lines 244-250: when a report is due, print it before sampling. *)
Definition flush_if_due `{Runtime} (now : Q) : M unit :=
  next <- gets next_output_time ;;
  if reached now next then
    modify (fun s =>
      set_next_output_time
        (xfloat_add (next_output_time s) (output_profile_interval s)) s) ;;
    stop ;;
    _ <- output_profiles ;;
    start
  else ret tt.

(** Lines 269-274: how the tick is split. *)
Definition c_time_of (elapsed python_time : Q) : Q :=
  let c_time := elapsed - python_time in
  if Qltb c_time 0 then 0 else c_time.

(** Lines 269-330: attribution, once the time has been read and a due
    report printed. *)
Definition attribute_tick `{Runtime} (now : Q) (this_frame : option frame)
           (thread_frames : list (option frame)) : M unit :=
  last <- gets last_signal_time ;;
  interval <- gets last_signal_interval ;;
  let elapsed := now - last in
  let python_time := interval in
  let c_time := c_time_of elapsed python_time in
  let frames := this_frame :: thread_frames in
  pp <- gets program_path ;;
  new_frames <- lift (retained_frames pp frames) ;;
  let total_time := python_time + c_time in
  for_each new_frames
    (attribute_frame this_frame python_time c_time total_time (length new_frames)) ;;
  modify (fun s => set_total_cpu_samples (total_cpu_samples s + total_time) s) ;;
  interval <- gets last_signal_interval ;;
  ratio <- lift (py_div elapsed interval) ;;
  let total_samples_to_record := py_round ratio in
  for_each (repeat tt (Z.to_nat total_samples_to_record))
    (fun _ =>
       footprint <- gets current_footprint ;;
       modify (fun s =>
         set_memory_footprint_samples
           (reservoir_add (memory_footprint_samples s) (now, footprint)) s)) ;;
  t <- gettime ;;
  modify (set_last_signal_time t).

Definition cpu_signal_handler `{Runtime} (this_frame : option frame)
           (thread_frames : list (option frame)) : M unit :=
  now <- gettime ;;
  flush_if_due now ;;
  attribute_tick now this_frame thread_frames.

(** ** Runs

    What happens to the profiler while the program runs: the allocator
    appends lines to a bridge file, a signal is delivered, or a report is
    asked for.  An exception that leaves a handler is raised in the
    program; the state keeps what the handler did before. *)

Inductive event : Type :=
| AllocatorWrites (is_malloc : bool) (lines : list string)
| MallocSignal (frame : option frame)
| FreeSignal (frame : option frame)
| CpuSignal (this_frame : option frame) (thread_frames : list (option frame))
| Report.

Definition allocator_writes (is_malloc : bool) (lines : list string) : M unit :=
  modify (fun s =>
    set_bridge_file is_malloc
      (Some (match bridge_file is_malloc s with
             | Some old => old ++ lines
             | None => lines
             end)) s).

Definition deliver `{Runtime} (e : event) : M unit :=
  match e with
  | AllocatorWrites is_malloc lines => allocator_writes is_malloc lines
  | MallocSignal frame => malloc_event_signal_handler frame
  | FreeSignal frame => free_event_signal_handler frame
  | CpuSignal this_frame thread_frames => cpu_signal_handler this_frame thread_frames
  | Report => _ <- output_profiles ;; ret tt
  end.

Fixpoint run `{Runtime} (events : list event) (s : Scalene) : Scalene :=
  match events with
  | [] => s
  | e :: events' => run events' (st (deliver e s))
  end.

(** ** A concrete runtime

    Used where a property is evaluated on concrete inputs: POSIX paths
    under the working directory [/home/u/proj], the opcode numbers of
    CPython 3.8, [float] restricted to unsigned decimal numerals (every
    other string is rejected here, although [float] accepts more), a
    clock that advances by 0.02 s per reading, reservoirs that drop every
    item once full, no readable source file, and empty number formats. *)

Definition digit_of (c : ascii) : option Z :=
  let n := nat_of_ascii c in
  if ((48 <=? n) && (n <=? 57))%nat then Some (Z.of_nat (n - 48)) else None.

Fixpoint decimal_digits (s : string) (acc : Z) : option Z :=
  match s with
  | EmptyString => Some acc
  | String c s' =>
      match digit_of c with
      | Some d => decimal_digits s' (10 * acc + d)%Z
      | None => None
      end
  end.

Definition decimal_float (s : string) : option Q :=
  match s with
  | EmptyString => None
  | _ => option_map inject_Z (decimal_digits s 0%Z)
  end.

Definition cpython38_opmap (name : string) : Z :=
  if String.eqb name "CALL_FUNCTION" then 131
  else if String.eqb name "CALL_FUNCTION_KW" then 141
  else if String.eqb name "CALL_FUNCTION_EX" then 142
  else if String.eqb name "LOAD_FAST" then 124
  else 0.

Definition sample_runtime : Runtime :=
  {| abspath := posix_abspath "/home/u/proj";
     opmap := cpython38_opmap;
     pyfloat := decimal_float;
     process_time := fun n => inject_Z (Z.of_nat n) * (2 # 100);
     draw := fun _ _ => None;
     source_lines := fun _ => None;
     fmt_float := fun _ _ _ => [];
     fmt_int := fun _ _ => [] |}.

(** ** What the tables hold

    The value a table gives for a site, whether or not the site has an
    entry: a [defaultdict] reads a missing entry as the default. *)

Definition cpu_view (native : bool) (s : Scalene) (f : string) (l : Z) : Q :=
  lookup2 0 (if native then cpu_samples_c s else cpu_samples_python s) f l.

Definition samples_view (is_malloc : bool) (s : Scalene) (f : string) (l b : Z) : Q :=
  lookup3 0 (samples_table is_malloc s) f l b.

Definition count_view (is_malloc : bool) (s : Scalene) (f : string) (l b : Z) : Z :=
  lookup3 0%Z (count_table is_malloc s) f l b.

Definition known_offsets (s : Scalene) (f : string) (l : Z) : list Z :=
  lookup2 [] (bytei_map s) f l.

(** Every counter has the same value in [s] and [s']: the per-site sums
    and counts, the CPU tables, the totals and the footprint. *)
Definition same_counters (s s' : Scalene) : Prop :=
  (forall native f l, cpu_view native s f l = cpu_view native s' f l)
  /\ (forall is_malloc f l b,
         samples_view is_malloc s f l b = samples_view is_malloc s' f l b)
  /\ (forall is_malloc f l b,
         count_view is_malloc s f l b = count_view is_malloc s' f l b)
  /\ total_cpu_samples s = total_cpu_samples s'
  /\ total_memory_malloc_samples s = total_memory_malloc_samples s'
  /\ total_memory_free_samples s = total_memory_free_samples s'
  /\ current_footprint s = current_footprint s'
  /\ max_footprint s = max_footprint s'.

(** A computation moves the state along the relation [R]. *)
Definition steps (R : Scalene -> Scalene -> Prop) {A} (m : M A) : Prop :=
  forall s, R s (st (m s)).

(** ** Bridge files and the footprint *)

(** The megabytes a line of a bridge file stands for (lines 344-345), or
    [None] when [float] rejects the line. *)
Definition megabytes `{Runtime} (line : string) : option Q :=
  option_map (fun x => x / (1024 * 1024)) (pyfloat (rstrip line)).

(** The samples on the lines before the first rejected line. *)
Fixpoint samples_read `{Runtime} (lines : list string) : list Q :=
  match lines with
  | [] => []
  | line :: lines' =>
      match megabytes line with
      | Some c => c :: samples_read lines'
      | None => []
      end
  end.

Definition total_of (is_malloc : bool) (s : Scalene) : Q :=
  if is_malloc then total_memory_malloc_samples s else total_memory_free_samples s.

(** What draining a bridge file leaves alone. *)
Definition drain_frame (s s' : Scalene) : Prop :=
  memory_malloc_count s = memory_malloc_count s'
  /\ memory_free_count s = memory_free_count s'
  /\ cpu_samples_python s = cpu_samples_python s'
  /\ cpu_samples_c s = cpu_samples_c s'
  /\ total_cpu_samples s = total_cpu_samples s'
  /\ malloc_signal_file s = malloc_signal_file s'
  /\ free_signal_file s = free_signal_file s'
  /\ bytei_map s = bytei_map s'.

(** The memory totals, the footprint with its history, and the bridge
    files are the same in [s] and [s']. *)
Definition same_footprint (s s' : Scalene) : Prop :=
  total_memory_malloc_samples s = total_memory_malloc_samples s'
  /\ total_memory_free_samples s = total_memory_free_samples s'
  /\ current_footprint s = current_footprint s'
  /\ max_footprint s = max_footprint s'
  /\ footprint_history s = footprint_history s'
  /\ malloc_signal_file s = malloc_signal_file s'
  /\ free_signal_file s = free_signal_file s'.




(** A bridge file whose second line is not a number. *)
Definition newline : string := String (ascii_of_nat 10) EmptyString.

Definition malformed_bridge : list string :=
  ["1048576" ++ newline; "abc" ++ newline; "2097152" ++ newline]%string.



(** A property that holds after a step whenever it held before. *)
Definition keeps (I : Scalene -> Prop) (s s' : Scalene) : Prop := I s -> I s'.

(** Frames of a program in [/home/u/proj]: the main thread at line 3 of
    [x.py], a worker thread at a [CALL_FUNCTION] on line 7, and a frame
    inside the standard library. *)
Definition user_code : code :=
  {| co_filename := "/home/u/proj/x.py";
     co_instructions := [ {| offset := 10; opcode := 131 |};
                          {| offset := 12; opcode := 124 |} ] |}.

Definition library_code : code :=
  {| co_filename := "/usr/lib/python3.8/json/decoder.py";
     co_instructions := [ {| offset := 0; opcode := 124 |} ] |}.

Definition main_frame : frame := Frame 1 user_code 3 12 None.
Definition worker_frame : frame := Frame 2 user_code 7 10 None.
Definition library_frame : frame := Frame 3 library_code 40 0 None.

(** ** What a tick credits *)

(** The handler up to line 268: the time is read and a due report is
    printed; the attribution of lines 269-330 starts from the state this
    leaves. *)
Definition tick_start `{Runtime} : M Q :=
  now <- gettime ;;
  flush_if_due now ;;
  ret now.




(** What no handler assigns. *)
Definition same_config (s s' : Scalene) : Prop :=
  program_path s = program_path s'
  /\ last_signal_interval s = last_signal_interval s'
  /\ output_profile_interval s = output_profile_interval s'.

(** A computation that prints nothing and does not raise. *)
Definition quiet {A} (m : M A) : Prop :=
  forall s, log (m s) = [] /\ exists a, res (m s) = Ok a.

(** ** Known offsets *)

(** The bytecode offsets that are keys of a samples table at a line. *)
Definition sampled_offsets (is_malloc : bool) (s : Scalene) (f : string) (l : Z)
  : list Z :=
  dict_keys (lookup2 [] (samples_table is_malloc s) f l).

(** Every offset under the malloc or free samples of a line is in the
    known-offset set ([bytei_map]) of that line. *)
Definition offsets_known (s : Scalene) : Prop :=
  forall is_malloc f l b,
    In b (sampled_offsets is_malloc s f l) -> In b (known_offsets s f l).

(** A step that forgets no known offset and puts under the samples only
    offsets that are known afterwards. *)
Definition offsets_step (s s' : Scalene) : Prop :=
  (forall f l b, In b (known_offsets s f l) -> In b (known_offsets s' f l))
  /\ (forall is_malloc f l b,
         In b (sampled_offsets is_malloc s' f l) ->
         In b (sampled_offsets is_malloc s f l) \/ In b (known_offsets s' f l)).

(** A step that changes neither. *)
Definition same_offsets (s s' : Scalene) : Prop :=
  (forall is_malloc f l,
      sampled_offsets is_malloc s f l = sampled_offsets is_malloc s' f l)
  /\ (forall f l, known_offsets s f l = known_offsets s' f l).

(** A computation moves the state along [R] when started where [P]
    holds. *)
Definition steps_from (P : Scalene -> Prop) (R : Scalene -> Scalene -> Prop)
           {A} (m : M A) : Prop :=
  forall s, P s -> R s (st (m s)).

(** ** What a report reads *)

(** [sum(Scalene.cpu_samples_*[f].values())] *)
Definition file_sum (native : bool) (s : Scalene) (f : string) : Q :=
  py_sum (dict_values
            (lookup [] (if native then cpu_samples_c s else cpu_samples_python s) f)).

(** The samples of a per-line reservoir, and of the footprint reservoir,
    in sorted order. *)
Definition line_sorted (s : Scalene) (f : string) (l : Z) : list (Q * Q) :=
  list_sort item_lt
    (sample_array (lookup2 (new_reservoir 10) (per_line_footprint_samples s) f l)).

Definition footprint_sorted (s : Scalene) : list (Q * Q) :=
  list_sort item_lt (sample_array (memory_footprint_samples s)).

(** [s] and [s'] give a report the same values to read. *)
Definition same_report (s s' : Scalene) : Prop :=
  same_counters s s'
  /\ (forall native f, file_sum native s f = file_sum native s' f)
  /\ (forall f l, known_offsets s f l = known_offsets s' f l)
  /\ (forall f l, line_sorted s f l = line_sorted s' f l)
  /\ footprint_sorted s = footprint_sorted s'
  /\ elapsed_time s = elapsed_time s'.

(** A computation prints and returns the same from states that give the
    same values to read, and leaves such states. *)
Definition agrees {A} (m : M A) : Prop :=
  forall s1 s2, same_report s1 s2 ->
    log (m s1) = log (m s2) /\ res (m s1) = res (m s2)
    /\ same_report (st (m s1)) (st (m s2)).

(** [x] is a key of one of the four tables of line 459. *)
Definition file_known (s : Scalene) (x : string) : Prop :=
  In x (all_instrumented_files s).

(** A step that keeps the instrumented files and adds only files of [F]. *)
Definition files_step (F : list string) (s s' : Scalene) : Prop :=
  (forall x, file_known s x -> file_known s' x)
  /\ (forall x, file_known s' x -> file_known s x \/ In x F).

(** What [output_profiles] prints once it has decided to report
    (lines 461-551), for the memory flag [did_sample_memory] and the file
    names [files] in the order [sorted] gives them. *)
Definition report_of `{Runtime} (did_sample_memory : bool) (files : list string)
  : M bool :=
  (if did_sample_memory then
     r <- gets memory_footprint_samples ;;
     if (0 <? length (reservoir_get r))%nat then
       mxf <- gets max_footprint ;;
       let '(arr, sp) := generate_sparkline (reservoir_get r) 0 mxf in
       modify (set_memory_footprint_samples
                 {| max_samples := max_samples r;
                    total_samples := total_samples r;
                    sample_array := arr |}) ;;
       '(_, mx, spark) <- lift sp ;;
       print (Out (str_of "Memory usage: " ++ spark ++ str_of " (max: "
                   ++ fmt_float 6 2 mx ++ str_of "MB)"))
     else ret tt
   else ret tt) ;;
  for_each files (report_file did_sample_memory) ;;
  ret true.

(** Lines 451-455: nothing was sampled. *)
Definition nothing_sampled (s : Scalene) : bool :=
  Qeq_bool (total_cpu_samples s) 0 && Qeq_bool (total_memory_malloc_samples s) 0
  && Qeq_bool (total_memory_free_samples s) 0.

(** Line 457. *)
Definition did_sample_memory (s : Scalene) : bool :=
  Qgtb (total_memory_free_samples s + total_memory_malloc_samples s) 0.

(** The services of [sample_runtime] with one readable source file of
    four lines. *)
Definition listing_runtime : Runtime :=
  {| abspath := posix_abspath "/home/u/proj";
     opmap := cpython38_opmap;
     pyfloat := decimal_float;
     process_time := fun n => inject_Z (Z.of_nat n) * (2 # 100);
     draw := fun _ _ => None;
     source_lines := fun f =>
       if String.eqb f "/home/u/proj/x.py"
       then Some ["import m" ++ newline; newline; "x = m.f()" ++ newline;
                  "print(x)" ++ newline]%string
       else None;
     fmt_float := fun _ _ _ => [];
     fmt_int := fun _ _ => [] |}.

(** ** Names the file filter rejects *)

(** The markers of lines 403-406: a name that starts with [<], or that
    contains [site-packages], [/usr/lib/python] or [scalene.py]. *)
Definition internal_name (filename : string) : bool :=
  (String.prefix "<" filename || contains "site-packages" filename
   || contains "/usr/lib/python" filename || contains "scalene.py" filename)%string.

(** ** Pending samples *)

(** The samples waiting in a bridge file: those on its lines up to the
    first line that [float] rejects; none when the file is absent. *)
Definition pending `{Runtime} (is_malloc : bool) (s : Scalene) : list Q :=
  match bridge_file is_malloc s with
  | Some lines => samples_read lines
  | None => []
  end.

(** The bridge file is absent or holds numbers only. *)
Definition well_formed `{Runtime} (is_malloc : bool) (s : Scalene) : Prop :=
  match bridge_file is_malloc s with
  | Some lines => Forall (fun line => megabytes line <> None) lines
  | None => True
  end.

(** The known offsets of every line are the same in [s] and [s']. *)
Definition same_known (s s' : Scalene) : Prop :=
  forall f l, known_offsets s f l = known_offsets s' f l.


(** ** CPU time on the books *)

(** [sum(table[f].values())] added up over the files [f] of a CPU table. *)
Definition table_sum (d : dict string (dict Z Q)) : Q :=
  py_sum (map (fun kv => py_sum (dict_values (snd kv))) d).

(** The CPU time attributed to lines, the two tables together. *)
Definition cpu_attributed (s : Scalene) : Q :=
  table_sum (cpu_samples_c s) + table_sum (cpu_samples_python s).

(** No entry of the table is negative. *)
Definition table_nonneg (d : dict string (dict Z Q)) : Prop :=
  Forall (fun kv => Forall (fun lv => 0 <= snd lv) (snd kv)) d.

(** No CPU counter is negative, the lines have not been given more time
    than was counted in total, and the sampling interval is not
    negative. *)
Definition cpu_books (s : Scalene) : Prop :=
  table_nonneg (cpu_samples_c s) /\ table_nonneg (cpu_samples_python s)
  /\ cpu_attributed s <= total_cpu_samples s
  /\ 0 <= total_cpu_samples s
  /\ 0 <= last_signal_interval s.

(** A step that leaves the sums of the CPU tables, the total and the
    interval as they are and makes no entry negative. *)
Definition same_books (s s' : Scalene) : Prop :=
  table_sum (cpu_samples_c s) == table_sum (cpu_samples_c s')
  /\ table_sum (cpu_samples_python s) == table_sum (cpu_samples_python s')
  /\ (table_nonneg (cpu_samples_c s) -> table_nonneg (cpu_samples_c s'))
  /\ (table_nonneg (cpu_samples_python s) -> table_nonneg (cpu_samples_python s'))
  /\ total_cpu_samples s = total_cpu_samples s'
  /\ last_signal_interval s = last_signal_interval s'
  /\ program_path s = program_path s'.

(** A step that gives [x] more CPU time to lines and is otherwise as
    [same_books]. *)
Definition books_add (x : Q) (s s' : Scalene) : Prop :=
  cpu_attributed s' == cpu_attributed s + x
  /\ (table_nonneg (cpu_samples_c s) /\ table_nonneg (cpu_samples_python s) ->
      table_nonneg (cpu_samples_c s') /\ table_nonneg (cpu_samples_python s'))
  /\ total_cpu_samples s = total_cpu_samples s'
  /\ last_signal_interval s = last_signal_interval s'
  /\ program_path s = program_path s'.

(** The clock and the times kept by the profiler are the same in [s] and
    [s']. *)
Definition same_times (s s' : Scalene) : Prop :=
  clock_reads s = clock_reads s'
  /\ elapsed_time s = elapsed_time s'
  /\ last_signal_time s = last_signal_time s'
  /\ next_output_time s = next_output_time s'
  /\ output_profile_interval s = output_profile_interval s'.

(** ** The peak and the report *)

(** The peak footprint has not gone down from [s] to [s']. *)
Definition peak_le (s s' : Scalene) : Prop := max_footprint s <= max_footprint s'.




(** ** Thread join (scalene.py, lines 175-187)

    [thread_join_replacement(self, timeout)].  The thread is given by
    [alive_checks], the number of times [self.is_alive()] answers true
    before the thread has ended; a thread that never ends, for which the
    loop does not end either unless the timeout does it, is not
    represented.  [original_thread_join(self, interval)] changes nothing
    the profiler keeps. *)

(** [if timeout:] on [None] or a number. *)
Definition truthy (timeout : option Q) : bool :=
  match timeout with
  | None => false
  | Some t => negb (Qeq_bool t 0)
  end.

(** The [while] loop of lines 180-186. *)
Fixpoint join_loop `{Runtime} (alive_checks : nat) (timeout : option Q)
         (start_time : Q) : M unit :=
  match alive_checks with
  | O => ret tt
  | S alive_checks' =>
      match timeout with
      | Some t =>
          if truthy timeout then
            end_time <- gettime ;;
            if Qle_bool t (end_time - start_time) then ret tt
            else join_loop alive_checks' timeout start_time
          else join_loop alive_checks' timeout start_time
      | None => join_loop alive_checks' timeout start_time
      end
  end.

Definition thread_join_replacement `{Runtime} (alive_checks : nat)
           (timeout : option Q) : M unit :=
  start_time <- gettime ;;
  join_loop alive_checks timeout start_time.

(** ** The frames of a tick *)

(** The frames that are there ([None] stands for a thread without a
    current frame). *)
Definition present_frames (frames : list (option frame)) : list frame :=
  flat_map (fun o => match o with Some fr => [fr] | None => [] end) frames.

(** The file filter says yes to the file of the frame. *)
Definition traced_frame `{Runtime} (program_path : string) (fr : frame) : bool :=
  match should_trace program_path (co_filename (f_code fr)) with
  | Ok b => b
  | Raise _ => false
  end.

(** ** Memory on the books *)

(** All samples of a memory table added up: over the files, the lines
    and the offsets. *)
Definition table3_sum (d : dict string (dict Z (dict Z Q))) : Q :=
  py_sum (map (fun kv =>
                 py_sum (map (fun lv => py_sum (dict_values (snd lv))) (snd kv)))
              d).


(** A step that leaves the sums of the memory tables and the two totals
    as they are. *)
Definition same_memory (s s' : Scalene) : Prop :=
  table3_sum (memory_malloc_samples s) == table3_sum (memory_malloc_samples s')
  /\ table3_sum (memory_free_samples s) == table3_sum (memory_free_samples s')
  /\ total_memory_malloc_samples s = total_memory_malloc_samples s'
  /\ total_memory_free_samples s = total_memory_free_samples s'.

(** * Properties *)

(** ** Numbers and indexing *)

Lemma Qltb_true (x y : Q) : Qltb x y = true <-> x < y.
Proof.
  unfold Qltb. rewrite negb_true_iff. split; intro H.
  - apply Qnot_le_lt. intro Hle. apply Qle_bool_iff in Hle. congruence.
  - destruct (Qle_bool y x) eqn:E; [|reflexivity].
    apply Qle_bool_iff in E. exfalso. exact (Qlt_not_le _ _ H E).
Qed.

Lemma Qltb_false (x y : Q) : Qltb x y = false <-> y <= x.
Proof.
  unfold Qltb. rewrite negb_false_iff. apply Qle_bool_iff.
Qed.



(** On a non-negative number [int] is the floor. *)
Lemma py_int_floor (q : Q) : 0 <= q -> py_int q = Qfloor q /\ (0 <= py_int q)%Z.
Proof.
  destruct q as [n d]. unfold Qle, py_int, Qfloor. simpl. intro H.
  assert (Hn : (0 <= n)%Z) by lia.
  split.
  - apply Z.quot_div_nonneg; lia.
  - apply Z.quot_pos; lia.
Qed.


Lemma getitem_nonneg {A} (s : list A) (i : Z) (d : A) :
  (0 <= i < Z.of_nat (length s))%Z ->
  getitem s i = Ok (nth (Z.to_nat i) s d).
Proof.
  intros [H0 H1]. unfold getitem.
  destruct (Z.ltb_spec i 0); [lia|].
  destruct (Z.leb_spec 0 i); [|lia].
  destruct (Z.ltb_spec i (Z.of_nat (length s))); [|lia]. simpl.
  destruct (nth_error s (Z.to_nat i)) eqn:E.
  - f_equal. symmetry. apply nth_error_nth. exact E.
  - apply nth_error_None in E. lia.
Qed.

Lemma rmap_ok {A B} (f : A -> result B) (l : list A) (ys : list B) :
  rmap f l = Ok ys -> Forall2 (fun x y => f x = Ok y) l ys.
Proof.
  revert ys. induction l as [|x l IH]; simpl; intros ys H.
  - injection H as <-. constructor.
  - destruct (f x) eqn:Ex; simpl in H; [|discriminate].
    destruct (rmap f l) eqn:El; simpl in H; [|discriminate].
    injection H as <-. constructor; auto.
Qed.


Lemma sparkline_extent_cases (mn mx : Q) :
  (mx - mn == 0 /\ sparkline_extent mn mx = 1)
  \/ (~ mx - mn == 0 /\ sparkline_extent mn mx = mx - mn).
Proof.
  unfold sparkline_extent. destruct (Qeq_bool (mx - mn) 0) eqn:E.
  - left. split; [apply Qeq_bool_iff; exact E | reflexivity].
  - right. split; [|reflexivity]. intro H. apply Qeq_bool_iff in H. congruence.
Qed.

Lemma sparkline_extent_pos (mn mx : Q) : mn <= mx -> 0 < sparkline_extent mn mx.
Proof.
  intro H. destruct (sparkline_extent_cases mn mx) as [[_ ->]|[Hne ->]].
  - reflexivity.
  - apply Qlt_minus_iff in H || idtac.
    destruct (Qlt_le_dec 0 (mx - mn)) as [Hlt|Hle]; [exact Hlt|].
    exfalso. apply Hne. lra.
Qed.

Lemma sparkline_index_in_range (mn extent n : Q) :
  mn <= n -> 0 < extent ->
  sparkline_index mn extent n = clamp 0 7 (Qfloor ((n - mn) / extent * 8))
  /\ (0 <= sparkline_index mn extent n < 8)%Z.
Proof.
  intros Hn He.
  assert (H0 : 0 <= (n - mn) / extent * 8).
  { apply Qmult_le_0_compat; [|discriminate].
    apply Qle_shift_div_l; [exact He|]. lra. }
  destruct (py_int_floor H0) as [Hf Hp].
  unfold sparkline_index, clamp.
  change (inject_Z barcount) with 8. change (barcount - 1)%Z with 7%Z.
  rewrite Hf in *. split; lia.
Qed.

Lemma sparkline_bar_ok (mn extent n : Q) :
  mn <= n -> 0 < extent ->
  getitem bar (sparkline_index mn extent n)
  = Ok (nth (Z.to_nat (clamp 0 7 (Qfloor ((n - mn) / extent * 8)))) bar 0%N).
Proof.
  intros Hn He.
  destruct (sparkline_index_in_range Hn He) as [Heq Hr].
  rewrite <- Heq. apply getitem_nonneg. exact Hr.
Qed.

Lemma sparkline_unfold (numbers : list Q) (fixed_min fixed_max mn mx : Q) (s : pystr) :
  sparkline numbers fixed_min fixed_max = Ok (mn, mx, s) ->
  (if Qeq_bool fixed_min (-1) then py_min numbers else Ok fixed_min) = Ok mn
  /\ (if Qeq_bool fixed_max (-1) then py_max numbers else Ok fixed_max) = Ok mx
  /\ rmap (fun n => getitem bar (sparkline_index mn (sparkline_extent mn mx) n))
          numbers = Ok s.
Proof.
  unfold sparkline. intro H.
  destruct (if Qeq_bool fixed_min (-1) then py_min numbers else Ok fixed_min)
    as [mn'|] eqn:E1; simpl in H; [|discriminate].
  destruct (if Qeq_bool fixed_max (-1) then py_max numbers else Ok fixed_max)
    as [mx'|] eqn:E2; simpl in H; [|discriminate].
  destruct (rmap _ numbers) as [s'|] eqn:E3; simpl in H; [|discriminate].
  injection H as -> -> ->. auto.
Qed.




(** ** The file filter *)

Local Open Scope string_scope.

Lemma should_trace_nonempty `{Runtime} (pp : string) (c : ascii) (p : string) :
  exists b, should_trace pp (String c p) = Ok b.
Proof.
  unfold should_trace, rbind.
  repeat match goal with
         | |- context [if ?b then Ok false else _] => destruct b
         end; eexists; reflexivity.
Qed.

(** C10.  [should_trace] raises [IndexError] on the empty string and
    returns a boolean on every other string.  The allocation handler gives
    it the file name of the signalled frame as it is, so a frame with an
    empty file name makes the handler raise [IndexError], before it has
    changed anything; the CPU handler replaces an empty file name by the
    file name of the calling frame before it asks. *)
Theorem should_trace_empty_filename `{Runtime} :
  (forall pp, should_trace pp "" = Raise IndexError)
  /\ (forall pp p, p <> "" -> exists b, should_trace pp p = Ok b)
  /\ (forall s fr,
         co_filename (f_code fr) = "" ->
         res (allocation_handler fr s) = Raise IndexError
         /\ st (allocation_handler fr s) = s
         /\ res (malloc_event_signal_handler (Some fr) s) = Raise IndexError
         /\ res (free_event_signal_handler (Some fr) s) = Raise IndexError)
  /\ (forall pp fr back rest,
         co_filename (f_code fr) = "" ->
         f_back fr = Some back ->
         retained_frames pp (Some fr :: rest)
         = (let? traced := should_trace pp (co_filename (f_code back)) in
            let? kept := retained_frames pp rest in
            Ok (if negb traced then kept else fr :: kept))).
Proof.
  split; [reflexivity|]. split.
  { intros pp [|c p] Hp; [congruence|]. apply should_trace_nonempty. }
  split.
  - intros s fr Hf. unfold malloc_event_signal_handler, free_event_signal_handler.
    unfold allocation_handler. rewrite Hf. cbn. auto.
  - intros pp fr back rest Hf Hb. simpl. rewrite Hf, Hb. reflexivity.
Qed.

Lemma should_trace_empty_filename_witness :
  exists b, @should_trace sample_runtime "/home/u/proj" "/home/u/proj/x.py" = Ok b.
Proof.
  apply (proj1 (proj2 (@should_trace_empty_filename sample_runtime))).
  discriminate.
Defined.

(** C3 at a failing input.  The program lives in [/home/u/proj]; the file
    [/home/u/proj2/x.py] is in no directory below it, and is traced,
    because [program_path in filename] is a substring test.  For the same
    reason [/home/u/proj/my_scalene.py], which is below it and is not the
    profiler, is not traced. *)
Lemma should_trace_sibling_directory :
  @should_trace sample_runtime "/home/u/proj" "/home/u/proj2/x.py" = Ok true
  /\ descendant "/home/u/proj" (posix_abspath "/home/u/proj" "/home/u/proj2/x.py")
     = false
  /\ @should_trace sample_runtime "/home/u/proj" "/home/u/proj/my_scalene.py"
     = Ok false
  /\ descendant "/home/u/proj"
                (posix_abspath "/home/u/proj" "/home/u/proj/my_scalene.py") = true.
Proof. repeat split. Qed.

Local Close Scope string_scope.

(** ** Dictionaries *)

Section DictFacts.
Context {K V : Type} `{Key K}.

Lemma keqb_refl (k : K) : keqb k k = true.
Proof. apply keqb_eq. reflexivity. Qed.

Lemma keqb_neq (k k' : K) : k <> k' -> keqb k k' = false.
Proof.
  intro Hn. destruct (keqb k k') eqn:E; [|reflexivity].
  apply keqb_eq in E. contradiction.
Qed.

Lemma keqb_true (k k' : K) : keqb k k' = true -> k = k'.
Proof. apply keqb_eq. Qed.

Lemma dict_find_set (d : dict K V) (k k' : K) (v : V) :
  dict_find (dict_set d k v) k' = if keqb k k' then Some v else dict_find d k'.
Proof.
  induction d as [|[k0 v0] d IH]; simpl.
  - reflexivity.
  - destruct (keqb k0 k) eqn:E0; simpl.
    + apply keqb_true in E0. subst k0.
      destruct (keqb k k'); reflexivity.
    + destruct (keqb k0 k') eqn:E1.
      * apply keqb_true in E1. subst k'.
        destruct (keqb k k0) eqn:E2; [|reflexivity].
        apply keqb_true in E2. subst k0. rewrite keqb_refl in E0. discriminate.
      * exact IH.
Qed.

Lemma lookup_set (dflt : V) (d : dict K V) (k k' : K) (v : V) :
  lookup dflt (dict_set d k v) k' = if keqb k k' then v else lookup dflt d k'.
Proof.
  unfold lookup. rewrite dict_find_set. destruct (keqb k k'); reflexivity.
Qed.

Lemma dd_getitem_fst (dflt : V) (d : dict K V) (k : K) :
  fst (dd_getitem dflt d k) = lookup dflt d k.
Proof.
  unfold dd_getitem, lookup. destruct (dict_find d k); reflexivity.
Qed.

Lemma dd_getitem_lookup (dflt : V) (d : dict K V) (k k' : K) :
  lookup dflt (snd (dd_getitem dflt d k)) k' = lookup dflt d k'.
Proof.
  unfold dd_getitem. destruct (dict_find d k) eqn:E; simpl; [reflexivity|].
  rewrite lookup_set. destruct (keqb k k') eqn:Ek; [|reflexivity].
  apply keqb_true in Ek. subst k'. unfold lookup. rewrite E. reflexivity.
Qed.

Lemma dd_getitem_find (dflt : V) (d : dict K V) (k : K) :
  dict_find (snd (dd_getitem dflt d k)) k = Some (lookup dflt d k).
Proof.
  unfold dd_getitem, lookup. destruct (dict_find d k) eqn:E; simpl.
  - exact E.
  - rewrite dict_find_set, keqb_refl. reflexivity.
Qed.

Lemma dict_set_keys (d : dict K V) (k : K) (v : V) :
  dict_keys (dict_set d k v)
  = match dict_find d k with
    | Some _ => dict_keys d
    | None => dict_keys d ++ [k]
    end.
Proof.
  induction d as [|[k0 v0] d IH]; simpl; [reflexivity|].
  destruct (keqb k0 k); simpl; [reflexivity|].
  unfold dict_keys in *. rewrite IH. destruct (dict_find d k); reflexivity.
Qed.

Lemma dict_find_keys (d : dict K V) (k : K) :
  In k (dict_keys d) <-> dict_find d k <> None.
Proof.
  induction d as [|[k0 v0] d IH]; simpl.
  - split; [tauto | congruence].
  - destruct (keqb k0 k) eqn:E.
    + apply keqb_true in E. split; [congruence | auto].
    + rewrite <- IH. split; [|tauto]. intros [->|Hin]; [|exact Hin].
      rewrite keqb_refl in E. discriminate.
Qed.

End DictFacts.

Lemma dd_getitem2_fst {V} (dflt : V) d f l :
  fst (dd_getitem2 dflt d f l) = lookup2 dflt d f l.
Proof.
  unfold dd_getitem2, lookup2.
  pose proof (dd_getitem_fst (@nil (Z * V)) d f) as H1.
  destruct (dd_getitem [] d f) as [inner d1]. simpl in H1. subst inner.
  pose proof (dd_getitem_fst dflt (lookup [] d f) l) as H2.
  destruct (dd_getitem dflt (lookup [] d f) l) as [v inner']. exact H2.
Qed.

Lemma lookup2_getitem2 {V} (dflt : V) d f l f' l' :
  lookup2 dflt (snd (dd_getitem2 dflt d f l)) f' l' = lookup2 dflt d f' l'.
Proof.
  unfold dd_getitem2, lookup2.
  pose proof (dd_getitem_fst (@nil (Z * V)) d f) as H1.
  pose proof (dd_getitem_lookup (@nil (Z * V)) d f f') as H1'.
  destruct (dd_getitem [] d f) as [inner d1]. simpl in H1, H1'. subst inner.
  pose proof (dd_getitem_lookup dflt (lookup [] d f) l l') as H2.
  destruct (dd_getitem dflt (lookup [] d f) l) as [v inner']. simpl in *.
  rewrite lookup_set. destruct (keqb f f') eqn:E.
  - apply keqb_true in E. subst f'. exact H2.
  - rewrite H1'. reflexivity.
Qed.

Lemma lookup2_setitem2 {V} (dflt : V) (d : dict string (dict Z V)) f l v f' l' :
  lookup2 dflt (dd_setitem2 d f l v) f' l'
  = if keqb f f' && keqb l l' then v else lookup2 dflt d f' l'.
Proof.
  unfold dd_setitem2, lookup2.
  pose proof (dd_getitem_fst (@nil (Z * V)) d f) as H1.
  pose proof (dd_getitem_lookup (@nil (Z * V)) d f f') as H1'.
  destruct (dd_getitem [] d f) as [inner d1]. simpl in H1, H1'. subst inner.
  rewrite lookup_set. destruct (keqb f f') eqn:E; simpl.
  - apply keqb_true in E. subst f'. rewrite lookup_set. reflexivity.
  - rewrite H1'. reflexivity.
Qed.

Lemma dd_getitem3_fst {V} (dflt : V) d f l b :
  fst (dd_getitem3 dflt d f l b) = lookup3 dflt d f l b.
Proof.
  unfold dd_getitem3, lookup3.
  pose proof (dd_getitem2_fst (@nil (Z * V)) d f l) as H1.
  destruct (dd_getitem2 [] d f l) as [inner d1]. simpl in H1. subst inner.
  pose proof (dd_getitem_fst dflt (lookup2 [] d f l) b) as H2.
  destruct (dd_getitem dflt (lookup2 [] d f l) b) as [v inner']. exact H2.
Qed.

Lemma lookup3_getitem3 {V} (dflt : V) d f l b f' l' b' :
  lookup3 dflt (snd (dd_getitem3 dflt d f l b)) f' l' b' = lookup3 dflt d f' l' b'.
Proof.
  unfold dd_getitem3, lookup3.
  pose proof (dd_getitem2_fst (@nil (Z * V)) d f l) as H1.
  pose proof (lookup2_getitem2 (@nil (Z * V)) d f l f' l') as H1'.
  destruct (dd_getitem2 [] d f l) as [inner d1]. simpl in H1, H1'. subst inner.
  pose proof (dd_getitem_lookup dflt (lookup2 [] d f l) b b') as H2.
  destruct (dd_getitem dflt (lookup2 [] d f l) b) as [v inner']. simpl in *.
  rewrite lookup2_setitem2. destruct (keqb f f' && keqb l l') eqn:E.
  - apply andb_true_iff in E. destruct E as [E1 E2].
    apply keqb_true in E1, E2. subst f' l'. exact H2.
  - rewrite H1'. reflexivity.
Qed.

Lemma lookup3_setitem3 {V} (dflt : V) (d : dict string (dict Z (dict Z V)))
      f l b v f' l' b' :
  lookup3 dflt (dd_setitem3 d f l b v) f' l' b'
  = if keqb f f' && keqb l l' && keqb b b' then v else lookup3 dflt d f' l' b'.
Proof.
  unfold dd_setitem3, lookup3.
  pose proof (dd_getitem2_fst (@nil (Z * V)) d f l) as H1.
  pose proof (lookup2_getitem2 (@nil (Z * V)) d f l f' l') as H1'.
  destruct (dd_getitem2 [] d f l) as [inner d1]. simpl in H1, H1'. subst inner.
  rewrite lookup2_setitem2. destruct (keqb f f' && keqb l l') eqn:E; simpl.
  - apply andb_true_iff in E. destruct E as [E1 E2].
    apply keqb_true in E1, E2. subst f' l'. rewrite lookup_set. reflexivity.
  - rewrite H1'. reflexivity.
Qed.

(** ** Computations *)

From Stdlib Require Import RelationClasses.

Lemma bind_st {A B} (m : M A) (k : A -> M B) (s : Scalene) :
  st (bind m k s)
  = match res (m s) with
    | Ok a => st (k a (st (m s)))
    | Raise _ => st (m s)
    end.
Proof. unfold bind. destruct (res (m s)); reflexivity. Qed.

Lemma bind_res {A B} (m : M A) (k : A -> M B) (s : Scalene) :
  res (bind m k s)
  = match res (m s) with
    | Ok a => res (k a (st (m s)))
    | Raise e => Raise e
    end.
Proof. unfold bind. destruct (res (m s)); reflexivity. Qed.


Section StepsFacts.
Context (R : Scalene -> Scalene -> Prop) `{!PreOrder R}.

Lemma steps_ret {A} (a : A) : steps R (ret a).
Proof. intro s. reflexivity. Qed.

Lemma steps_raise {A} (e : exn) : steps R (@raise A e).
Proof. intro s. reflexivity. Qed.

Lemma steps_gets {A} (f : Scalene -> A) : steps R (gets f).
Proof. intro s. reflexivity. Qed.

Lemma steps_print (p : printed) : steps R (print p).
Proof. intro s. reflexivity. Qed.

Lemma steps_lift {A} (r : result A) : steps R (lift r).
Proof. intro s. destruct r; reflexivity. Qed.

Lemma steps_bind {A B} (m : M A) (k : A -> M B) :
  steps R m -> (forall a, steps R (k a)) -> steps R (bind m k).
Proof.
  intros Hm Hk s. rewrite bind_st.
  destruct (res (m s)); [|apply Hm].
  etransitivity; [apply Hm | apply Hk].
Qed.

Lemma steps_for_each {X} (l : list X) (body : X -> M unit) :
  (forall x, steps R (body x)) -> steps R (for_each l body).
Proof.
  intro Hb. induction l as [|x l IH]; simpl.
  - apply steps_ret.
  - apply steps_bind; auto.
Qed.

Lemma steps_for_fold {X Acc} (l : list X) (acc : Acc) (body : Acc -> X -> M Acc) :
  (forall a x, steps R (body a x)) -> steps R (for_fold l acc body).
Proof.
  intro Hb. revert acc. induction l as [|x l IH]; intro acc; simpl.
  - apply steps_ret.
  - apply steps_bind; auto.
Qed.

Lemma steps_modify (f : Scalene -> Scalene) :
  (forall s, R s (f s)) -> steps R (modify f).
Proof. intros Hf s. apply Hf. Qed.

End StepsFacts.

(** Structural part of a [steps] proof: what is left are the primitive
    state changes. *)
Ltac steps_struct :=
  repeat first
    [ simple apply steps_ret; exact _ | simple apply steps_raise; exact _
    | simple apply steps_gets; exact _ | simple apply steps_print; exact _
    | simple apply steps_lift; exact _
    | simple apply steps_for_each; [exact _ | intros]
    | simple apply steps_for_fold; [exact _ | intros]
    | simple apply steps_bind; [exact _ | | intros]
    | match goal with
      | |- steps _ (if ?b then _ else _) => destruct b
      | |- steps _ (match ?x with _ => _ end) => destruct x
      | |- steps _ (let '(_, _) := ?x in _) => destruct x
      end ].

#[export] Instance same_counters_preorder : PreOrder same_counters.
Proof.
  split.
  - intro s. unfold same_counters. repeat split; reflexivity.
  - intros a b c H1 H2. unfold same_counters in *.
    destruct H1 as (A1 & A2 & A3 & A4 & A5 & A6 & A7 & A8).
    destruct H2 as (B1 & B2 & B3 & B4 & B5 & B6 & B7 & B8).
    repeat split; intros; congruence.
Qed.

(** ** Reads leave the counters as they are *)

Lemma samples_getitem_st (im : bool) f l b s :
  st (samples_getitem im f l b s)
  = set_samples_table im (snd (dd_getitem3 0 (samples_table im s) f l b)) s.
Proof.
  reflexivity.
Qed.

Lemma samples_getitem_res (im : bool) f l b s :
  res (samples_getitem im f l b s) = Ok (samples_view im s f l b).
Proof.
  unfold samples_getitem, samples_view. rewrite <- dd_getitem3_fst.
  reflexivity.
Qed.

Lemma samples_getitem_log (im : bool) f l b s :
  log (samples_getitem im f l b s) = [].
Proof.
  reflexivity.
Qed.

Lemma count_getitem_st (im : bool) f l b s :
  st (count_getitem im f l b s)
  = set_count_table im (snd (dd_getitem3 0%Z (count_table im s) f l b)) s.
Proof.
  reflexivity.
Qed.

Lemma count_getitem_res (im : bool) f l b s :
  res (count_getitem im f l b s) = Ok (count_view im s f l b).
Proof.
  unfold count_getitem, count_view. rewrite <- dd_getitem3_fst.
  reflexivity.
Qed.

Lemma count_getitem_log (im : bool) f l b s :
  log (count_getitem im f l b s) = [].
Proof.
  reflexivity.
Qed.

Lemma cpu_getitem_st (native : bool) f l s :
  st (cpu_getitem native f l s)
  = (if native then set_cpu_samples_c else set_cpu_samples_python)
      (snd (dd_getitem2 0 (if native then cpu_samples_c s else cpu_samples_python s)
                        f l)) s.
Proof.
  unfold cpu_getitem. destruct native; reflexivity.
Qed.

Lemma cpu_getitem_res (native : bool) f l s :
  res (cpu_getitem native f l s) = Ok (cpu_view native s f l).
Proof.
  unfold cpu_getitem, cpu_view. rewrite <- dd_getitem2_fst.
  destruct native; reflexivity.
Qed.

Lemma cpu_getitem_log (native : bool) f l s : log (cpu_getitem native f l s) = [].
Proof.
  unfold cpu_getitem. destruct native; reflexivity.
Qed.

Lemma bytei_getitem_st f l s :
  st (bytei_getitem f l s)
  = set_bytei_map (snd (dd_getitem2 [] (bytei_map s) f l)) s.
Proof. reflexivity. Qed.

Lemma bytei_getitem_res f l s :
  res (bytei_getitem f l s) = Ok (known_offsets s f l).
Proof.
  unfold bytei_getitem, known_offsets. rewrite <- dd_getitem2_fst.
  reflexivity.
Qed.

Lemma bytei_getitem_log f l s : log (bytei_getitem f l s) = [].
Proof. reflexivity. Qed.

Lemma per_line_getitem_st f l s :
  st (per_line_getitem f l s)
  = set_per_line_footprint_samples
      (snd (dd_getitem2 (new_reservoir 10) (per_line_footprint_samples s) f l)) s.
Proof. reflexivity. Qed.

Lemma per_line_getitem_res f l s :
  res (per_line_getitem f l s)
  = Ok (lookup2 (new_reservoir 10) (per_line_footprint_samples s) f l).
Proof.
  unfold per_line_getitem. rewrite <- dd_getitem2_fst.
  reflexivity.
Qed.

Lemma per_line_getitem_log f l s : log (per_line_getitem f l s) = [].
Proof. reflexivity. Qed.

Lemma cpu_file_sum_st (native : bool) f s :
  st (cpu_file_sum native f s)
  = (if native then set_cpu_samples_c else set_cpu_samples_python)
      (snd (dd_getitem [] (if native then cpu_samples_c s else cpu_samples_python s) f))
      s.
Proof.
  unfold cpu_file_sum. destruct native; reflexivity.
Qed.

Lemma cpu_file_sum_res (native : bool) f s :
  res (cpu_file_sum native f s)
  = Ok (py_sum (dict_values
                  (lookup [] (if native then cpu_samples_c s else cpu_samples_python s)
                          f))).
Proof.
  unfold cpu_file_sum. rewrite <- dd_getitem_fst.
  destruct native; reflexivity.
Qed.

Lemma cpu_file_sum_log (native : bool) f s : log (cpu_file_sum native f s) = [].
Proof.
  unfold cpu_file_sum. destruct native; reflexivity.
Qed.

Ltac counters_goal :=
  unfold same_counters, cpu_view, samples_view, count_view; cbn;
  repeat split; try reflexivity; try (intros []; intros; reflexivity).

Lemma samples_getitem_counters im f l b :
  steps same_counters (samples_getitem im f l b).
Proof.
  intro s. rewrite samples_getitem_st.
  destruct im; counters_goal;
    intros [] f' l' b'; cbn; try reflexivity; symmetry; apply lookup3_getitem3.
Qed.

Lemma count_getitem_counters im f l b :
  steps same_counters (count_getitem im f l b).
Proof.
  intro s. rewrite count_getitem_st.
  destruct im; counters_goal;
    intros [] f' l' b'; cbn; try reflexivity; symmetry; apply lookup3_getitem3.
Qed.

Lemma cpu_getitem_counters native f l :
  steps same_counters (cpu_getitem native f l).
Proof.
  intro s. rewrite cpu_getitem_st.
  destruct native; counters_goal;
    intros [] f' l'; cbn; try reflexivity; symmetry; apply lookup2_getitem2.
Qed.

Lemma cpu_file_sum_counters native f :
  steps same_counters (cpu_file_sum native f).
Proof.
  intro s. rewrite cpu_file_sum_st.
  destruct native; counters_goal;
    intros [] f' l'; cbn; try reflexivity;
    unfold lookup2; rewrite dd_getitem_lookup; reflexivity.
Qed.

Lemma bytei_getitem_counters f l : steps same_counters (bytei_getitem f l).
Proof. intro s. rewrite bytei_getitem_st. counters_goal. Qed.

Lemma per_line_getitem_counters f l : steps same_counters (per_line_getitem f l).
Proof. intro s. rewrite per_line_getitem_st. counters_goal. Qed.

Lemma per_line_update_counters f l r : steps same_counters (per_line_update f l r).
Proof. intro s. unfold per_line_update, modify. counters_goal. Qed.

Lemma gettime_counters `{Runtime} : steps same_counters gettime.
Proof. intro s. unfold gettime. counters_goal. Qed.

Create HintDb counters.
#[export] Hint Resolve samples_getitem_counters count_getitem_counters
  cpu_getitem_counters cpu_file_sum_counters bytei_getitem_counters
  per_line_getitem_counters per_line_update_counters : counters.

Ltac counters_steps :=
  steps_struct;
  try solve [ auto with counters
            | apply gettime_counters
            | apply steps_modify; [exact _ | intro; counters_goal] ].

Lemma line_memory_index_counters f l acc index :
  steps same_counters (line_memory_index f l acc index).
Proof. unfold line_memory_index. counters_steps. Qed.

Lemma report_line_counters `{Runtime} d f l line :
  steps same_counters (report_line d f l line).
Proof.
  unfold report_line. counters_steps.
  apply line_memory_index_counters.
Qed.

Lemma report_lines_counters `{Runtime} d f lines l :
  steps same_counters (report_lines d f l lines).
Proof.
  revert l. induction lines as [|line lines IH]; intro l; simpl.
  - apply steps_ret; exact _.
  - apply steps_bind; [exact _ | apply report_line_counters | intro; apply IH].
Qed.

Lemma report_file_counters `{Runtime} d f :
  steps same_counters (report_file d f).
Proof.
  unfold report_file. counters_steps. apply report_lines_counters.
Qed.

Lemma output_profiles_counters `{Runtime} : steps same_counters output_profiles.
Proof.
  unfold output_profiles. counters_steps. apply report_file_counters.
Qed.




(** ** Draining a bridge file *)

Lemma account_sample_malloc f l b c s :
  let cur := current_footprint s + c in
  account_sample true f l b c s
  = {| st := (if Qgtb cur (max_footprint s) then set_max_footprint cur else fun x => x)
               (set_footprint_history (cur :: footprint_history s)
                  (set_current_footprint cur
                     (set_total_memory_malloc_samples
                        (total_memory_malloc_samples s + c)
                        (set_memory_malloc_samples
                           (dd_setitem3
                              (snd (dd_getitem3 0 (memory_malloc_samples s) f l b))
                              f l b (samples_view true s f l b + c)) s))));
       log := []; res := Ok tt |}.
Proof.
  intro cur. unfold account_sample, bind. cbn.
  fold cur. rewrite dd_getitem3_fst.
  destruct (Qgtb cur (max_footprint s)); reflexivity.
Qed.

Lemma account_sample_free f l b c s :
  let cur := current_footprint s - c in
  account_sample false f l b c s
  = {| st := set_footprint_history (cur :: footprint_history s)
               (set_current_footprint cur
                  (set_total_memory_free_samples
                     (total_memory_free_samples s + c)
                     (set_memory_free_samples
                        (dd_setitem3
                           (snd (dd_getitem3 0 (memory_free_samples s) f l b))
                           f l b (samples_view false s f l b + c)) s)));
       log := []; res := Ok tt |}.
Proof.
  intro cur. unfold account_sample, bind. cbn.
  fold cur. rewrite dd_getitem3_fst. reflexivity.
Qed.

Lemma account_sample_res im f l b c s :
  res (account_sample im f l b c s) = Ok tt /\ log (account_sample im f l b c s) = [].
Proof.
  destruct im; [rewrite account_sample_malloc | rewrite account_sample_free];
    split; reflexivity.
Qed.

#[export] Instance drain_frame_preorder : PreOrder drain_frame.
Proof.
  split.
  - intro s. unfold drain_frame. repeat split; reflexivity.
  - intros a b c H1 H2. unfold drain_frame in *.
    destruct H1 as (A1 & A2 & A3 & A4 & A5 & A6 & A7 & A8).
    destruct H2 as (B1 & B2 & B3 & B4 & B5 & B6 & B7 & B8).
    repeat split; congruence.
Qed.

#[export] Instance same_footprint_preorder : PreOrder same_footprint.
Proof.
  split.
  - intro s. unfold same_footprint. repeat split; reflexivity.
  - intros a b c H1 H2. unfold same_footprint in *.
    destruct H1 as (A1 & A2 & A3 & A4 & A5 & A6 & A7).
    destruct H2 as (B1 & B2 & B3 & B4 & B5 & B6 & B7).
    repeat split; congruence.
Qed.

Lemma account_sample_frame im f l b c : steps drain_frame (account_sample im f l b c).
Proof.
  intro s. destruct im;
    [rewrite account_sample_malloc | rewrite account_sample_free]; cbn.
  - destruct (Qgtb _ _); unfold drain_frame; cbn; repeat split; reflexivity.
  - unfold drain_frame; cbn; repeat split; reflexivity.
Qed.

Lemma account_sample_total im f l b c s :
  total_of im (st (account_sample im f l b c s)) = total_of im s + c
  /\ total_of (negb im) (st (account_sample im f l b c s)) = total_of (negb im) s.
Proof.
  destruct im;
    [rewrite account_sample_malloc | rewrite account_sample_free]; cbn.
  - destruct (Qgtb _ _); split; reflexivity.
  - split; reflexivity.
Qed.

Ltac setters :=
  cbn [st res log
       cpu_samples_python cpu_samples_c memory_malloc_samples memory_malloc_count
       memory_free_samples memory_free_count total_cpu_samples
       total_memory_malloc_samples total_memory_free_samples current_footprint
       max_footprint last_signal_interval last_signal_time
       memory_footprint_samples per_line_footprint_samples program_path
       output_profile_interval next_output_time elapsed_time bytei_map
       malloc_signal_file free_signal_file clock_reads footprint_history
       set_cpu_samples_python set_cpu_samples_c set_memory_malloc_samples
       set_memory_malloc_count set_memory_free_samples set_memory_free_count
       set_total_cpu_samples set_total_memory_malloc_samples
       set_total_memory_free_samples set_current_footprint set_max_footprint
       set_last_signal_time set_memory_footprint_samples
       set_per_line_footprint_samples set_next_output_time set_elapsed_time
       set_bytei_map set_malloc_signal_file set_free_signal_file set_clock_reads
       set_footprint_history
       samples_table set_samples_table count_table set_count_table
       bridge_file set_bridge_file total_of].

Lemma account_sample_samples im f l b c s im' f' l' b' :
  samples_view im' (st (account_sample im f l b c s)) f' l' b'
  = if Bool.eqb im im' && (keqb f f' && keqb l l' && keqb b b')
    then samples_view im s f l b + c
    else samples_view im' s f' l' b'.
Proof.
  destruct im;
    [rewrite account_sample_malloc | rewrite account_sample_free]; cbn [st].
  - destruct (Qgtb _ _); destruct im'; unfold samples_view; setters;
      cbn [Bool.eqb andb]; try reflexivity;
      rewrite lookup3_setitem3;
      (destruct (keqb f f' && keqb l l' && keqb b b'); [reflexivity|]);
      apply lookup3_getitem3.
  - destruct im'; unfold samples_view; setters;
      cbn [Bool.eqb andb]; try reflexivity;
      rewrite lookup3_setitem3;
      (destruct (keqb f f' && keqb l l' && keqb b b'); [reflexivity|]);
      apply lookup3_getitem3.
Qed.

Lemma bind_ok {A B} (m : M A) (k : A -> M B) (s : Scalene) (a : A) :
  res (m s) = Ok a -> log (m s) = [] -> bind m k s = k a (st (m s)).
Proof.
  intros Hr Hl. unfold bind. rewrite Hr, Hl.
  destruct (k a (st (m s))); reflexivity.
Qed.

Lemma for_each_account_res im f l b cs s :
  res (for_each cs (account_sample im f l b) s) = Ok tt
  /\ log (for_each cs (account_sample im f l b) s) = [].
Proof.
  revert s. induction cs as [|c cs IH]; intro s; cbn [for_each].
  - split; reflexivity.
  - destruct (account_sample_res im f l b c s) as [Hr Hl].
    rewrite (bind_ok _ _ _ Hr Hl). apply IH.
Qed.

Lemma for_each_account_step im f l b c cs s :
  for_each (c :: cs) (account_sample im f l b) s
  = for_each cs (account_sample im f l b) (st (account_sample im f l b c s)).
Proof.
  cbn [for_each]. destruct (account_sample_res im f l b c s) as [Hr Hl].
  rewrite (bind_ok _ _ _ Hr Hl). reflexivity.
Qed.

Lemma for_each_account_frame im f l b cs :
  steps drain_frame (for_each cs (account_sample im f l b)).
Proof.
  apply steps_for_each; [exact _|]. intro c. apply account_sample_frame.
Qed.

Lemma for_each_account_total im f l b cs s :
  total_of im (st (for_each cs (account_sample im f l b) s))
  = fold_left Qplus cs (total_of im s)
  /\ total_of (negb im) (st (for_each cs (account_sample im f l b) s))
     = total_of (negb im) s.
Proof.
  revert s. induction cs as [|c cs IH]; intro s.
  - split; reflexivity.
  - rewrite for_each_account_step. destruct (IH (st (account_sample im f l b c s)))
      as [H1 H2].
    destruct (account_sample_total im f l b c s) as [T1 T2].
    rewrite H1, H2, T1, T2. split; reflexivity.
Qed.

Lemma for_each_account_samples im f l b cs s im' f' l' b' :
  samples_view im' (st (for_each cs (account_sample im f l b) s)) f' l' b'
  = if Bool.eqb im im' && (keqb f f' && keqb l l' && keqb b b')
    then fold_left Qplus cs (samples_view im s f l b)
    else samples_view im' s f' l' b'.
Proof.
  revert s. induction cs as [|c cs IH]; intro s.
  - cbn [for_each ret st fold_left].
    destruct (Bool.eqb im im' && _) eqn:E; [|reflexivity].
    apply andb_true_iff in E. destruct E as [E1 E2].
    apply andb_true_iff in E2. destruct E2 as [E2 E4].
    apply andb_true_iff in E2. destruct E2 as [E2 E3].
    apply Bool.eqb_prop in E1. apply keqb_true in E2, E3, E4. subst. reflexivity.
  - rewrite for_each_account_step, IH.
    destruct (Bool.eqb im im' && _) eqn:E.
    + cbn [fold_left]. f_equal. rewrite account_sample_samples.
      rewrite Bool.eqb_reflx, !keqb_refl. reflexivity.
    + rewrite account_sample_samples, E. reflexivity.
Qed.

Lemma drain_lines_run `{Runtime} im f l b lines rs s :
  st (drain_lines im f l b lines rs s)
  = st (for_each (samples_read lines) (account_sample im f l b) s)
  /\ log (drain_lines im f l b lines rs s) = []
  /\ res (drain_lines im f l b lines rs s)
     = Ok (match lines with [] => rs | _ => true end,
           if (length (samples_read lines) =? length lines)%nat
           then Ok tt else Raise ValueError).
Proof.
  revert rs s. induction lines as [|line lines IH]; intros rs s.
  - simpl. auto.
  - cbn [drain_lines samples_read length]. unfold megabytes.
    destruct (pyfloat (rstrip line)) as [x|]; cbn [option_map length Nat.eqb].
    + destruct (account_sample_res im f l b (x / (1024 * 1024)) s) as [Hr Hl].
      rewrite !(bind_ok _ _ _ Hr Hl).
      destruct (IH true (st (account_sample im f l b (x / (1024 * 1024)) s)))
        as (I1 & I2 & I3).
      rewrite for_each_account_step, I1, I2, I3. repeat split.
      destruct lines; reflexivity.
    + repeat split.
Qed.

Lemma bind_modify {B} (f : Scalene -> Scalene) (k : unit -> M B) s :
  bind (modify f) k s = k tt (f s).
Proof. unfold bind. cbn. destruct (k tt (f s)); reflexivity. Qed.

Lemma bind_gets {A B} (f : Scalene -> A) (k : A -> M B) s :
  bind (gets f) k s = k (f s) s.
Proof. unfold bind. cbn. destruct (k (f s) s); reflexivity. Qed.

Lemma bind_ret {A B} (a : A) (k : A -> M B) s : bind (ret a) k s = k a s.
Proof. unfold bind. cbn. destruct (k a s); reflexivity. Qed.

Lemma bind_raise {A B} (e : exn) (k : A -> M B) s :
  bind (raise e) k s = raise e s.
Proof. reflexivity. Qed.

Lemma bind_print {B} (p : printed) (k : unit -> M B) s :
  bind (print p) k s
  = {| st := st (k tt s); log := p :: log (k tt s); res := res (k tt s) |}.
Proof. reflexivity. Qed.

Lemma bind_assoc {A B C} (m : M A) (k1 : A -> M B) (k2 : B -> M C) s :
  bind (bind m k1) k2 s = bind m (fun a => bind (k1 a) k2) s.
Proof.
  unfold bind. destruct (res (m s)) as [a|e]; cbn; [|reflexivity].
  destruct (res (k1 a (st (m s)))); cbn; [|reflexivity].
  rewrite app_assoc. reflexivity.
Qed.

Lemma bridge_file_touch im im' t s :
  bridge_file im' (set_samples_table im t s) = bridge_file im' s.
Proof. destruct im, im'; reflexivity. Qed.

Lemma alloc_handler_helper_missing `{Runtime} f l b im s :
  bridge_file im s = None ->
  alloc_handler_helper f l b im s
  = {| st := set_samples_table im
               (snd (dd_getitem2 [] (samples_table im s) f l)) s;
       log := []; res := Ok tt |}.
Proof.
  intro Hf. unfold alloc_handler_helper.
  rewrite bind_modify, bind_gets, bridge_file_touch, Hf.
  rewrite bind_ret, bind_ret. reflexivity.
Qed.

Lemma alloc_handler_helper_present `{Runtime} f l b im s lines :
  bridge_file im s = Some lines ->
  let s0 := set_samples_table im (snd (dd_getitem2 [] (samples_table im s) f l)) s in
  let s1 := st (for_each (samples_read lines) (account_sample im f l b) s0) in
  let ok := (length (samples_read lines) =? length lines)%nat in
  let s2 := if ok then set_bridge_file im None s1 else s1 in
  alloc_handler_helper f l b im s
  = {| st := match lines with
             | [] => s2
             | _ => set_count_table im
                      (dd_setitem3 (snd (dd_getitem3 0%Z (count_table im s2) f l b))
                                   f l b (count_view im s2 f l b + 1)%Z) s2
             end;
       log := if ok then [] else [StdoutExn ValueError];
       res := Ok tt |}.
Proof.
  intros Hf s0 s1 ok s2. unfold alloc_handler_helper.
  rewrite bind_modify, bind_gets, bridge_file_touch, Hf. fold s0.
  destruct (drain_lines_run im f l b lines false s0) as (D1 & D2 & D3).
  fold s1 in D1. fold ok in D3.
  replace (Nat.eqb (length (samples_read lines)) (length lines)) with ok in D3
    by reflexivity.
  assert (Hc : forall x, count_getitem im f l b x
                         = {| st := set_count_table im
                                      (snd (dd_getitem3 0%Z (count_table im x) f l b)) x;
                              log := []; res := Ok (count_view im x f l b) |}).
  { intro x. unfold count_getitem, count_view. rewrite dd_getitem3_fst. reflexivity. }
  rewrite bind_assoc, (bind_ok _ _ _ D3 D2), D1.
  subst s2. destruct ok.
  - rewrite bind_assoc, bind_modify, bind_ret, bind_ret.
    destruct lines; [reflexivity|].
    unfold bind. rewrite Hc. cbn. destruct im; reflexivity.
  - rewrite bind_ret, bind_print.
    destruct lines; [discriminate|].
    unfold bind. rewrite Hc. cbn. destruct im; reflexivity.
Qed.

Lemma count_view_frame s s' im f l b :
  drain_frame s s' -> count_view im s f l b = count_view im s' f l b.
Proof.
  intros (H1 & H2 & _). unfold count_view, count_table.
  destruct im; congruence.
Qed.

Lemma touch_samples_counters im f l s :
  same_counters s
    (set_samples_table im (snd (dd_getitem2 [] (samples_table im s) f l)) s).
Proof.
  destruct im; counters_goal;
    intros [] f' l' b'; cbn; try reflexivity;
    unfold lookup3; rewrite lookup2_getitem2; reflexivity.
Qed.

Lemma set_bridge_file_counters im v s : same_counters s (set_bridge_file im v s).
Proof. destruct im; counters_goal. Qed.


(** The counts after one drain of an existing bridge file. *)
Lemma alloc_handler_helper_counts `{Runtime} (s : Scalene) (fname : string)
        (line_no bytei : Z) (is_malloc : bool) (lines : list string) :
  bridge_file is_malloc s = Some lines ->
  let o := alloc_handler_helper fname line_no bytei is_malloc s in
  res o = Ok tt
  /\ (lines <> [] ->
      count_view is_malloc (st o) fname line_no bytei
      = (count_view is_malloc s fname line_no bytei + 1)%Z
      /\ forall im f l b,
           (im, f, l, b) <> (is_malloc, fname, line_no, bytei) ->
           count_view im (st o) f l b = count_view im s f l b)
  /\ (lines = [] ->
      same_counters s (st o)
      /\ bridge_file is_malloc (st o) = None
      /\ bridge_file (negb is_malloc) (st o) = bridge_file (negb is_malloc) s
      /\ log o = []).
Proof.
  intros Hf o. subst o. rewrite (alloc_handler_helper_present _ _ _ _ _ Hf).
  cbn [st res log].
  set (s0 := set_samples_table is_malloc _ s).
  set (s1 := st (for_each _ _ s0)).
  set (ok := (length (samples_read lines) =? length lines)%nat).
  set (s2 := if ok then set_bridge_file is_malloc None s1 else s1).
  assert (Hcount : forall im f l b, count_view im s2 f l b = count_view im s f l b).
  { intros im f l b.
    transitivity (count_view im s1 f l b).
    - subst s2. destruct ok; [|reflexivity]. destruct is_malloc, im; reflexivity.
    - transitivity (count_view im s0 f l b).
      + symmetry.
        exact (count_view_frame im f l b
                 (for_each_account_frame is_malloc fname line_no bytei
                    (samples_read lines) s0)).
      + subst s0. destruct is_malloc, im; reflexivity. }
  split; [reflexivity|]. split.
  - intro Hne. destruct lines as [|line lines']; [congruence|]. split.
    + unfold count_view at 1.
      replace (count_table is_malloc (set_count_table is_malloc _ s2))
        with (dd_setitem3 (snd (dd_getitem3 0%Z (count_table is_malloc s2)
                                            fname line_no bytei))
                          fname line_no bytei
                          (count_view is_malloc s2 fname line_no bytei + 1)%Z)
        by (destruct is_malloc; reflexivity).
      rewrite lookup3_setitem3, !keqb_refl. cbn [andb]. rewrite Hcount. reflexivity.
    + intros im f l b Hneq. rewrite <- Hcount.
      destruct (Bool.eqb is_malloc im) eqn:Eim.
      * apply Bool.eqb_prop in Eim. subst im.
        unfold count_view at 1.
        replace (count_table is_malloc (set_count_table is_malloc _ s2))
          with (dd_setitem3 (snd (dd_getitem3 0%Z (count_table is_malloc s2)
                                              fname line_no bytei))
                            fname line_no bytei
                            (count_view is_malloc s2 fname line_no bytei + 1)%Z)
          by (destruct is_malloc; reflexivity).
        rewrite lookup3_setitem3.
        destruct (keqb fname f && keqb line_no l && keqb bytei b) eqn:E.
        { apply andb_true_iff in E. destruct E as [E E3].
          apply andb_true_iff in E. destruct E as [E1 E2].
          apply keqb_true in E1, E2, E3. subst. congruence. }
        apply lookup3_getitem3.
      * unfold count_view. destruct is_malloc, im; try discriminate; reflexivity.
  - intros ->. subst s2 ok s1. cbn [samples_read length Nat.eqb for_each ret st].
    split; [|split; [|split]].
    + etransitivity; [apply (touch_samples_counters is_malloc fname line_no s)|].
      apply set_bridge_file_counters.
    + destruct is_malloc; reflexivity.
    + subst s0. destruct is_malloc; reflexivity.
    + reflexivity.
Qed.

(** C6.  One drain of an existing bridge file that held at least one line
    adds exactly one to the count of the signalled site and changes no
    other count, however many lines there were; a drain of an existing
    file without lines changes no counter and removes the file. *)
Theorem drain_counts_once `{Runtime} (s : Scalene) (fname : string)
        (line_no bytei : Z) (is_malloc : bool) (lines : list string) :
  bridge_file is_malloc s = Some lines ->
  let o := alloc_handler_helper fname line_no bytei is_malloc s in
  res o = Ok tt
  /\ (lines <> [] ->
      count_view is_malloc (st o) fname line_no bytei
      = (count_view is_malloc s fname line_no bytei + 1)%Z
      /\ forall im f l b,
           (im, f, l, b) <> (is_malloc, fname, line_no, bytei) ->
           count_view im (st o) f l b = count_view im s f l b)
  /\ (lines = [] ->
      same_counters s (st o)
      /\ bridge_file is_malloc (st o) = None
      /\ bridge_file (negb is_malloc) (st o) = bridge_file (negb is_malloc) s
      /\ log o = []).
Proof.
  intro Hf. exact (alloc_handler_helper_counts s fname line_no bytei is_malloc Hf).
Qed.

Lemma drain_counts_once_witness :
  let s := set_malloc_signal_file (Some malformed_bridge)
             (initial "/home/u/proj" Inf Inf) in
  count_view true
    (st (@alloc_handler_helper sample_runtime "/home/u/proj/x.py" 3 10 true s))
    "/home/u/proj/x.py" 3 10
  = (count_view true s "/home/u/proj/x.py" 3 10 + 1)%Z.
Proof.
  intro s.
  refine (proj1 (proj1 (proj2 (@drain_counts_once sample_runtime s
            "/home/u/proj/x.py" 3%Z 10%Z true malformed_bridge eq_refl)) _)).
  discriminate.
Defined.




(** ** The footprint *)

#[export] Instance keeps_preorder (I : Scalene -> Prop) : PreOrder (keeps I).
Proof. split; unfold keeps; [intros s Hs; exact Hs | intros a b c; auto]. Qed.






Ltac footprint_prim :=
  let s := fresh "s" in
  intro s;
  repeat match goal with b : bool |- _ => destruct b end;
  unfold same_footprint; cbn; repeat split; reflexivity.

Ltac footprint_steps :=
  steps_struct;
  try solve [ footprint_prim | apply steps_modify; [exact _ | footprint_prim] ].

Lemma line_memory_index_footprint f l acc index :
  steps same_footprint (line_memory_index f l acc index).
Proof. unfold line_memory_index. footprint_steps. Qed.

Lemma report_line_footprint `{Runtime} d f l line :
  steps same_footprint (report_line d f l line).
Proof.
  unfold report_line, per_line_update. footprint_steps.
  apply line_memory_index_footprint.
Qed.

Lemma report_lines_footprint `{Runtime} d f lines l :
  steps same_footprint (report_lines d f l lines).
Proof.
  revert l. induction lines as [|line lines IH]; intro l; simpl.
  - apply steps_ret; exact _.
  - apply steps_bind; [exact _ | apply report_line_footprint | intro; apply IH].
Qed.

Lemma report_file_footprint `{Runtime} d f :
  steps same_footprint (report_file d f).
Proof.
  unfold report_file. footprint_steps. apply report_lines_footprint.
Qed.

Lemma output_profiles_footprint `{Runtime} : steps same_footprint output_profiles.
Proof.
  unfold output_profiles. footprint_steps. apply report_file_footprint.
Qed.

Lemma flush_if_due_footprint `{Runtime} now : steps same_footprint (flush_if_due now).
Proof.
  unfold flush_if_due, stop, start, enable_signals, gettime. footprint_steps.
  apply output_profiles_footprint.
Qed.

Lemma attribute_tick_footprint `{Runtime} now this_frame thread_frames :
  steps same_footprint (attribute_tick now this_frame thread_frames).
Proof.
  unfold attribute_tick, gettime. footprint_steps.
  unfold attribute_frame, cpu_iadd, roll_footprint, per_line_update.
  footprint_steps.
Qed.

Lemma cpu_signal_handler_footprint `{Runtime} this_frame thread_frames :
  steps same_footprint (cpu_signal_handler this_frame thread_frames).
Proof.
  unfold cpu_signal_handler, gettime. footprint_steps.
  - apply flush_if_due_footprint.
  - apply attribute_tick_footprint.
Qed.







(** ** The CPU tick *)

#[export] Instance same_config_preorder : PreOrder same_config.
Proof.
  split.
  - intro s. unfold same_config. repeat split; reflexivity.
  - intros a b c (A1 & A2 & A3) (B1 & B2 & B3). unfold same_config.
    repeat split; congruence.
Qed.

Ltac config_prim :=
  let s := fresh "s" in
  intro s;
  repeat match goal with b : bool |- _ => destruct b end;
  unfold same_config; cbn; repeat split; reflexivity.

Ltac config_steps :=
  steps_struct;
  try solve [ config_prim | apply steps_modify; [exact _ | config_prim] ].

Lemma report_lines_config `{Runtime} d f lines l :
  steps same_config (report_lines d f l lines).
Proof.
  revert l. induction lines as [|line lines IH]; intro l; simpl.
  - apply steps_ret; exact _.
  - apply steps_bind; [exact _ | | intro; apply IH].
    unfold report_line, per_line_update. config_steps.
    unfold line_memory_index. config_steps.
Qed.

Lemma output_profiles_config `{Runtime} : steps same_config output_profiles.
Proof.
  unfold output_profiles. config_steps.
  unfold report_file. config_steps. apply report_lines_config.
Qed.



Lemma gettime_run `{Runtime} s :
  gettime s
  = {| st := set_clock_reads (S (clock_reads s)) s; log := [];
       res := Ok (process_time (clock_reads s)) |}.
Proof. unfold gettime. rewrite bind_gets, bind_modify. reflexivity. Qed.

Lemma cpu_signal_handler_split `{Runtime} this_frame thread_frames s :
  cpu_signal_handler this_frame thread_frames s
  = bind tick_start (fun now => attribute_tick now this_frame thread_frames) s.
Proof.
  unfold cpu_signal_handler, tick_start.
  rewrite bind_assoc.
  rewrite !(bind_ok gettime _ s (a := process_time (clock_reads s)))
    by (rewrite gettime_run; reflexivity).
  rewrite bind_assoc. unfold bind.
  destruct (res (flush_if_due _ _)); reflexivity.
Qed.

Lemma cpu_iadd_run native f l x s :
  cpu_iadd native f l x s
  = {| st := (if native then set_cpu_samples_c else set_cpu_samples_python)
               (dd_setitem2
                  (snd (dd_getitem2 0 (if native then cpu_samples_c s
                                       else cpu_samples_python s) f l))
                  f l (cpu_view native s f l + x)) s;
       log := []; res := Ok tt |}.
Proof.
  unfold cpu_iadd, bind, cpu_view. rewrite <- dd_getitem2_fst.
  destruct native; reflexivity.
Qed.


Lemma cpu_iadd_total native f l x s :
  total_cpu_samples (st (cpu_iadd native f l x s)) = total_cpu_samples s.
Proof. rewrite cpu_iadd_run. destruct native; reflexivity. Qed.

Lemma quiet_ret {A} (a : A) : quiet (ret a).
Proof. intro s. split; [reflexivity | eexists; reflexivity]. Qed.

Lemma quiet_gets {A} (f : Scalene -> A) : quiet (gets f).
Proof. intro s. split; [reflexivity | eexists; reflexivity]. Qed.

Lemma quiet_modify f : quiet (modify f).
Proof. intro s. split; [reflexivity | eexists; reflexivity]. Qed.

Lemma quiet_bind {A B} (m : M A) (k : A -> M B) :
  quiet m -> (forall a, quiet (k a)) -> quiet (bind m k).
Proof.
  intros Hm Hk s. destruct (Hm s) as [Hl [a Ha]].
  rewrite (bind_ok m k s Ha Hl). apply Hk.
Qed.

Lemma quiet_for_each {X} (l : list X) (body : X -> M unit) :
  (forall x, quiet (body x)) -> quiet (for_each l body).
Proof.
  intro Hb. induction l as [|x l IH]; cbn [for_each].
  - apply quiet_ret.
  - apply quiet_bind; auto.
Qed.

Lemma quiet_for_fold {X Acc} (l : list X) (acc : Acc) (body : Acc -> X -> M Acc) :
  (forall a x, quiet (body a x)) -> quiet (for_fold l acc body).
Proof.
  intro Hb. revert acc. induction l as [|x l IH]; intro acc; cbn [for_fold].
  - apply quiet_ret.
  - apply quiet_bind; auto.
Qed.

Lemma bind_quiet {B} (m : M unit) (k : unit -> M B) s :
  quiet m -> bind m k s = k tt (st (m s)).
Proof.
  intro Hm. destruct (Hm s) as [Hl [[] Ha]]. apply (bind_ok m k s Ha Hl).
Qed.

Ltac quiet_prim :=
  let s := fresh "s" in
  intro s; repeat match goal with b : bool |- _ => destruct b end;
  (split; [reflexivity | eexists; reflexivity]).

Ltac quiet_steps :=
  repeat first
    [ simple apply quiet_ret | simple apply quiet_gets | simple apply quiet_modify
    | simple apply quiet_for_each; intros
    | simple apply quiet_for_fold; intros
    | simple apply quiet_bind; [|intros]
    | match goal with
      | |- quiet (if ?b then _ else _) => destruct b
      | |- quiet (match ?x with _ => _ end) => destruct x
      end ];
  try solve [quiet_prim].

Lemma cpu_iadd_quiet native f l x : quiet (cpu_iadd native f l x).
Proof. unfold cpu_iadd. quiet_steps. Qed.

Lemma roll_footprint_quiet `{Runtime} f l index : quiet (roll_footprint f l index).
Proof. unfold roll_footprint, per_line_update. quiet_steps. Qed.

Lemma attribute_frame_quiet `{Runtime} this pt ct tt' n fr :
  quiet (attribute_frame this pt ct tt' n fr).
Proof.
  unfold attribute_frame. quiet_steps;
    first [apply cpu_iadd_quiet | apply roll_footprint_quiet].
Qed.






Lemma c_time_of_max (elapsed python_time : Q) :
  c_time_of elapsed python_time == Qmax 0 (elapsed - python_time).
Proof.
  unfold c_time_of. destruct (Qltb (elapsed - python_time) 0) eqn:E.
  - apply Qltb_true in E. symmetry. apply Q.max_l. lra.
  - apply Qltb_false in E. symmetry. apply Q.max_r. exact E.
Qed.

Lemma tick_start_not_due `{Runtime} s :
  reached (process_time (clock_reads s)) (next_output_time s) = false ->
  tick_start s
  = {| st := set_clock_reads (S (clock_reads s)) s; log := [];
       res := Ok (process_time (clock_reads s)) |}.
Proof.
  intro Hn. unfold tick_start.
  rewrite (bind_ok gettime _ s (a := process_time (clock_reads s)))
    by (rewrite gettime_run; reflexivity).
  rewrite gettime_run. cbn [st]. unfold flush_if_due.
  rewrite bind_assoc, bind_gets. cbv beta.
  cbn [next_output_time set_clock_reads].
  rewrite Hn. reflexivity.
Qed.




(** ** The reporter *)

Lemma output_profiles_nothing `{Runtime} s :
  total_cpu_samples s == 0 ->
  total_memory_malloc_samples s == 0 ->
  total_memory_free_samples s == 0 ->
  output_profiles s = {| st := s; log := []; res := Ok false |}.
Proof.
  intros H1 H2 H3. apply Qeq_bool_iff in H1, H2, H3.
  unfold output_profiles. rewrite !bind_gets, H1, H2, H3. reflexivity.
Qed.

(** C8 (amended).  When the three totals are zero [output_profiles]
    prints nothing, changes nothing and returns false, and the driver
    then prints one line to standard output:
    "Scalene: Program did not run for long enough to profile." *)
Theorem short_run_diagnostic `{Runtime} (s : Scalene) :
  total_cpu_samples s == 0 ->
  total_memory_malloc_samples s == 0 ->
  total_memory_free_samples s == 0 ->
  output_profiles s = {| st := s; log := []; res := Ok false |}
  /\ main_report s
     = {| st := s;
          log := [Stdout (str_of "Scalene: Program did not run for long enough to profile.")];
          res := Ok tt |}.
Proof.
  intros H1 H2 H3. pose proof (output_profiles_nothing s H1 H2 H3) as Ho.
  split; [exact Ho|].
  unfold main_report, bind. rewrite Ho. reflexivity.
Qed.

Lemma short_run_diagnostic_witness :
  @output_profiles sample_runtime (initial "/home/u/proj" Inf Inf)
  = {| st := initial "/home/u/proj" Inf Inf; log := []; res := Ok false |}.
Proof.
  refine (proj1 (@short_run_diagnostic sample_runtime
                   (initial "/home/u/proj" Inf Inf) _ _ _)); reflexivity.
Defined.

(** C8 as stated fails: the line the driver prints starts with
    "Scalene: ", so it is not the line the claim quotes. *)
Lemma short_run_diagnostic_counterexample :
  log (@main_report sample_runtime (initial "/home/u/proj" Inf Inf))
  <> [Stdout (str_of "Program did not run for long enough to profile.")].
Proof. vm_compute. discriminate. Qed.

(** ** Known offsets *)

Lemma lookup2_getitem3 {V} (dflt : V) d f l b f' l' :
  lookup2 [] (snd (dd_getitem3 dflt d f l b)) f' l'
  = if keqb f f' && keqb l l'
    then snd (dd_getitem dflt (lookup2 [] d f l) b)
    else lookup2 [] d f' l'.
Proof.
  unfold dd_getitem3.
  pose proof (dd_getitem2_fst (@nil (Z * V)) d f l) as H1.
  pose proof (lookup2_getitem2 (@nil (Z * V)) d f l f' l') as H1'.
  destruct (dd_getitem2 [] d f l) as [inner d1]. simpl in H1, H1'. subst inner.
  destruct (dd_getitem dflt (lookup2 [] d f l) b) as [v inner'] eqn:E.
  cbn [snd]. rewrite lookup2_setitem2.
  destruct (keqb f f' && keqb l l'); [reflexivity | exact H1'].
Qed.

Lemma lookup2_setitem3 {V} (d : dict string (dict Z (dict Z V))) f l b v f' l' :
  lookup2 [] (dd_setitem3 d f l b v) f' l'
  = if keqb f f' && keqb l l'
    then dict_set (lookup2 [] d f l) b v
    else lookup2 [] d f' l'.
Proof.
  unfold dd_setitem3.
  pose proof (dd_getitem2_fst (@nil (Z * V)) d f l) as H1.
  pose proof (lookup2_getitem2 (@nil (Z * V)) d f l f' l') as H1'.
  destruct (dd_getitem2 [] d f l) as [inner d1]. simpl in H1, H1'. subst inner.
  rewrite lookup2_setitem2.
  destruct (keqb f f' && keqb l l'); [reflexivity | exact H1'].
Qed.

Lemma dict_set_keys_in {K V} `{Key K} (d : dict K V) k v x :
  In x (dict_keys (dict_set d k v)) -> In x (dict_keys d) \/ x = k.
Proof.
  rewrite dict_set_keys. destruct (dict_find d k); [auto|].
  intro Hin. apply in_app_or in Hin. destruct Hin as [Hin|[<-|[]]]; auto.
Qed.

Lemma dd_getitem_keys_in {K V} `{Key K} (dflt : V) (d : dict K V) k x :
  In x (dict_keys (snd (dd_getitem dflt d k))) -> In x (dict_keys d) \/ x = k.
Proof.
  unfold dd_getitem. destruct (dict_find d k); cbn [snd]; [auto|].
  apply dict_set_keys_in.
Qed.

#[export] Instance offsets_step_preorder : PreOrder offsets_step.
Proof.
  split.
  - intro s. split; auto.
  - intros a b c [A1 A2] [B1 B2]. split.
    + intros f l x Hx. apply B1, A1, Hx.
    + intros im f l x Hx. destruct (B2 im f l x Hx) as [Hb|Hb]; [|auto].
      destruct (A2 im f l x Hb) as [Ha|Ha]; [auto|]. right. apply B1, Ha.
Qed.

#[export] Instance same_offsets_preorder : PreOrder same_offsets.
Proof.
  split.
  - intro s. split; reflexivity.
  - intros a b c [A1 A2] [B1 B2]. split; intros; congruence.
Qed.

Lemma same_offsets_step s s' : same_offsets s s' -> offsets_step s s'.
Proof.
  intros [H1 H2]. split.
  - intros f l b Hb. rewrite <- H2. exact Hb.
  - intros im f l b Hb. left. rewrite H1. exact Hb.
Qed.

Lemma offsets_step_known s s' :
  offsets_step s s' -> offsets_known s -> offsets_known s'.
Proof.
  intros [H1 H2] Hk im f l b Hb.
  destruct (H2 im f l b Hb) as [Hs|Hs]; [|exact Hs].
  apply H1. exact (Hk im f l b Hs).
Qed.

Lemma samples_getitem_offsets im f l b s :
  In b (known_offsets s f l) ->
  offsets_step s (st (samples_getitem im f l b s)).
Proof.
  intro Hb. rewrite samples_getitem_st. split.
  - intros f' l' x Hx. destruct im; exact Hx.
  - intros im' f' l' x Hx.
    assert (Hk : forall t, known_offsets (set_samples_table im t s) f' l'
                           = known_offsets s f' l') by (destruct im; reflexivity).
    rewrite Hk. unfold sampled_offsets in *.
    destruct (Bool.eqb im im') eqn:Eim.
    + apply Bool.eqb_prop in Eim. subst im'.
      replace (samples_table im (set_samples_table im _ s))
        with (snd (dd_getitem3 0 (samples_table im s) f l b)) in Hx
        by (destruct im; reflexivity).
      rewrite lookup2_getitem3 in Hx.
      destruct (keqb f f' && keqb l l') eqn:E; [|auto].
      apply andb_true_iff in E. destruct E as [E1 E2].
      apply keqb_true in E1, E2. subst f' l'.
      apply dd_getitem_keys_in in Hx. destruct Hx as [Hx| ->]; auto.
    + left. destruct im, im'; try discriminate; exact Hx.
Qed.

Lemma samples_setitem_offsets im f l b v s :
  In b (known_offsets s f l) ->
  offsets_step s
    (set_samples_table im (dd_setitem3 (samples_table im s) f l b v) s).
Proof.
  intro Hb. split.
  - intros f' l' x Hx. destruct im; exact Hx.
  - intros im' f' l' x Hx.
    assert (Hk : forall t, known_offsets (set_samples_table im t s) f' l'
                           = known_offsets s f' l') by (destruct im; reflexivity).
    rewrite Hk. unfold sampled_offsets in *.
    destruct (Bool.eqb im im') eqn:Eim.
    + apply Bool.eqb_prop in Eim. subst im'.
      replace (samples_table im (set_samples_table im _ s))
        with (dd_setitem3 (samples_table im s) f l b v) in Hx
        by (destruct im; reflexivity).
      rewrite lookup2_setitem3 in Hx.
      destruct (keqb f f' && keqb l l') eqn:E; [|auto].
      apply andb_true_iff in E. destruct E as [E1 E2].
      apply keqb_true in E1, E2. subst f' l'.
      apply dict_set_keys_in in Hx. destruct Hx as [Hx| ->]; auto.
    + left. destruct im, im'; try discriminate; exact Hx.
Qed.

Section StepsFrom.
Context (P : Scalene -> Prop) (R : Scalene -> Scalene -> Prop) `{!PreOrder R}.
Hypothesis P_stable : forall s s', P s -> R s s' -> P s'.

Lemma steps_from_weaken {A} (m : M A) : steps R m -> steps_from P R m.
Proof. intros Hm s _. apply Hm. Qed.

Lemma steps_from_bind {A B} (m : M A) (k : A -> M B) :
  steps_from P R m -> (forall a, steps_from P R (k a)) ->
  steps_from P R (bind m k).
Proof.
  intros Hm Hk s Hs. rewrite bind_st.
  destruct (res (m s)); [|apply Hm, Hs].
  etransitivity; [apply Hm, Hs|]. apply Hk. eapply P_stable; [exact Hs|].
  apply Hm, Hs.
Qed.

Lemma steps_from_for_each {X} (l : list X) (body : X -> M unit) :
  (forall x, In x l -> steps_from P R (body x)) ->
  steps_from P R (for_each l body).
Proof.
  induction l as [|x l IH]; intro Hb; cbn [for_each].
  - intros s _. reflexivity.
  - apply steps_from_bind.
    + apply Hb. left. reflexivity.
    + intros _. apply IH. intros y Hy. apply Hb. right. exact Hy.
Qed.

Lemma steps_from_for_fold {X Acc} (l : list X) (acc : Acc)
      (body : Acc -> X -> M Acc) :
  (forall a x, In x l -> steps_from P R (body a x)) ->
  steps_from P R (for_fold l acc body).
Proof.
  revert acc. induction l as [|x l IH]; intros acc Hb; cbn [for_fold].
  - intros s _. reflexivity.
  - apply steps_from_bind.
    + apply Hb. left. reflexivity.
    + intros acc'. apply IH. intros a y Hy. apply Hb. right. exact Hy.
Qed.

End StepsFrom.

Lemma steps_from_bind_val (P : Scalene -> Prop) {A} (Q : A -> Scalene -> Prop)
      (R : Scalene -> Scalene -> Prop) `{!PreOrder R} {B}
      (m : M A) (k : A -> M B) :
  (forall s, P s ->
             R s (st (m s)) /\ forall a, res (m s) = Ok a -> Q a (st (m s))) ->
  (forall a, steps_from (Q a) R (k a)) ->
  steps_from P R (bind m k).
Proof.
  intros Hm Hk s Hs. rewrite bind_st. destruct (Hm s Hs) as [H1 H2].
  destruct (res (m s)) as [a|e]; [|exact H1].
  etransitivity; [exact H1|]. apply Hk. apply H2. reflexivity.
Qed.

Lemma steps_from_pre (P P' : Scalene -> Prop) R {A} (m : M A) :
  (forall s, P s -> P' s) -> steps_from P' R m -> steps_from P R m.
Proof. intros Hpp Hm s Hs. apply Hm, Hpp, Hs. Qed.

Lemma steps_from_true R {A} (m : M A) :
  steps_from (fun _ => True) R m -> steps R m.
Proof. intros Hm s. apply Hm. exact I. Qed.

Lemma steps_same_offsets {A} (m : M A) :
  steps same_offsets m -> steps offsets_step m.
Proof. intros Hm s. apply same_offsets_step, Hm. Qed.

Ltac offsets_prim :=
  let s := fresh "s" in
  intro s;
  repeat match goal with b : bool |- _ => destruct b end;
  (split; intros;
   repeat match goal with b : bool |- _ => destruct b end;
   unfold sampled_offsets, known_offsets; cbn;
   rewrite ?lookup2_getitem2; reflexivity).

Ltac offsets_steps :=
  steps_struct;
  try solve [ offsets_prim | apply steps_modify; [exact _ | offsets_prim] ].

Lemma known_stable f l x s s' :
  In x (known_offsets s f l) -> offsets_step s s' -> In x (known_offsets s' f l).
Proof. intros Hx [H1 _]. apply H1, Hx. Qed.

Lemma incl_known_stable f l (known : list Z) s s' :
  incl known (known_offsets s f l) -> offsets_step s s' ->
  incl known (known_offsets s' f l).
Proof. intros Hi Hs x Hx. eapply known_stable; [apply Hi, Hx | exact Hs]. Qed.

Lemma bytei_getitem_known f l s :
  offsets_step s (st (bytei_getitem f l s))
  /\ forall known, res (bytei_getitem f l s) = Ok known ->
                   incl known (known_offsets (st (bytei_getitem f l s)) f l).
Proof.
  split.
  - apply same_offsets_step. revert s. offsets_prim.
  - intros known Hk. rewrite bytei_getitem_res in Hk. injection Hk as <-.
    rewrite bytei_getitem_st. unfold known_offsets. cbn.
    rewrite lookup2_getitem2. apply incl_refl.
Qed.

Lemma roll_footprint_offsets `{Runtime} f l index :
  steps_from (fun s => In index (known_offsets s f l)) offsets_step
             (roll_footprint f l index).
Proof.
  unfold roll_footprint, per_line_update.
  repeat (apply steps_from_bind;
          [exact _ | intros; eapply known_stable; eassumption | | intros]);
    try (intros s Hs; apply samples_getitem_offsets; exact Hs);
    apply steps_from_weaken, steps_same_offsets; offsets_steps.
Qed.

Lemma roll_loop_offsets `{Runtime} f l :
  steps offsets_step
    (known <- bytei_getitem f l;; for_each known (roll_footprint f l)).
Proof.
  apply steps_from_true.
  apply (steps_from_bind_val (fun _ => True)
           (fun known s => incl known (known_offsets s f l))); [exact _| |].
  - intros s _. apply bytei_getitem_known.
  - intro known. apply steps_from_for_each; [exact _| |].
    + intros; eapply incl_known_stable; eassumption.
    + intros x Hx. eapply steps_from_pre; [|apply roll_footprint_offsets].
      intros s Hs. apply Hs, Hx.
Qed.

Lemma attribute_frame_offsets `{Runtime} this pt ct tt' n fr :
  steps offsets_step (attribute_frame this pt ct tt' n fr).
Proof.
  unfold attribute_frame. apply steps_bind; [exact _| |intros _].
  - apply steps_same_offsets. unfold cpu_iadd. offsets_steps.
  - apply roll_loop_offsets.
Qed.

Lemma attribute_tick_offsets `{Runtime} now this_frame thread_frames :
  steps offsets_step (attribute_tick now this_frame thread_frames).
Proof.
  unfold attribute_tick.
  repeat (apply steps_bind; [exact _| |intros]);
    try (apply steps_for_each; [exact _|intros]);
    try apply attribute_frame_offsets;
    apply steps_same_offsets; unfold gettime; offsets_steps.
Qed.

Lemma line_memory_index_offsets f l acc index :
  steps_from (fun s => In index (known_offsets s f l)) offsets_step
             (line_memory_index f l acc index).
Proof.
  unfold line_memory_index.
  repeat (apply steps_from_bind;
          [exact _ | intros; eapply known_stable; eassumption | | intros]);
    try (intros s Hs; apply samples_getitem_offsets; exact Hs);
    apply steps_from_weaken, steps_same_offsets; offsets_steps.
Qed.

Lemma report_line_offsets `{Runtime} d f l line :
  steps offsets_step (report_line d f l line).
Proof.
  unfold report_line.
  do 3 (apply steps_bind; [exact _ | apply steps_same_offsets; offsets_steps
                          | intros]).
  apply steps_from_true.
  apply (steps_from_bind_val (fun _ => True)
           (fun known s => incl known (known_offsets s f l))); [exact _| |].
  - intros s _. apply bytei_getitem_known.
  - intro known. apply steps_from_bind; [exact _| | |intros mem].
    + intros; eapply incl_known_stable; eassumption.
    + apply steps_from_for_fold; [exact _| |].
      * intros; eapply incl_known_stable; eassumption.
      * intros acc x Hx. eapply steps_from_pre; [|apply line_memory_index_offsets].
        intros s Hs. apply Hs, Hx.
    + apply steps_from_weaken, steps_same_offsets.
      unfold per_line_update. offsets_steps.
Qed.

Lemma report_lines_offsets `{Runtime} d f lines l :
  steps offsets_step (report_lines d f l lines).
Proof.
  revert l. induction lines as [|line lines IH]; intro l; simpl.
  - apply steps_ret; exact _.
  - apply steps_bind; [exact _ | apply report_line_offsets | intro; apply IH].
Qed.

Lemma report_file_offsets `{Runtime} d f : steps offsets_step (report_file d f).
Proof.
  unfold report_file.
  repeat (apply steps_bind; [exact _| |intros]);
    try (destruct (source_lines f);
         [apply steps_bind; [exact _ | apply report_lines_offsets | intros]|]);
    apply steps_same_offsets; offsets_steps.
Qed.

Lemma output_profiles_offsets `{Runtime} : steps offsets_step output_profiles.
Proof.
  unfold output_profiles.
  do 3 (apply steps_bind; [exact _ | apply steps_same_offsets; offsets_steps
                          | intros]).
  destruct (_ && _); [apply steps_ret; exact _|].
  apply steps_bind; [exact _ | apply steps_same_offsets; offsets_steps | intros].
  apply steps_bind; [exact _ | apply steps_same_offsets; offsets_steps | intros].
  apply steps_bind; [exact _ | | intros; apply steps_ret; exact _].
  apply steps_for_each; [exact _|]. intro f. apply report_file_offsets.
Qed.

Lemma flush_if_due_offsets `{Runtime} now : steps offsets_step (flush_if_due now).
Proof.
  unfold flush_if_due.
  apply steps_bind; [exact _ | apply steps_same_offsets; offsets_steps | intros].
  destruct (reached now a); [|apply steps_ret; exact _].
  apply steps_bind; [exact _ | apply steps_same_offsets; offsets_steps | intros].
  apply steps_bind; [exact _ | apply steps_same_offsets; unfold stop, gettime;
                               offsets_steps | intros].
  apply steps_bind; [exact _ | apply output_profiles_offsets | intros].
  apply steps_same_offsets. unfold start, enable_signals, gettime. offsets_steps.
Qed.

Lemma cpu_signal_handler_offsets `{Runtime} this_frame thread_frames :
  steps offsets_step (cpu_signal_handler this_frame thread_frames).
Proof.
  unfold cpu_signal_handler.
  apply steps_bind; [exact _ | apply steps_same_offsets; unfold gettime;
                               offsets_steps | intro now].
  apply steps_bind; [exact _ | apply flush_if_due_offsets
                    | intros _; apply attribute_tick_offsets].
Qed.

Lemma account_sample_offsets im f l b c :
  steps_from (fun s => In b (known_offsets s f l)) offsets_step
             (account_sample im f l b c).
Proof.
  unfold account_sample.
  apply steps_from_bind;
    [exact _ | intros; eapply known_stable; eassumption | | intro v].
  { intros s Hs. apply samples_getitem_offsets. exact Hs. }
  apply steps_from_bind;
    [exact _ | intros; eapply known_stable; eassumption | | intros _].
  { intros s Hs. apply samples_setitem_offsets. exact Hs. }
  apply steps_from_weaken, steps_same_offsets. offsets_steps.
Qed.

Lemma touch_samples_offsets im f l s :
  same_offsets s
    (set_samples_table im (snd (dd_getitem2 [] (samples_table im s) f l)) s).
Proof.
  split.
  - intros im' f' l'. unfold sampled_offsets.
    destruct im, im'; cbn; rewrite ?lookup2_getitem2; reflexivity.
  - intros f' l'. destruct im; reflexivity.
Qed.

Lemma alloc_handler_helper_offsets `{Runtime} f l b im :
  steps_from (fun s => In b (known_offsets s f l)) offsets_step
             (alloc_handler_helper f l b im).
Proof.
  intros s Hs.
  pose proof (touch_samples_offsets im f l s) as Htouch.
  destruct (bridge_file im s) as [lines|] eqn:Hf.
  - rewrite (alloc_handler_helper_present _ _ _ _ _ Hf). cbn [st].
    set (s0 := set_samples_table im _ s) in *.
    set (s1 := st (for_each _ _ s0)).
    assert (H01 : offsets_step s0 s1).
    { subst s1. apply (@steps_from_for_each
                         (fun s => In b (known_offsets s f l)) offsets_step _).
      - intros; eapply known_stable; eassumption.
      - intros c _. apply account_sample_offsets.
      - destruct Htouch as [_ Hk]. rewrite <- Hk. exact Hs. }
    set (s2 := if (_ =? _)%nat then set_bridge_file im None s1 else s1).
    assert (H12 : same_offsets s1 s2).
    { subst s2. destruct (_ =? _)%nat; [|reflexivity].
      split; intros; destruct im; try reflexivity;
        match goal with b' : bool |- _ => destruct b'; reflexivity end. }
    assert (H2 : offsets_step s s2).
    { etransitivity; [apply same_offsets_step, Htouch|].
      etransitivity; [exact H01 | apply same_offsets_step, H12]. }
    destruct lines; [exact H2|].
    etransitivity; [exact H2|]. apply same_offsets_step.
    split; intros; destruct im; try reflexivity;
      match goal with b' : bool |- _ => destruct b'; reflexivity end.
  - rewrite (alloc_handler_helper_missing _ _ _ _ _ Hf). cbn [st].
    apply same_offsets_step, Htouch.
Qed.

Lemma allocation_handler_offsets `{Runtime} frame :
  steps offsets_step (allocation_handler frame).
Proof.
  unfold allocation_handler.
  apply steps_bind; [exact _ | apply steps_gets; exact _ | intro pp].
  apply steps_bind; [exact _ | apply steps_lift; exact _ | intro traced].
  destruct (negb traced); [apply steps_ret; exact _|].
  set (f := co_filename (f_code frame)).
  set (l := f_lineno frame). set (b := f_lasti frame).
  apply steps_from_true.
  apply (steps_from_bind_val (fun _ => True)
           (fun known s => incl known (known_offsets s f l))); [exact _| |].
  { intros s _. apply bytei_getitem_known. }
  intro known.
  apply (steps_from_bind_val _ (fun (_ : unit) s => In b (known_offsets s f l)));
    [exact _| |].
  - intros s Hs. destruct (existsb (Z.eqb b) known) eqn:E; cbn [negb].
    + split; [reflexivity|]. intros _ _. cbn [ret st].
      apply existsb_exists in E. destruct E as [x [Hx Ex]].
      apply Z.eqb_eq in Ex. subst x. apply Hs, Hx.
    + rewrite (bind_ok (bytei_getitem f l) _ s (bytei_getitem_res f l s)
                       (bytei_getitem_log f l s)).
      cbn [modify st]. rewrite bytei_getitem_st.
      assert (Hk : forall f' l',
                 known_offsets
                   (set_bytei_map
                      (dd_setitem2
                         (bytei_map
                            (set_bytei_map (snd (dd_getitem2 [] (bytei_map s) f l)) s))
                         f l (known_offsets s f l ++ [b]))
                      (set_bytei_map (snd (dd_getitem2 [] (bytei_map s) f l)) s))
                   f' l'
                 = if keqb f f' && keqb l l'
                   then known_offsets s f l ++ [b]
                   else known_offsets s f' l').
      { intros f' l'. unfold known_offsets. cbn.
        rewrite lookup2_setitem2.
        destruct (_ && _); [reflexivity | apply lookup2_getitem2]. }
      split; [split|].
      * intros f' l' x Hx. rewrite Hk.
        destruct (keqb f f' && keqb l l') eqn:E'; [|exact Hx].
        apply andb_true_iff in E'. destruct E' as [E1 E2].
        apply keqb_true in E1, E2. subst f' l'. apply in_or_app. left. exact Hx.
      * intros im f' l' x Hx. left. destruct im; exact Hx.
      * intros _ _. rewrite Hk, !keqb_refl. cbn [andb].
        apply in_or_app. right. left. reflexivity.
  - intros _. apply steps_from_bind;
      [exact _ | intros; eapply known_stable; eassumption | | intros _];
      apply alloc_handler_helper_offsets.
Qed.

Lemma deliver_offsets `{Runtime} e : steps offsets_step (deliver e).
Proof.
  destruct e as [im lines|fr|fr|this others|]; cbn [deliver].
  - apply steps_same_offsets. unfold allocator_writes. offsets_steps.
  - destruct fr; cbn; [apply allocation_handler_offsets | apply steps_raise; exact _].
  - destruct fr; cbn; [apply allocation_handler_offsets | apply steps_raise; exact _].
  - apply cpu_signal_handler_offsets.
  - apply steps_bind; [exact _ | apply output_profiles_offsets
                      | intros; apply steps_ret; exact _].
Qed.

(** C7.  From the initial state, after any sequence of deliveries, every
    bytecode offset that is a key under the malloc samples or the free
    samples of a (file, line) is in [bytei_map] for that (file, line). *)
Theorem offsets_always_known `{Runtime} (path : string) (interval next : xfloat)
        (events : list event) :
  offsets_known (run events (initial path interval next)).
Proof.
  assert (Hrun : forall evs s, offsets_known s -> offsets_known (run evs s)).
  { induction evs as [|e evs IH]; intros s Hs; cbn [run]; [exact Hs|].
    apply IH. eapply offsets_step_known; [apply deliver_offsets | exact Hs]. }
  apply Hrun. intros im f l b Hb. destruct im; destruct Hb.
Qed.

Example offsets_known_sampled :
  let s := @run sample_runtime
             [AllocatorWrites true ["1048576" ++ newline]%string;
              MallocSignal (Some main_frame)]
             (initial "/home/u/proj" Inf Inf) in
  sampled_offsets true s "/home/u/proj/x.py" 3 = [12%Z]
  /\ known_offsets s "/home/u/proj/x.py" 3 = [12%Z].
Proof. split; reflexivity. Qed.

(** ** Sorting *)

From Stdlib Require Import Sorted Permutation Orders OrdersEx.

Section SortFacts.
Context {A : Type} (lt : A -> A -> bool).
Hypothesis lt_asym : forall x y, lt x y = true -> lt y x = false.


Lemma sort_insert_perm x l : Permutation (sort_insert lt x l) (x :: l).
Proof.
  induction l as [|y l IH]; cbn [sort_insert]; [reflexivity|].
  destruct (lt y x); [|reflexivity].
  etransitivity; [apply perm_skip, IH | apply perm_swap].
Qed.

Lemma list_sort_perm l : Permutation (list_sort lt l) l.
Proof.
  induction l as [|x l IH]; cbn [list_sort]; [reflexivity|].
  etransitivity; [apply sort_insert_perm | apply perm_skip, IH].
Qed.

Lemma list_sort_length l : length (list_sort lt l) = length l.
Proof. apply Permutation_length, list_sort_perm. Qed.

Lemma sort_insert_sorted x l :
  Sorted (fun x y => lt y x = false) l -> Sorted (fun x y => lt y x = false) (sort_insert lt x l).
Proof.
  induction 1 as [|y l Hs IH Hd]; cbn [sort_insert].
  - repeat constructor.
  - destruct (lt y x) eqn:E.
    + constructor; [exact IH|].
      destruct l as [|z l]; cbn [sort_insert].
      * constructor. apply lt_asym, E.
      * destruct (lt z x).
        -- constructor. inversion Hd. assumption.
        -- constructor. apply lt_asym, E.
    + constructor; [constructor; assumption|]. constructor. exact E.
Qed.

Lemma list_sort_sorted l : Sorted (fun x y => lt y x = false) (list_sort lt l).
Proof.
  induction l as [|x l IH]; cbn [list_sort]; [constructor|].
  apply sort_insert_sorted, IH.
Qed.

Lemma list_sort_of_sorted l : Sorted (fun x y => lt y x = false) l -> list_sort lt l = l.
Proof.
  induction 1 as [|x l Hs IH Hd]; cbn [list_sort]; [reflexivity|].
  rewrite IH. destruct Hd as [|y l Hxy]; cbn [sort_insert]; [reflexivity|].
  cbv beta in Hxy. rewrite Hxy. reflexivity.
Qed.

Lemma list_sort_idempotent l : list_sort lt (list_sort lt l) = list_sort lt l.
Proof. apply list_sort_of_sorted, list_sort_sorted. Qed.

End SortFacts.

Lemma item_lt_asym (a b : Q * Q) : item_lt a b = true -> item_lt b a = false.
Proof.
  unfold item_lt. rewrite <- (Qcompare_antisym (fst a) (fst b)).
  destruct (fst a ?= fst b); cbn [CompOpp]; try discriminate; [|reflexivity].
  intro H. apply Qltb_true in H. apply Qltb_false. apply Qlt_le_weak, H.
Qed.

Lemma ltb_asym (x y : string) : String.ltb x y = true -> String.ltb y x = false.
Proof.
  unfold String.ltb. rewrite (String.compare_antisym y x).
  destruct (String.compare x y); cbn [CompOpp]; congruence.
Qed.

Lemma ltb_trans (x y z : string) :
  String.ltb x y = true -> String.ltb y z = true -> String.ltb x z = true.
Proof.
  unfold String.ltb. intros H1 H2.
  destruct (String.compare x y) eqn:E1; try discriminate.
  destruct (String.compare y z) eqn:E2; try discriminate.
  assert (E3 : String.compare x z = Lt)
    by exact (@StrictOrder_Transitive _ _ String_as_OT.lt_strorder x y z E1 E2).
  rewrite E3. reflexivity.
Qed.

Lemma ltb_total (x y : string) :
  String.ltb x y = false -> String.ltb y x = false -> x = y.
Proof.
  unfold String.ltb. rewrite (String.compare_antisym y x).
  destruct (String.compare x y) eqn:E; cbn [CompOpp]; try discriminate.
  intros _ _. apply String.compare_eq_iff, E.
Qed.

(** Two duplicate-free lists of strings with the same elements sort to
    the same list. *)
Lemma sorted_strings_unique (l1 l2 : list string) :
  NoDup l1 -> NoDup l2 ->
  Sorted (fun x y => String.ltb y x = false) l1 ->
  Sorted (fun x y => String.ltb y x = false) l2 ->
  (forall x, In x l1 <-> In x l2) -> l1 = l2.
Proof.
  intros N1 N2 S1 S2.
  assert (Strict : forall l, NoDup l ->
             Sorted (fun x y => String.ltb y x = false) l ->
             StronglySorted (fun x y => String.ltb x y = true) l).
  { intros l N S. apply Sorted_StronglySorted.
    - intros a b c. apply ltb_trans.
    - induction S as [|a l S IH Hd]; [constructor|].
      inversion N; subst. constructor; [apply IH; assumption|].
      destruct Hd as [|b l Hab]; constructor.
      destruct (String.ltb a b) eqn:E; [reflexivity|].
      exfalso. assert (a = b) by (apply ltb_total; assumption). subst.
      match goal with Hn : ~ In _ _ |- _ => apply Hn; left; reflexivity end. }
  apply Strict in S1; [|exact N1]. apply Strict in S2; [|exact N2].
  clear N1 N2 Strict. revert l2 S2.
  induction S1 as [|a l1 S1 IH Ha]; intros l2 S2 Hin.
  - destruct l2 as [|b l2]; [reflexivity|].
    exfalso. apply (Hin b). left. reflexivity.
  - destruct l2 as [|b l2].
    { exfalso. apply (Hin a). left. reflexivity. }
    inversion S2 as [|? ? S2' Hb]. subst.
    assert (a = b).
    { destruct (proj1 (Hin a) (or_introl eq_refl)) as [Hab|Hab]; [auto|].
      destruct (proj2 (Hin b) (or_introl eq_refl)) as [Hba|Hba]; [auto|].
      rewrite Forall_forall in Ha, Hb.
      pose proof (Ha b Hba) as H1. pose proof (Hb a Hab) as H2.
      apply ltb_asym in H1. congruence. }
    subst b. f_equal. apply IH; [exact S2'|].
    rewrite Forall_forall in Ha, Hb.
    assert (Hirr : forall x, String.ltb x x = true -> False).
    { intros x Hx. pose proof (ltb_asym _ _ Hx). congruence. }
    intro x. split; intro Hx.
    + destruct (proj1 (Hin x) (or_intror Hx)) as [->|H']; [|exact H'].
      exfalso. exact (Hirr _ (Ha _ Hx)).
    + destruct (proj2 (Hin x) (or_intror Hx)) as [->|H']; [|exact H'].
      exfalso. exact (Hirr _ (Hb _ Hx)).
Qed.

Lemma distinct_in (l : list string) (x : string) : In x (distinct l) <-> In x l.
Proof.
  induction l as [|y l IH]; cbn [distinct]; [tauto|].
  destruct (existsb (String.eqb y) l) eqn:E.
  - rewrite IH. split; [intro Hx; right; exact Hx|].
    intros [Hy|Hx]; [|exact Hx]. subst x.
    apply existsb_exists in E. destruct E as [z [Hz Ez]].
    apply String.eqb_eq in Ez. subst z. exact Hz.
  - cbn [In]. rewrite IH. tauto.
Qed.

Lemma distinct_nodup (l : list string) : NoDup (distinct l).
Proof.
  induction l as [|y l IH]; cbn [distinct]; [constructor|].
  destruct (existsb (String.eqb y) l) eqn:E; [exact IH|].
  constructor; [|exact IH]. rewrite distinct_in. intro Hin.
  assert (existsb (String.eqb y) l = true); [|congruence].
  apply existsb_exists. exists y. split; [exact Hin | apply String.eqb_refl].
Qed.

Lemma sorted_files_same (s s' : Scalene) :
  (forall x, file_known s x <-> file_known s' x) ->
  list_sort String.ltb (all_instrumented_files s)
  = list_sort String.ltb (all_instrumented_files s').
Proof.
  intro Hsame. apply sorted_strings_unique.
  - eapply Permutation_NoDup; [symmetry; apply list_sort_perm|].
    apply distinct_nodup.
  - eapply Permutation_NoDup; [symmetry; apply list_sort_perm|].
    apply distinct_nodup.
  - apply list_sort_sorted, ltb_asym.
  - apply list_sort_sorted, ltb_asym.
  - intro x. split; intro Hx.
    + eapply Permutation_in; [symmetry; apply list_sort_perm|].
      apply Hsame. eapply Permutation_in; [apply list_sort_perm | exact Hx].
    + eapply Permutation_in; [symmetry; apply list_sort_perm|].
      apply Hsame. eapply Permutation_in; [apply list_sort_perm | exact Hx].
Qed.

(** ** Reading for a report *)

Lemma Qplus_0_r_eq (x : Q) : x + 0 = x.
Proof.
  destruct x as [a b]. unfold Qplus. cbn.
  rewrite Z.mul_1_r, Z.add_0_r, Pos.mul_1_r. reflexivity.
Qed.

Lemma dict_set_values_new {K V} `{Key K} (d : dict K V) k v :
  dict_find d k = None -> dict_values (dict_set d k v) = dict_values d ++ [v].
Proof.
  induction d as [|[k0 v0] d IH]; cbn; [reflexivity|].
  destruct (keqb k0 k); [discriminate|]. intro Hf. cbn.
  unfold dict_values in IH. rewrite (IH Hf). reflexivity.
Qed.

Lemma py_sum_getitem (inner : dict Z Q) (l : Z) :
  py_sum (dict_values (snd (dd_getitem 0 inner l))) = py_sum (dict_values inner).
Proof.
  unfold dd_getitem. destruct (dict_find inner l) eqn:E; cbn [snd]; [reflexivity|].
  rewrite (dict_set_values_new _ _ _ E). unfold py_sum.
  rewrite fold_left_app. cbn [fold_left]. apply Qplus_0_r_eq.
Qed.

Lemma file_sum_getitem2 (d : dict string (dict Z Q)) f l f' :
  py_sum (dict_values (lookup [] (snd (dd_getitem2 0 d f l)) f'))
  = py_sum (dict_values (lookup [] d f')).
Proof.
  unfold dd_getitem2.
  pose proof (dd_getitem_fst (@nil (Z * Q)) d f) as H1.
  pose proof (dd_getitem_lookup (@nil (Z * Q)) d f f') as H1'.
  destruct (dd_getitem [] d f) as [inner d1]. simpl in H1, H1'. subst inner.
  pose proof (py_sum_getitem (lookup [] d f) l) as H2.
  destruct (dd_getitem 0 (lookup [] d f) l) as [v inner']. cbn [snd] in *.
  rewrite lookup_set. destruct (keqb f f') eqn:E.
  - apply keqb_true in E. subst f'. exact H2.
  - rewrite H1'. reflexivity.
Qed.

Lemma same_counters_sym s s' : same_counters s s' -> same_counters s' s.
Proof.
  intros (A1 & A2 & A3 & A4 & A5 & A6 & A7 & A8). unfold same_counters.
  repeat split; intros; symmetry; auto.
Qed.

#[export] Instance same_report_equiv : Equivalence same_report.
Proof.
  split.
  - intro s. unfold same_report. repeat split; reflexivity.
  - intros a b (H1 & H2 & H3 & H4 & H5 & H6). unfold same_report.
    split; [apply same_counters_sym, H1|]. repeat split; intros; symmetry; auto.
  - intros a b c (A1 & A2 & A3 & A4 & A5 & A6) (B1 & B2 & B3 & B4 & B5 & B6).
    unfold same_report. split; [etransitivity; eassumption|].
    repeat split; intros; congruence.
Qed.

Ltac report_views :=
  repeat match goal with b : bool |- _ => destruct b end;
  unfold file_sum, known_offsets, line_sorted, footprint_sorted; cbn;
  rewrite ?lookup2_getitem2, ?file_sum_getitem2, ?dd_getitem_lookup;
  reflexivity.

Ltac report_prim counters :=
  let s := fresh "s" in
  intro s; split; [apply counters|];
  repeat match goal with b : bool |- _ => destruct b end;
  repeat split; intros; report_views.

Lemma samples_getitem_report im f l b : steps same_report (samples_getitem im f l b).
Proof. report_prim samples_getitem_counters. Qed.

Lemma count_getitem_report im f l b : steps same_report (count_getitem im f l b).
Proof. report_prim count_getitem_counters. Qed.

Lemma cpu_getitem_report native f l : steps same_report (cpu_getitem native f l).
Proof. report_prim cpu_getitem_counters. Qed.

Lemma cpu_file_sum_report native f : steps same_report (cpu_file_sum native f).
Proof. report_prim cpu_file_sum_counters. Qed.

Lemma bytei_getitem_report f l : steps same_report (bytei_getitem f l).
Proof. report_prim bytei_getitem_counters. Qed.

Lemma per_line_getitem_report f l : steps same_report (per_line_getitem f l).
Proof. report_prim per_line_getitem_counters. Qed.

Lemma agrees_ret {A} (a : A) : agrees (ret a).
Proof. intros s1 s2 Hs. split; [|split]; [reflexivity.. | exact Hs]. Qed.

Lemma agrees_raise {A} (e : exn) : agrees (@raise A e).
Proof. intros s1 s2 Hs. split; [|split]; [reflexivity.. | exact Hs]. Qed.

Lemma agrees_print (p : printed) : agrees (print p).
Proof. intros s1 s2 Hs. split; [|split]; [reflexivity.. | exact Hs]. Qed.

Lemma agrees_lift {A} (r : result A) : agrees (lift r).
Proof. destruct r; [apply agrees_ret | apply agrees_raise]. Qed.

Lemma agrees_gets {A} (f : Scalene -> A) :
  (forall s1 s2, same_report s1 s2 -> f s1 = f s2) -> agrees (gets f).
Proof.
  intros Hf s1 s2 Hs. cbn. rewrite (Hf s1 s2 Hs). split; [|split]; [reflexivity.. | exact Hs].
Qed.

Lemma agrees_bind {A B} (m : M A) (k : A -> M B) :
  agrees m -> (forall a, agrees (k a)) -> agrees (bind m k).
Proof.
  intros Hm Hk s1 s2 Hs. destruct (Hm s1 s2 Hs) as (Hl & Hr & Hst).
  unfold bind. rewrite Hl, Hr. destruct (res (m s2)) as [a|e]; cbn.
  - destruct (Hk a _ _ Hst) as (Hl' & Hr' & Hst'). rewrite Hl', Hr'.
    split; [|split]; [reflexivity.. | exact Hst'].
  - split; [|split]; [reflexivity.. | exact Hst].
Qed.

Lemma agrees_for_each {X} (l : list X) (body : X -> M unit) :
  (forall x, agrees (body x)) -> agrees (for_each l body).
Proof.
  intro Hb. induction l as [|x l IH]; cbn [for_each].
  - apply agrees_ret.
  - apply agrees_bind; auto.
Qed.

Lemma agrees_for_fold {X Acc} (l : list X) (acc : Acc) (body : Acc -> X -> M Acc) :
  (forall a x, agrees (body a x)) -> agrees (for_fold l acc body).
Proof.
  intro Hb. revert acc. induction l as [|x l IH]; intro acc; cbn [for_fold].
  - apply agrees_ret.
  - apply agrees_bind; auto.
Qed.

Lemma agrees_reader {A} (m : M A) :
  steps same_report m ->
  (forall s1 s2, same_report s1 s2 ->
                 log (m s1) = log (m s2) /\ res (m s1) = res (m s2)) ->
  agrees m.
Proof.
  intros Hst Hrd s1 s2 Hs. destruct (Hrd s1 s2 Hs) as [Hl Hr].
  split; [exact Hl|]. split; [exact Hr|].
  etransitivity; [symmetry; apply Hst|]. etransitivity; [exact Hs | apply Hst].
Qed.

Lemma samples_getitem_agrees im f l b : agrees (samples_getitem im f l b).
Proof.
  apply agrees_reader; [apply samples_getitem_report|].
  intros s1 s2 (Hc & _). rewrite !samples_getitem_res, !samples_getitem_log.
  destruct Hc as (_ & Hv & _). rewrite Hv. auto.
Qed.

Lemma count_getitem_agrees im f l b : agrees (count_getitem im f l b).
Proof.
  apply agrees_reader; [apply count_getitem_report|].
  intros s1 s2 (Hc & _). rewrite !count_getitem_res, !count_getitem_log.
  destruct Hc as (_ & _ & Hv & _). rewrite Hv. auto.
Qed.

Lemma cpu_getitem_agrees native f l : agrees (cpu_getitem native f l).
Proof.
  apply agrees_reader; [apply cpu_getitem_report|].
  intros s1 s2 (Hc & _). rewrite !cpu_getitem_res, !cpu_getitem_log.
  destruct Hc as (Hv & _). rewrite Hv. auto.
Qed.

Lemma cpu_file_sum_agrees native f : agrees (cpu_file_sum native f).
Proof.
  apply agrees_reader; [apply cpu_file_sum_report|].
  intros s1 s2 (_ & Hv & _). rewrite !cpu_file_sum_res, !cpu_file_sum_log.
  specialize (Hv native f). unfold file_sum in Hv. rewrite Hv. auto.
Qed.

Lemma bytei_getitem_agrees f l : agrees (bytei_getitem f l).
Proof.
  apply agrees_reader; [apply bytei_getitem_report|].
  intros s1 s2 (_ & _ & Hv & _). rewrite !bytei_getitem_res, !bytei_getitem_log.
  rewrite Hv. auto.
Qed.

Lemma per_line_sort_report f l s :
  let r := lookup2 (new_reservoir 10) (per_line_footprint_samples s) f l in
  same_report s
    (st (per_line_update f l
           {| max_samples := max_samples r; total_samples := total_samples r;
              sample_array := list_sort item_lt (sample_array r) |} s)).
Proof.
  intro r. split; [apply per_line_update_counters|].
  repeat split; intros; try report_views.
  unfold line_sorted. cbn. rewrite lookup2_setitem2.
  destruct (keqb f f0 && keqb l l0) eqn:E; [|reflexivity].
  apply andb_true_iff in E. destruct E as [E1 E2].
  apply keqb_true in E1, E2. subst f0 l0. cbn [sample_array].
  symmetry. apply list_sort_idempotent, item_lt_asym.
Qed.

Lemma footprint_sort_report s :
  let r := memory_footprint_samples s in
  same_report s
    (set_memory_footprint_samples
       {| max_samples := max_samples r; total_samples := total_samples r;
          sample_array := list_sort item_lt (sample_array r) |} s).
Proof.
  intro r. split; [counters_goal|].
  repeat split; intros; try report_views.
  unfold footprint_sorted. cbn.
  symmetry. apply list_sort_idempotent, item_lt_asym.
Qed.

Lemma generate_sparkline_sorted (arr arr' : list (Q * Q)) (mn mx : Q) :
  list_sort item_lt arr = list_sort item_lt arr' ->
  generate_sparkline arr mn mx = generate_sparkline arr' mn mx
  /\ (0 <? length arr)%nat = (0 <? length arr')%nat.
Proof.
  intro Hs.
  assert (Hl : length arr = length arr').
  { rewrite <- (list_sort_length item_lt arr), Hs. apply list_sort_length. }
  unfold generate_sparkline. rewrite Hs, Hl. auto.
Qed.

Lemma line_block_run f l (row : pystr -> pystr) s :
  let r := lookup2 (new_reservoir 10) (per_line_footprint_samples s) f l in
  let s2 := st (per_line_getitem f l (st (per_line_getitem f l s))) in
  let s3 := st (per_line_update f l
                  {| max_samples := max_samples r; total_samples := total_samples r;
                     sample_array := fst (generate_sparkline (sample_array r) 0
                                            (max_footprint s)) |} s2) in
  (r <- per_line_getitem f l;;
   spark_string <-
     (if (0 <? length (reservoir_get r))%nat then
        r <- per_line_getitem f l;;
        mxf <- gets max_footprint;;
        (let '(arr, sp) := generate_sparkline (reservoir_get r) 0 mxf in
         per_line_update f l
           {| max_samples := max_samples r; total_samples := total_samples r;
              sample_array := arr |};;
         '(_, _, spark) <- lift sp;;
         ret spark)
      else ret []);;
   print (Out (row spark_string))) s
  = if (0 <? length (sample_array r))%nat then
      match snd (generate_sparkline (sample_array r) 0 (max_footprint s)) with
      | Ok (_, _, spark) => {| st := s3; log := [Out (row spark)]; res := Ok tt |}
      | Raise e => {| st := s3; log := []; res := Raise e |}
      end
    else {| st := st (per_line_getitem f l s); log := [Out (row [])]; res := Ok tt |}.
Proof.
  intros r s2 s3.
  rewrite (bind_ok (per_line_getitem f l) _ s (per_line_getitem_res f l s)
                   (per_line_getitem_log f l s)).
  fold r. unfold reservoir_get.
  destruct (0 <? length (sample_array r))%nat; [|reflexivity].
  rewrite bind_assoc.
  set (s1 := st (per_line_getitem f l s)).
  assert (Hr1 : lookup2 (new_reservoir 10) (per_line_footprint_samples s1) f l = r).
  { subst s1. rewrite per_line_getitem_st. cbn. apply lookup2_getitem2. }
  pose proof (per_line_getitem_res f l s1) as Hres. rewrite Hr1 in Hres.
  rewrite (bind_ok (per_line_getitem f l) _ s1 Hres (per_line_getitem_log f l s1)).
  rewrite bind_assoc, bind_gets.
  change (max_footprint (st (per_line_getitem f l s1))) with (max_footprint s).
  subst s3 s2. fold s1.
  destruct (generate_sparkline (sample_array r) 0 (max_footprint s))
    as [arr sp] eqn:Eg.
  cbn [fst snd].
  destruct sp as [[[mn mx] spark]|e]; reflexivity.
Qed.

Lemma line_block_agrees f l (row : pystr -> pystr) :
  agrees
    (r <- per_line_getitem f l;;
     spark_string <-
       (if (0 <? length (reservoir_get r))%nat then
          r <- per_line_getitem f l;;
          mxf <- gets max_footprint;;
          (let '(arr, sp) := generate_sparkline (reservoir_get r) 0 mxf in
           per_line_update f l
             {| max_samples := max_samples r; total_samples := total_samples r;
                sample_array := arr |};;
           '(_, _, spark) <- lift sp;;
           ret spark)
        else ret []);;
     print (Out (row spark_string))).
Proof.
  assert (Hstep : forall s,
             same_report s
               (st (per_line_update f l
                  {| max_samples :=
                       max_samples (lookup2 (new_reservoir 10)
                                            (per_line_footprint_samples s) f l);
                     total_samples :=
                       total_samples (lookup2 (new_reservoir 10)
                                              (per_line_footprint_samples s) f l);
                     sample_array :=
                       fst (generate_sparkline
                              (sample_array (lookup2 (new_reservoir 10)
                                               (per_line_footprint_samples s) f l))
                              0 (max_footprint s)) |}
                  (st (per_line_getitem f l (st (per_line_getitem f l s))))))).
  { intro s.
    set (s2 := st (per_line_getitem f l (st (per_line_getitem f l s)))).
    assert (H2 : same_report s s2).
    { etransitivity; [apply per_line_getitem_report|].
      apply per_line_getitem_report. }
    etransitivity; [exact H2|].
    assert (Hr : lookup2 (new_reservoir 10) (per_line_footprint_samples s2) f l
                 = lookup2 (new_reservoir 10) (per_line_footprint_samples s) f l).
    { subst s2. rewrite !per_line_getitem_st. cbn. rewrite !lookup2_getitem2.
      reflexivity. }
    rewrite <- Hr. apply per_line_sort_report. }
  intros sa sb Hs.
  rewrite !line_block_run.
  pose proof Hs as (Hc & Hf & Hk & Hl & Hrest).
  pose proof (Hl f l) as Hsorted. unfold line_sorted in Hsorted.
  assert (Hmax : max_footprint sa = max_footprint sb).
  { destruct Hc as (_ & _ & _ & _ & _ & _ & _ & Hm). exact Hm. }
  destruct (generate_sparkline_sorted _ _ 0 (max_footprint sa) Hsorted)
    as [Hg Hlen].
  pose proof (Hstep sa) as Ha. pose proof (Hstep sb) as Hb.
  rewrite <- Hmax, <- Hg in *. rewrite <- Hlen.
  destruct (0 <? length _)%nat.
  - destruct (snd (generate_sparkline _ 0 (max_footprint sa)))
      as [[[mn mx] spark]|e]; cbn [st log res];
      (split; [reflexivity|]; split; [reflexivity|]);
      (etransitivity; [symmetry; exact Ha|]);
      (etransitivity; [exact Hs | exact Hb]).
  - cbn [st log res]. split; [reflexivity|]. split; [reflexivity|].
    etransitivity; [symmetry; apply per_line_getitem_report|].
    etransitivity; [exact Hs | apply per_line_getitem_report].
Qed.

Lemma gets_counter_agrees :
  agrees (gets total_cpu_samples)
  /\ agrees (gets total_memory_malloc_samples)
  /\ agrees (gets total_memory_free_samples)
  /\ agrees (gets max_footprint)
  /\ agrees (gets elapsed_time).
Proof.
  split; [|split; [|split; [|split]]]; apply agrees_gets;
    intros s1 s2 ((_ & _ & _ & H4 & H5 & H6 & _ & H8) & _ & _ & _ & _ & H9);
    assumption.
Qed.

Lemma line_memory_index_agrees f l acc index :
  agrees (line_memory_index f l acc index).
Proof.
  unfold line_memory_index.
  repeat first
    [ simple apply agrees_ret
    | simple apply samples_getitem_agrees
    | simple apply count_getitem_agrees
    | simple apply agrees_bind; [|intros]
    | match goal with |- agrees (if ?b then _ else _) => destruct b end ].
Qed.

Lemma report_line_agrees `{Runtime} d f l line : agrees (report_line d f l line).
Proof.
  unfold report_line.
  apply agrees_bind; [apply cpu_getitem_agrees | intro n_c].
  apply agrees_bind; [apply cpu_getitem_agrees | intro n_py].
  apply agrees_bind; [apply gets_counter_agrees | intro total].
  apply agrees_bind; [apply bytei_getitem_agrees | intro known].
  apply agrees_bind;
    [apply agrees_for_fold; intros; apply line_memory_index_agrees | intro mem].
  apply agrees_bind; [apply gets_counter_agrees | intro total_malloc].
  destruct d.
  - apply line_block_agrees.
  - apply agrees_print.
Qed.

Lemma report_lines_agrees `{Runtime} d f lines l :
  agrees (report_lines d f l lines).
Proof.
  revert l. induction lines as [|line lines IH]; intro l; cbn [report_lines].
  - apply agrees_ret.
  - apply agrees_bind; [apply report_line_agrees | intro; apply IH].
Qed.

Lemma report_file_agrees `{Runtime} d f : agrees (report_file d f).
Proof.
  unfold report_file.
  apply agrees_bind; [apply cpu_file_sum_agrees | intro sum_c].
  apply agrees_bind; [apply cpu_file_sum_agrees | intro sum_py].
  apply agrees_bind; [apply gets_counter_agrees | intro total].
  apply agrees_bind; [apply gets_counter_agrees | intro elapsed].
  do 4 (apply agrees_bind; [apply agrees_print | intros _]).
  destruct (source_lines f) as [lines|]; [|apply agrees_raise].
  apply agrees_bind; [apply report_lines_agrees | intros _; apply agrees_print].
Qed.

Lemma line_block_steps f l (row : pystr -> pystr) :
  steps same_report
    (r <- per_line_getitem f l;;
     spark_string <-
       (if (0 <? length (reservoir_get r))%nat then
          r <- per_line_getitem f l;;
          mxf <- gets max_footprint;;
          (let '(arr, sp) := generate_sparkline (reservoir_get r) 0 mxf in
           per_line_update f l
             {| max_samples := max_samples r; total_samples := total_samples r;
                sample_array := arr |};;
           '(_, _, spark) <- lift sp;;
           ret spark)
        else ret []);;
     print (Out (row spark_string))).
Proof.
  intro s. rewrite line_block_run.
  destruct (0 <? length _)%nat; [|apply per_line_getitem_report].
  set (s2 := st (per_line_getitem f l (st (per_line_getitem f l s)))).
  assert (H2 : same_report s s2).
  { etransitivity; [apply per_line_getitem_report|].
    apply per_line_getitem_report. }
  assert (Hr : lookup2 (new_reservoir 10) (per_line_footprint_samples s2) f l
               = lookup2 (new_reservoir 10) (per_line_footprint_samples s) f l).
  { subst s2. rewrite !per_line_getitem_st. cbn. rewrite !lookup2_getitem2.
    reflexivity. }
  assert (H3 : same_report s
                 (st (per_line_update f l
                        {| max_samples :=
                             max_samples (lookup2 (new_reservoir 10)
                                            (per_line_footprint_samples s) f l);
                           total_samples :=
                             total_samples (lookup2 (new_reservoir 10)
                                              (per_line_footprint_samples s) f l);
                           sample_array :=
                             fst (generate_sparkline
                                    (sample_array
                                       (lookup2 (new_reservoir 10)
                                          (per_line_footprint_samples s) f l))
                                    0 (max_footprint s)) |} s2))).
  { etransitivity; [exact H2|]. rewrite <- Hr. apply per_line_sort_report. }
  destruct (snd (generate_sparkline _ 0 (max_footprint s)))
    as [[[mn mx] spark]|e]; exact H3.
Qed.

(** Lines 461-465: the summary of memory usage. *)
Lemma usage_block_run `{Runtime} (did : bool) s :
  let r := memory_footprint_samples s in
  let s1 := set_memory_footprint_samples
              {| max_samples := max_samples r; total_samples := total_samples r;
                 sample_array := fst (generate_sparkline (sample_array r) 0
                                        (max_footprint s)) |} s in
  (if did then
     r <- gets memory_footprint_samples;;
     (if (0 <? length (reservoir_get r))%nat then
        mxf <- gets max_footprint;;
        (let '(arr, sp) := generate_sparkline (reservoir_get r) 0 mxf in
         modify (set_memory_footprint_samples
                   {| max_samples := max_samples r;
                      total_samples := total_samples r;
                      sample_array := arr |});;
         '(_, mx, spark) <- lift sp;;
         print (Out (str_of "Memory usage: " ++ spark ++ str_of " (max: "
                     ++ fmt_float 6 2 mx ++ str_of "MB)")))
      else ret tt)
   else ret tt) s
  = if did && (0 <? length (sample_array r))%nat then
      match snd (generate_sparkline (sample_array r) 0 (max_footprint s)) with
      | Ok (_, mx, spark) =>
          {| st := s1;
             log := [Out (str_of "Memory usage: " ++ spark ++ str_of " (max: "
                          ++ fmt_float 6 2 mx ++ str_of "MB)")];
             res := Ok tt |}
      | Raise e => {| st := s1; log := []; res := Raise e |}
      end
    else {| st := s; log := []; res := Ok tt |}.
Proof.
  intros r s1. destruct did; [|reflexivity]. cbn [andb].
  rewrite bind_gets. fold r. unfold reservoir_get.
  destruct (0 <? length (sample_array r))%nat; [|reflexivity].
  rewrite bind_gets. subst s1.
  destruct (generate_sparkline (sample_array r) 0 (max_footprint s))
    as [arr sp] eqn:Eg.
  cbn [fst snd].
  destruct sp as [[[mn mx] spark]|e]; reflexivity.
Qed.

Lemma usage_block_reads `{Runtime} (did : bool) :
  steps same_report
    (if did then
       r <- gets memory_footprint_samples;;
       (if (0 <? length (reservoir_get r))%nat then
          mxf <- gets max_footprint;;
          (let '(arr, sp) := generate_sparkline (reservoir_get r) 0 mxf in
           modify (set_memory_footprint_samples
                     {| max_samples := max_samples r;
                        total_samples := total_samples r;
                        sample_array := arr |});;
           '(_, mx, spark) <- lift sp;;
           print (Out (str_of "Memory usage: " ++ spark ++ str_of " (max: "
                       ++ fmt_float 6 2 mx ++ str_of "MB)")))
        else ret tt)
     else ret tt)
  /\ agrees
    (if did then
       r <- gets memory_footprint_samples;;
       (if (0 <? length (reservoir_get r))%nat then
          mxf <- gets max_footprint;;
          (let '(arr, sp) := generate_sparkline (reservoir_get r) 0 mxf in
           modify (set_memory_footprint_samples
                     {| max_samples := max_samples r;
                        total_samples := total_samples r;
                        sample_array := arr |});;
           '(_, mx, spark) <- lift sp;;
           print (Out (str_of "Memory usage: " ++ spark ++ str_of " (max: "
                       ++ fmt_float 6 2 mx ++ str_of "MB)")))
        else ret tt)
     else ret tt).
Proof.
  assert (Hstep : steps same_report
            (if did then
               r <- gets memory_footprint_samples;;
               (if (0 <? length (reservoir_get r))%nat then
                  mxf <- gets max_footprint;;
                  (let '(arr, sp) := generate_sparkline (reservoir_get r) 0 mxf in
                   modify (set_memory_footprint_samples
                             {| max_samples := max_samples r;
                                total_samples := total_samples r;
                                sample_array := arr |});;
                   '(_, mx, spark) <- lift sp;;
                   print (Out (str_of "Memory usage: " ++ spark ++ str_of " (max: "
                               ++ fmt_float 6 2 mx ++ str_of "MB)")))
                else ret tt)
             else ret tt)).
  { intro s. rewrite usage_block_run.
    destruct (did && _); [|reflexivity].
    destruct (snd (generate_sparkline _ 0 (max_footprint s)))
      as [[[mn mx] spark]|e]; cbn [st]; apply footprint_sort_report. }
  split; [exact Hstep|].
  apply agrees_reader; [exact Hstep|].
  intros sa sb Hs. rewrite !usage_block_run.
  pose proof Hs as (Hc & _ & _ & _ & Hsorted & _).
  unfold footprint_sorted in Hsorted.
  assert (Hmax : max_footprint sa = max_footprint sb).
  { destruct Hc as (_ & _ & _ & _ & _ & _ & _ & Hm). exact Hm. }
  destruct (generate_sparkline_sorted _ _ 0 (max_footprint sa) Hsorted)
    as [Hg Hlen].
  rewrite <- Hmax, <- Hg, <- Hlen.
  destruct (did && _); [|auto].
  destruct (snd (generate_sparkline _ 0 (max_footprint sa)))
    as [[[mn mx] spark]|e]; auto.
Qed.

Ltac report_steps :=
  repeat first
    [ simple apply steps_ret; exact _ | simple apply steps_raise; exact _
    | simple apply steps_gets; exact _ | simple apply steps_print; exact _
    | simple apply steps_lift; exact _
    | simple apply samples_getitem_report | simple apply count_getitem_report
    | simple apply cpu_getitem_report | simple apply cpu_file_sum_report
    | simple apply bytei_getitem_report | simple apply line_block_steps
    | simple apply steps_for_each; [exact _ | intros]
    | simple apply steps_for_fold; [exact _ | intros]
    | simple apply steps_bind; [exact _ | | intros]
    | match goal with
      | |- steps _ (if ?b then _ else _) => destruct b
      | |- steps _ (match ?x with _ => _ end) => destruct x
      end ].

Lemma report_line_reads `{Runtime} d f l line :
  steps same_report (report_line d f l line).
Proof.
  unfold report_line.
  apply steps_bind; [exact _ | apply cpu_getitem_report | intro n_c].
  apply steps_bind; [exact _ | apply cpu_getitem_report | intro n_py].
  apply steps_bind; [exact _ | apply steps_gets; exact _ | intro total].
  apply steps_bind; [exact _ | apply bytei_getitem_report | intro known].
  apply steps_bind; [exact _ | | intro mem].
  { apply steps_for_fold; [exact _|]. intros acc index.
    unfold line_memory_index. report_steps. }
  apply steps_bind; [exact _ | apply steps_gets; exact _ | intro total_malloc].
  destruct d; [apply line_block_steps | apply steps_print; exact _].
Qed.

Lemma report_lines_reads `{Runtime} d f lines l :
  steps same_report (report_lines d f l lines).
Proof.
  revert l. induction lines as [|line lines IH]; intro l; cbn [report_lines].
  - apply steps_ret; exact _.
  - apply steps_bind; [exact _ | apply report_line_reads | intro; apply IH].
Qed.

Lemma report_file_reads `{Runtime} d f : steps same_report (report_file d f).
Proof.
  unfold report_file. report_steps. apply report_lines_reads.
Qed.

(** ** The instrumented files *)

Lemma dd_getitem_keys {K V} `{Key K} (dflt : V) (d : dict K V) k x :
  In x (dict_keys (snd (dd_getitem dflt d k))) <-> In x (dict_keys d) \/ x = k.
Proof.
  unfold dd_getitem. destruct (dict_find d k) eqn:E; cbn [snd].
  - split; [auto|]. intros [Hx| ->]; [exact Hx|].
    apply dict_find_keys. congruence.
  - rewrite dict_set_keys, E, in_app_iff. cbn [In]. split.
    + intros [Hx|[Hx|[]]]; auto.
    + intros [Hx|Hx]; auto.
Qed.

Lemma dict_set_keys_iff {K V} `{Key K} (d : dict K V) k v x :
  In x (dict_keys (dict_set d k v)) <-> In x (dict_keys d) \/ x = k.
Proof.
  rewrite dict_set_keys. destruct (dict_find d k) eqn:E.
  - split; [auto|]. intros [Hx| ->]; [exact Hx|].
    apply dict_find_keys. congruence.
  - rewrite in_app_iff. cbn [In]. split.
    + intros [Hx|[Hx|[]]]; auto.
    + intros [Hx|Hx]; auto.
Qed.

Lemma dd_getitem2_keys {V} (dflt : V) (d : dict string (dict Z V)) f l x :
  In x (dict_keys (snd (dd_getitem2 dflt d f l))) <-> In x (dict_keys d) \/ x = f.
Proof.
  unfold dd_getitem2.
  pose proof (dd_getitem_keys (@nil (Z * V)) d f x) as H1.
  destruct (dd_getitem [] d f) as [inner d1]. cbn [snd] in H1.
  destruct (dd_getitem dflt inner l) as [v inner']. cbn [snd].
  rewrite dict_set_keys_iff, H1. tauto.
Qed.

Lemma dd_setitem2_keys {V} (d : dict string (dict Z V)) f l (v : V) x :
  In x (dict_keys (dd_setitem2 d f l v)) <-> In x (dict_keys d) \/ x = f.
Proof.
  unfold dd_setitem2.
  pose proof (dd_getitem_keys (@nil (Z * V)) d f x) as H1.
  destruct (dd_getitem [] d f) as [inner d1]. cbn [snd] in H1.
  rewrite dict_set_keys_iff, H1. tauto.
Qed.

Lemma dd_getitem3_keys {V} (dflt : V) (d : dict string (dict Z (dict Z V))) f l b x :
  In x (dict_keys (snd (dd_getitem3 dflt d f l b)))
  <-> In x (dict_keys d) \/ x = f.
Proof.
  unfold dd_getitem3.
  pose proof (dd_getitem2_keys (@nil (Z * V)) d f l x) as H1.
  destruct (dd_getitem2 [] d f l) as [inner d1]. cbn [snd] in H1.
  destruct (dd_getitem dflt inner b) as [v inner']. cbn [snd].
  rewrite dd_setitem2_keys, H1. tauto.
Qed.

Lemma file_known_iff s x :
  file_known s x
  <-> In x (dict_keys (cpu_samples_python s)) \/ In x (dict_keys (cpu_samples_c s))
      \/ In x (dict_keys (memory_free_samples s))
      \/ In x (dict_keys (memory_malloc_samples s)).
Proof.
  unfold file_known, all_instrumented_files.
  rewrite distinct_in, !in_app_iff. tauto.
Qed.

#[export] Instance files_step_preorder F : PreOrder (files_step F).
Proof.
  split.
  - intro s. split; auto.
  - intros a b c [A1 A2] [B1 B2]. split.
    + intros x Hx. apply B1, A1, Hx.
    + intros x Hx. destruct (B2 x Hx) as [Hb|Hb]; [|auto]. apply A2, Hb.
Qed.

Ltac files_same :=
  let s := fresh "s" in
  intro s;
  repeat match goal with b : bool |- _ => destruct b end;
  (split; intros x Hx; [|left]; rewrite file_known_iff in *; exact Hx).

Ltac files_goal :=
  let x := fresh "x" in
  let Hx := fresh "Hx" in
  split; intros x Hx; rewrite file_known_iff in *;
  cbn [cpu_samples_python cpu_samples_c memory_malloc_samples memory_free_samples
       set_cpu_samples_python set_cpu_samples_c set_memory_malloc_samples
       set_memory_malloc_count set_memory_free_samples set_memory_free_count
       set_bytei_map set_per_line_footprint_samples samples_table set_samples_table
       count_table set_count_table] in *;
  rewrite ?dd_getitem3_keys, ?dd_getitem2_keys, ?dd_getitem_keys in *;
  try tauto;
  repeat match goal with
         | H : _ \/ _ |- _ => destruct H
         end;
  subst; try rewrite file_known_iff; tauto.

Lemma cpu_getitem_files F native f l :
  In f F -> steps (files_step F) (cpu_getitem native f l).
Proof.
  intros Hf s. rewrite cpu_getitem_st. destruct native; files_goal.
Qed.

Lemma cpu_file_sum_files F native f :
  In f F -> steps (files_step F) (cpu_file_sum native f).
Proof.
  intros Hf s. rewrite cpu_file_sum_st. destruct native; files_goal.
Qed.

Lemma samples_getitem_files F im f l b :
  In f F -> steps (files_step F) (samples_getitem im f l b).
Proof.
  intros Hf s. rewrite samples_getitem_st. destruct im; files_goal.
Qed.

Lemma count_getitem_files F im f l b : steps (files_step F) (count_getitem im f l b).
Proof.
  intro s. unfold count_getitem. cbn [st]. destruct im; files_goal.
Qed.

Lemma bytei_getitem_files F f l : steps (files_step F) (bytei_getitem f l).
Proof.
  intro s. unfold bytei_getitem. cbn [st]. files_goal.
Qed.

Lemma per_line_getitem_files F f l : steps (files_step F) (per_line_getitem f l).
Proof.
  intro s. unfold per_line_getitem. cbn [st]. files_goal.
Qed.

Lemma per_line_update_files F f l r : steps (files_step F) (per_line_update f l r).
Proof.
  intro s. unfold per_line_update, modify. cbn [st]. files_goal.
Qed.

Lemma footprint_update_files F r :
  steps (files_step F) (modify (set_memory_footprint_samples r)).
Proof.
  intro s. unfold modify. cbn [st]. files_goal.
Qed.

Ltac files_steps :=
  repeat first
    [ simple apply steps_ret; exact _ | simple apply steps_raise; exact _
    | simple apply steps_gets; exact _ | simple apply steps_print; exact _
    | simple apply steps_lift; exact _
    | simple apply samples_getitem_files; assumption
    | simple apply count_getitem_files
    | simple apply cpu_getitem_files; assumption
    | simple apply cpu_file_sum_files; assumption
    | simple apply bytei_getitem_files | simple apply per_line_getitem_files
    | simple apply per_line_update_files | simple apply footprint_update_files
    | simple apply steps_for_each; [exact _ | intros]
    | simple apply steps_for_fold; [exact _ | intros]
    | simple apply steps_bind; [exact _ | | intros]
    | match goal with
      | |- steps _ (if ?b then _ else _) => destruct b
      | |- steps _ (let '(_, _) := ?x in _) => destruct x
      | |- steps _ (match ?x with _ => _ end) => destruct x
      end ].

Lemma report_line_files `{Runtime} F d f l line :
  In f F -> steps (files_step F) (report_line d f l line).
Proof.
  intro Hf. unfold report_line, line_memory_index. files_steps.
Qed.

Lemma report_lines_files `{Runtime} F d f lines l :
  In f F -> steps (files_step F) (report_lines d f l lines).
Proof.
  intro Hf. revert l. induction lines as [|line lines IH]; intro l; cbn [report_lines].
  - apply steps_ret; exact _.
  - apply steps_bind; [exact _ | apply report_line_files; exact Hf | intro; apply IH].
Qed.

Lemma report_file_files `{Runtime} F d f :
  In f F -> steps (files_step F) (report_file d f).
Proof.
  intro Hf. unfold report_file. files_steps. apply report_lines_files; exact Hf.
Qed.

(** ** Reporting twice *)

Lemma output_profiles_run `{Runtime} (s : Scalene) :
  output_profiles s
  = if nothing_sampled s then {| st := s; log := []; res := Ok false |}
    else report_of (did_sample_memory s)
                   (list_sort String.ltb (all_instrumented_files s)) s.
Proof.
  unfold output_profiles, nothing_sampled, did_sample_memory, report_of.
  rewrite !bind_gets.
  destruct (_ && _); [reflexivity|].
  rewrite bind_gets. reflexivity.
Qed.

Lemma report_of_agrees `{Runtime} did files : agrees (report_of did files).
Proof.
  unfold report_of.
  apply agrees_bind; [apply (proj2 (usage_block_reads did))|intros _].
  apply agrees_bind; [|intros _; apply agrees_ret].
  apply agrees_for_each. intro f. apply report_file_agrees.
Qed.

Lemma report_of_reads `{Runtime} did files : steps same_report (report_of did files).
Proof.
  unfold report_of.
  apply steps_bind; [exact _ | apply (proj1 (usage_block_reads did)) | intros _].
  apply steps_bind; [exact _ | | intros _; apply steps_ret; exact _].
  apply steps_for_each; [exact _|]. intro f. apply report_file_reads.
Qed.

Lemma report_of_files `{Runtime} F did files :
  incl files F -> steps (files_step F) (report_of did files).
Proof.
  intro Hin. unfold report_of.
  apply steps_bind; [exact _ | | intros _].
  { files_steps. }
  apply steps_bind; [exact _ | | intros _; apply steps_ret; exact _].
  induction files as [|f files IH]; cbn [for_each].
  - apply steps_ret; exact _.
  - apply steps_bind; [exact _ | | intros _].
    + apply report_file_files. apply Hin. left. reflexivity.
    + apply IH. intros x Hx. apply Hin. right. exact Hx.
Qed.

Lemma output_profiles_reads `{Runtime} : steps same_report output_profiles.
Proof.
  intro s. rewrite output_profiles_run.
  destruct (nothing_sampled s); [reflexivity | apply report_of_reads].
Qed.

Lemma output_profiles_files `{Runtime} (s : Scalene) x :
  file_known s x <-> file_known (st (output_profiles s)) x.
Proof.
  rewrite output_profiles_run.
  destruct (nothing_sampled s); [reflexivity|].
  destruct (@report_of_files _ (all_instrumented_files s) (did_sample_memory s)
              (list_sort String.ltb (all_instrumented_files s))) with (s := s)
    as [Hkeep Hnew].
  { intros y Hy. eapply Permutation_in; [apply list_sort_perm | exact Hy]. }
  split; [apply Hkeep|]. intro Hx. destruct (Hnew x Hx) as [Hk|Hk]; exact Hk.
Qed.

Lemma same_report_decides (s s' : Scalene) :
  same_report s s' ->
  nothing_sampled s = nothing_sampled s'
  /\ did_sample_memory s = did_sample_memory s'.
Proof.
  intros ((_ & _ & _ & Hc & Hm & Hf & _) & _).
  unfold nothing_sampled, did_sample_memory. rewrite Hc, Hm, Hf. split; reflexivity.
Qed.

(** C9.  Calling [output_profiles] a second time from the state the first
    call leaves (no signal delivered in between, the source files as they
    were) prints what the first call printed, line for line, and returns or
    raises what the first call did: the entries that the first call's
    reads insert into the tables and its in-place sorts of the reservoirs
    change nothing that a report reads. *)
Theorem report_twice `{Runtime} (s : Scalene) :
  log (output_profiles (st (output_profiles s))) = log (output_profiles s)
  /\ res (output_profiles (st (output_profiles s))) = res (output_profiles s).
Proof.
  pose proof (output_profiles_reads s) as Hsame.
  pose proof (@sorted_files_same _ _ (output_profiles_files s)) as Hfiles.
  destruct (same_report_decides Hsame) as [Hnone Hdid].
  rewrite (output_profiles_run (st (output_profiles s))).
  rewrite <- Hnone, <- Hdid, <- Hfiles.
  pose proof (output_profiles_run s) as Hrun.
  destruct (nothing_sampled s).
  - rewrite Hrun. split; reflexivity.
  - destruct (report_of_agrees (did_sample_memory s)
                (list_sort String.ltb (all_instrumented_files s)) Hsame)
      as (Hl & Hr & _).
    rewrite <- Hrun in Hl, Hr. split; symmetry; assumption.
Qed.

Example report_twice_sampled :
  let line := {| max_samples := 10; total_samples := 2;
                 sample_array := [(2, 1); (1, 3)] |} in
  let s := set_per_line_footprint_samples [("/home/u/proj/x.py"%string, [(3%Z, line)])]
             (@run listing_runtime
                [AllocatorWrites true ["1048576" ++ newline]%string;
                 MallocSignal (Some main_frame); CpuSignal (Some main_frame) []]
                (initial "/home/u/proj"%string Inf Inf)) in
  let o1 := @output_profiles listing_runtime s in
  let o2 := @output_profiles listing_runtime (st o1) in
  map sample_array
      (dict_values (lookup [] (per_line_footprint_samples (st o1)) "/home/u/proj/x.py"%string))
  = [[(1, 3); (2, 1)]; []; []; []]
  /\ dict_keys (lookup [] (bytei_map s) "/home/u/proj/x.py"%string) = [3%Z]
  /\ dict_keys (lookup [] (bytei_map (st o1)) "/home/u/proj/x.py"%string) = [3; 1; 2; 4]%Z
  /\ length (log o1) = 9%nat /\ res o1 = Ok true
  /\ log o2 = log o1 /\ res o2 = res o1.
Proof. vm_compute. repeat split; reflexivity. Qed.

(** * Further properties *)

(** ** Sparkline (lines 144-162) *)

Lemma bar_increasing (i j : Z) :
  (0 <= i <= j)%Z -> (j <= 7)%Z ->
  (nth (Z.to_nat i) bar 0 <= nth (Z.to_nat j) bar 0)%N.
Proof.
  intros [Hi Hij] Hj.
  assert (Hc : forall k, (0 <= k <= 7)%Z ->
                         nth (Z.to_nat k) bar 0%N = (9601 + Z.to_N k)%N).
  { intros k Hk.
    assert (k = 0 \/ k = 1 \/ k = 2 \/ k = 3 \/ k = 4 \/ k = 5 \/ k = 6 \/ k = 7)%Z
      as Hcases by lia.
    repeat (destruct Hcases as [->|Hcases]; [reflexivity|]). subst k. reflexivity. }
  rewrite !Hc by lia. lia.
Qed.

Lemma Forall2_nth_error {A B} (P : A -> B -> Prop) l l' i a b :
  Forall2 P l l' -> nth_error l i = Some a -> nth_error l' i = Some b -> P a b.
Proof.
  intro H. revert i. induction H as [|x y l l' Hxy _ IH]; intros [|i] Ha Hb;
    try discriminate.
  - cbn in Ha, Hb. injection Ha as <-. injection Hb as <-. exact Hxy.
  - cbn in Ha, Hb. eapply IH; eassumption.
Qed.

Lemma sparkline_chars numbers fixed_min fixed_max mn mx s :
  sparkline numbers fixed_min fixed_max = Ok (mn, mx, s) ->
  Forall2 (fun n c => getitem bar (sparkline_index mn (sparkline_extent mn mx) n)
                      = Ok c) numbers s.
Proof.
  intro H. apply sparkline_unfold in H. destruct H as (_ & _ & H).
  apply rmap_ok in H. exact H.
Qed.

Lemma sparkline_extent_lt (mn mx : Q) : mn < mx -> sparkline_extent mn mx = mx - mn.
Proof.
  intro H. destruct (sparkline_extent_cases mn mx) as [[H0 _]|[_ He]]; [lra|exact He].
Qed.

(** X1.  Between the bounds the drawing is monotone: when [sparkline]
    returns with [min < max], a number that is not below [min] never gets
    a higher bar than a number that is at least as large. *)
Theorem sparkline_monotone (numbers : list Q) (fixed_min fixed_max mn mx : Q)
        (s : pystr) (i j : nat) (n1 n2 : Q) (c1 c2 : N) :
  sparkline numbers fixed_min fixed_max = Ok (mn, mx, s) ->
  mn < mx ->
  nth_error numbers i = Some n1 -> nth_error s i = Some c1 ->
  nth_error numbers j = Some n2 -> nth_error s j = Some c2 ->
  mn <= n1 -> n1 <= n2 ->
  (c1 <= c2)%N.
Proof.
  intros Hs Hlt Hn1 Hc1 Hn2 Hc2 Hmn Hle.
  pose proof Hs as Hall. apply sparkline_chars in Hall.
  pose proof (@Forall2_nth_error _ _ _ _ _ _ _ _ Hall Hn1 Hc1) as H1. cbn beta in H1.
  pose proof (@Forall2_nth_error _ _ _ _ _ _ _ _ Hall Hn2 Hc2) as H2. cbn beta in H2.
  assert (He : 0 < sparkline_extent mn mx) by (apply sparkline_extent_pos; lra).
  assert (Hq : (n1 - mn) / sparkline_extent mn mx * 8
               <= (n2 - mn) / sparkline_extent mn mx * 8).
  { apply Qmult_le_compat_r; [|discriminate].
    unfold Qdiv. apply Qmult_le_compat_r; [lra|].
    apply Qlt_le_weak, Qinv_lt_0_compat, He. }
  apply Qfloor_resp_le in Hq.
  rewrite (@sparkline_bar_ok mn _ n1) in H1 by (assumption || lra).
  rewrite (@sparkline_bar_ok mn _ n2) in H2 by (assumption || lra).
  assert (E1 : c1 = nth (Z.to_nat (clamp 0 7
                 (Qfloor ((n1 - mn) / sparkline_extent mn mx * 8)))) bar 0%N)
    by congruence.
  assert (E2 : c2 = nth (Z.to_nat (clamp 0 7
                 (Qfloor ((n2 - mn) / sparkline_extent mn mx * 8)))) bar 0%N)
    by congruence.
  rewrite E1, E2.
  apply bar_increasing; unfold clamp; lia.
Qed.

Lemma sparkline_monotone_witness :
  sparkline [0; 1 # 4; 1 # 2] (-1) (-1) = Ok (0, 1 # 2, [9601; 9605; 9608]%N)
  /\ (9605 <= 9608)%N.
Proof.
  split; [reflexivity|].
  apply (@sparkline_monotone [0; 1 # 4; 1 # 2] (-1) (-1) 0 (1 # 2)
           [9601; 9605; 9608]%N 1 2 (1 # 4) (1 # 2));
    try reflexivity; lra.
Defined.







Lemma py_int_zero (q : Q) : q == 0 -> py_int q = 0%Z.
Proof.
  destruct q as [n d]. unfold Qeq, py_int. cbn [Qnum Qden]. intro Hq.
  assert (n = 0)%Z as -> by lia. reflexivity.
Qed.

Lemma bar_at_min (mn extent n : Q) :
  n == mn -> getitem bar (sparkline_index mn extent n) = Ok 9601%N.
Proof.
  intro Hn. unfold sparkline_index. rewrite py_int_zero; [reflexivity|].
  rewrite Hn. unfold Qdiv. setoid_replace (mn - mn) with 0 by ring. ring.
Qed.

Lemma bar_at_max (mn mx n : Q) :
  mn < mx -> mx <= n ->
  getitem bar (sparkline_index mn (sparkline_extent mn mx) n) = Ok 9608%N.
Proof.
  intros Hlt Hge.
  assert (He : 0 < sparkline_extent mn mx) by (apply sparkline_extent_pos; lra).
  rewrite (@sparkline_bar_ok mn _ n) by (assumption || lra).
  assert (Hq : 8 <= (n - mn) / sparkline_extent mn mx * 8).
  { rewrite (sparkline_extent_lt Hlt).
    setoid_replace 8 with (1 * 8) at 1 by ring.
    apply Qmult_le_compat_r; [|discriminate].
    apply Qle_shift_div_l; lra. }
  apply Qfloor_resp_le in Hq. change (Qfloor 8) with 8%Z in Hq.
  replace (clamp 0 7 (Qfloor ((n - mn) / sparkline_extent mn mx * 8))) with 7%Z
    by (unfold clamp; lia).
  reflexivity.
Qed.

(** X3.  Whenever [sparkline] returns, a number equal to the minimum is
    drawn with the lowest bar, and, when [min < max], every number at or
    above the maximum is drawn with the full block: values beyond a given
    maximum saturate. *)
Theorem sparkline_extremes (numbers : list Q) (fixed_min fixed_max mn mx : Q)
        (s : pystr) :
  sparkline numbers fixed_min fixed_max = Ok (mn, mx, s) ->
  Forall2 (fun n c => (n == mn -> c = 9601%N)
                      /\ (mn < mx -> mx <= n -> c = 9608%N)) numbers s.
Proof.
  intro Hs. apply sparkline_chars in Hs.
  eapply Forall2_impl; [|exact Hs]. cbn beta. intros n c Hc. split.
  - intro Hn. rewrite (bar_at_min _ Hn) in Hc. congruence.
  - intros Hlt Hge. rewrite (bar_at_max Hlt Hge) in Hc. congruence.
Qed.

Lemma sparkline_extremes_witness :
  Forall2 (fun n c => (n == 0 -> c = 9601%N)
                      /\ (0 < 4 -> 4 <= n -> c = 9608%N))
          [0; 5; 4] [9601; 9608; 9608]%N.
Proof.
  apply (@sparkline_extremes [0; 5; 4] 0 4 0 4 [9601; 9608; 9608]%N).
  reflexivity.
Defined.

(** ** [generate_sparkline] (lines 437-447) *)





(** ** The file filter (lines 397-410) *)

Lemma contains_prefix (p s : string) : String.prefix p s = true -> contains p s = true.
Proof.
  intro Hp. destruct s; cbn [contains]; rewrite Hp; reflexivity.
Qed.

Lemma prefix_app_l (a b s : string) :
  String.prefix (a ++ b) s = true -> String.prefix a s = true.
Proof.
  revert s. induction a as [|c a IH]; intros s Hp; [destruct s; reflexivity|].
  destruct s as [|c' s]; [discriminate|]. cbn in Hp |- *.
  destruct (ascii_dec c c'); [apply IH; exact Hp | discriminate].
Qed.

Lemma contains_empty (s : string) : contains "" s = true.
Proof. destruct s; reflexivity. Qed.

Lemma should_trace_run `{Runtime} (pp : string) (c : ascii) (rest : string) :
  should_trace pp (String c rest)
  = if internal_name (String c rest) then Ok false
    else Ok (contains pp (abspath (String c rest))).
Proof.
  unfold should_trace, internal_name. cbn [rbind].
  replace (String.prefix "<" (String c rest)) with (Ascii.eqb c "<").
  - destruct (Ascii.eqb c "<" || _ || _)%bool; [reflexivity|].
    cbn [orb]. destruct (contains "scalene.py" _); reflexivity.
  - cbn [String.prefix]. destruct (ascii_dec "<" c) as [<-|Hne].
    + destruct rest; reflexivity.
    + apply Ascii.eqb_neq. congruence.
Qed.

(** X5.  What the file filter does with a non-empty name.  A name that
    starts with [<] or contains [site-packages], [/usr/lib/python] or
    [scalene.py] is never traced, wherever the file is.  Any other name
    is traced when its absolute path is below the program's directory,
    and is always traced while [program_path] is still the empty string
    of the class body (every string contains the empty string). *)
Theorem should_trace_by_name `{Runtime} (pp filename : string) :
  filename <> ""%string ->
  (internal_name filename = true -> should_trace pp filename = Ok false)
  /\ (internal_name filename = false ->
      descendant pp (abspath filename) = true ->
      should_trace pp filename = Ok true)
  /\ (internal_name filename = false -> should_trace "" filename = Ok true).
Proof.
  intro Hne. destruct filename as [|c rest]; [congruence|].
  rewrite !should_trace_run. split; [|split].
  - intros ->. reflexivity.
  - intros -> Hd. f_equal. apply contains_prefix.
    unfold descendant in Hd. eapply prefix_app_l. exact Hd.
  - intros ->. f_equal. apply contains_empty.
Qed.

Lemma should_trace_by_name_witness :
  @should_trace sample_runtime "/home/u/proj" "lib/site-packages/m.py" = Ok false
  /\ @should_trace sample_runtime "/home/u/proj" "pkg/m.py" = Ok true
  /\ @should_trace sample_runtime "" "/opt/tool/m.py" = Ok true.
Proof.
  split; [|split].
  - apply (proj1 (@should_trace_by_name sample_runtime "/home/u/proj"
                    "lib/site-packages/m.py" ltac:(discriminate))).
    reflexivity.
  - apply (proj1 (proj2 (@should_trace_by_name sample_runtime "/home/u/proj"
                           "pkg/m.py" ltac:(discriminate)))); reflexivity.
  - apply (proj2 (proj2 (@should_trace_by_name sample_runtime "/home/u/proj"
                           "/opt/tool/m.py" ltac:(discriminate)))); reflexivity.
Defined.

(** ** Draining a bridge file (lines 333-367) *)

Lemma samples_read_all `{Runtime} lines :
  Forall (fun line => megabytes line <> None) lines ->
  length (samples_read lines) = length lines.
Proof.
  induction 1 as [|line lines Hl _ IH]; cbn [samples_read length]; [reflexivity|].
  destruct (megabytes line); [|congruence]. cbn [length]. rewrite IH. reflexivity.
Qed.

Lemma for_each_account_current im f l b cs s :
  current_footprint (st (for_each cs (account_sample im f l b) s))
  = fold_left (fun a c => if im then a + c else a - c) cs (current_footprint s).
Proof.
  revert s. induction cs as [|c cs IH]; intro s; [reflexivity|].
  rewrite for_each_account_step, IH. cbn [fold_left]. f_equal.
  destruct im.
  - rewrite account_sample_malloc. cbn [st].
    destruct (Qgtb _ _); reflexivity.
  - rewrite account_sample_free. reflexivity.
Qed.

Lemma fold_plus_sum (cs : list Q) (a : Q) :
  fold_left Qplus cs a == a + fold_left Qplus cs 0.
Proof.
  revert a. induction cs as [|c cs IH]; intro a; cbn [fold_left]; [ring|].
  rewrite (IH (a + c)), (IH (0 + c)). ring.
Qed.

Lemma fold_signed_sum (im : bool) (cs : list Q) (a : Q) :
  fold_left (fun a c => if im then a + c else a - c) cs a
  == a + (if im then 1 else -1) * fold_left Qplus cs 0.
Proof.
  revert a. induction cs as [|c cs IH]; intro a; cbn [fold_left].
  - destruct im; ring.
  - rewrite IH, (fold_plus_sum cs (0 + c)). destruct im; ring.
Qed.

Lemma for_each_account_rest im f l b cs s :
  let s' := st (for_each cs (account_sample im f l b) s) in
  samples_table (negb im) s' = samples_table (negb im) s
  /\ memory_footprint_samples s' = memory_footprint_samples s
  /\ per_line_footprint_samples s' = per_line_footprint_samples s
  /\ clock_reads s' = clock_reads s
  /\ last_signal_time s' = last_signal_time s
  /\ elapsed_time s' = elapsed_time s
  /\ next_output_time s' = next_output_time s.
Proof.
  revert s. induction cs as [|c cs IH]; intro s; cbn zeta.
  - repeat split; reflexivity.
  - rewrite for_each_account_step.
    destruct (IH (st (account_sample im f l b c s)))
      as (H1 & H2 & H3 & H4 & H5 & H6 & H7).
    rewrite H1, H2, H3, H4, H5, H6, H7.
    destruct im.
    + rewrite account_sample_malloc. cbn [st].
      destruct (Qgtb _ _); repeat split; reflexivity.
    + rewrite account_sample_free. repeat split; reflexivity.
Qed.

Lemma helper_state `{Runtime} f l b im s lines :
  bridge_file im s = Some lines ->
  let s0 := set_samples_table im (snd (dd_getitem2 [] (samples_table im s) f l)) s in
  let s1 := st (for_each (samples_read lines) (account_sample im f l b) s0) in
  let ok := (length (samples_read lines) =? length lines)%nat in
  exists counts,
    st (alloc_handler_helper f l b im s)
    = set_count_table im counts (if ok then set_bridge_file im None s1 else s1)
    /\ log (alloc_handler_helper f l b im s)
       = (if ok then [] else [StdoutExn ValueError])
    /\ res (alloc_handler_helper f l b im s) = Ok tt.
Proof.
  intros Hf s0 s1 ok. rewrite (alloc_handler_helper_present _ _ _ _ _ Hf).
  fold s0 s1 ok. cbn [st log res].
  destruct lines.
  - exists (count_table im (if ok then set_bridge_file im None s1 else s1)).
    split; [|split; reflexivity].
    destruct ok, im; destruct s1; reflexivity.
  - eexists. split; [reflexivity|]. split; reflexivity.
Qed.

Lemma helper_accumulates `{Runtime} (s : Scalene) (fname : string)
        (line_no bytei : Z) (is_malloc : bool) (lines : list string) :
  bridge_file is_malloc s = Some lines ->
  Forall (fun line => megabytes line <> None) lines ->
  let o := alloc_handler_helper fname line_no bytei is_malloc s in
  let read := samples_read lines in
  length read = length lines
  /\ res o = Ok tt /\ log o = []
  /\ bridge_file is_malloc (st o) = None
  /\ samples_view is_malloc (st o) fname line_no bytei
     = fold_left Qplus read (samples_view is_malloc s fname line_no bytei)
  /\ (forall im f l b,
         (im, f, l, b) <> (is_malloc, fname, line_no, bytei) ->
         samples_view im (st o) f l b = samples_view im s f l b)
  /\ total_of is_malloc (st o) = fold_left Qplus read (total_of is_malloc s)
  /\ total_of (negb is_malloc) (st o) = total_of (negb is_malloc) s
  /\ current_footprint (st o)
     == current_footprint s + (if is_malloc then 1 else -1) * py_sum read.
Proof.
  intros Hf Hall o read.
  pose proof (samples_read_all Hall) as Hlen. fold read in Hlen.
  destruct (helper_state fname line_no bytei _ _ Hf) as (counts & Hst & Hlog & Hres).
  fold o in Hst, Hlog, Hres. fold read in Hst, Hlog.
  rewrite Hlen, Nat.eqb_refl in Hst, Hlog.
  set (s0 := set_samples_table is_malloc
               (snd (dd_getitem2 [] (samples_table is_malloc s) fname line_no)) s)
    in Hst.
  set (s1 := st (for_each read (account_sample is_malloc fname line_no bytei) s0))
    in Hst.
  assert (Hview : forall im f l b,
             samples_view im (st o) f l b = samples_view im s1 f l b).
  { intros im f l b. rewrite Hst. destruct is_malloc, im; reflexivity. }
  assert (Hs0 : forall im f l b, samples_view im s0 f l b = samples_view im s f l b).
  { intros im f l b.
    pose proof (touch_samples_counters is_malloc fname line_no s) as (_ & Hs & _).
    symmetry. apply Hs. }
  split; [exact Hlen|]. split; [exact Hres|]. split; [exact Hlog|].
  split; [rewrite Hst; destruct is_malloc; reflexivity|].
  split; [|split; [|split; [|split]]].
  - rewrite Hview. unfold s1. rewrite for_each_account_samples.
    rewrite Bool.eqb_reflx, !keqb_refl. cbn [andb]. rewrite Hs0. reflexivity.
  - intros im f l b Hneq. rewrite Hview. unfold s1.
    rewrite for_each_account_samples.
    destruct (Bool.eqb is_malloc im && _) eqn:E; [|apply Hs0].
    apply andb_true_iff in E. destruct E as [E1 E].
    apply andb_true_iff in E. destruct E as [E E4].
    apply andb_true_iff in E. destruct E as [E2 E3].
    apply Bool.eqb_prop in E1. apply keqb_true in E2, E3, E4. subst. congruence.
  - destruct (for_each_account_total is_malloc fname line_no bytei read s0) as [T _].
    fold s1 in T. transitivity (total_of is_malloc s1).
    + rewrite Hst. destruct is_malloc; reflexivity.
    + rewrite T. unfold s0. destruct is_malloc; reflexivity.
  - destruct (for_each_account_total is_malloc fname line_no bytei read s0) as [_ T].
    fold s1 in T. transitivity (total_of (negb is_malloc) s1).
    + rewrite Hst. destruct is_malloc; reflexivity.
    + rewrite T. unfold s0. destruct is_malloc; reflexivity.
  - assert (Hc : current_footprint (st o) = current_footprint s1)
      by (rewrite Hst; destruct is_malloc; reflexivity).
    rewrite Hc. unfold s1. rewrite for_each_account_current, fold_signed_sum.
    unfold py_sum. replace (current_footprint s0) with (current_footprint s)
      by (unfold s0; destruct is_malloc; reflexivity).
    reflexivity.
Qed.



Lemma helper_leaves_rest `{Runtime} (s : Scalene) (fname : string)
        (line_no bytei : Z) (is_malloc : bool) :
  let s' := st (alloc_handler_helper fname line_no bytei is_malloc s) in
  cpu_samples_python s' = cpu_samples_python s
  /\ cpu_samples_c s' = cpu_samples_c s
  /\ total_cpu_samples s' = total_cpu_samples s
  /\ bytei_map s' = bytei_map s
  /\ samples_table (negb is_malloc) s' = samples_table (negb is_malloc) s
  /\ count_table (negb is_malloc) s' = count_table (negb is_malloc) s
  /\ total_of (negb is_malloc) s' = total_of (negb is_malloc) s
  /\ bridge_file (negb is_malloc) s' = bridge_file (negb is_malloc) s
  /\ memory_footprint_samples s' = memory_footprint_samples s
  /\ per_line_footprint_samples s' = per_line_footprint_samples s
  /\ clock_reads s' = clock_reads s
  /\ last_signal_time s' = last_signal_time s
  /\ elapsed_time s' = elapsed_time s
  /\ next_output_time s' = next_output_time s.
Proof.
  intro s'. subst s'.
  destruct (bridge_file is_malloc s) as [lines|] eqn:Hf.
  - destruct (helper_state fname line_no bytei _ _ Hf) as (counts & -> & _ & _).
    set (s0 := set_samples_table is_malloc
                 (snd (dd_getitem2 [] (samples_table is_malloc s) fname line_no)) s).
    set (s1 := st (for_each (samples_read lines)
                     (account_sample is_malloc fname line_no bytei) s0)).
    pose proof (for_each_account_frame is_malloc fname line_no bytei
                  (samples_read lines) s0) as (F1 & F2 & F3 & F4 & F5 & F6 & F7 & F8).
    fold s1 in F1, F2, F3, F4, F5, F6, F7, F8.
    destruct (for_each_account_total is_malloc fname line_no bytei
                (samples_read lines) s0) as [_ T]. fold s1 in T.
    pose proof (for_each_account_rest is_malloc fname line_no bytei
                  (samples_read lines) s0) as (R1 & R2 & R3 & R4 & R5 & R6 & R7).
    fold s1 in R1, R2, R3, R4, R5, R6, R7.
    assert (Hs0 : s0 = set_samples_table is_malloc
                         (snd (dd_getitem2 [] (samples_table is_malloc s)
                                 fname line_no)) s) by reflexivity.
    clearbody s0 s1.
    destruct (_ =? _)%nat;
      destruct is_malloc; cbn in *; subst s0; cbn in *;
      repeat split; congruence.
  - rewrite (alloc_handler_helper_missing _ _ _ _ _ Hf). cbn [st].
    destruct is_malloc; repeat split; reflexivity.
Qed.

(** X7.  What a drain never touches, whatever the bridge file holds: the
    CPU tables and their total, the known offsets, the samples, counts,
    total and bridge file of the other kind, the reservoirs, and the
    clock and report times. *)
Theorem drain_leaves_rest `{Runtime} (s : Scalene) (fname : string)
        (line_no bytei : Z) (is_malloc : bool) :
  let s' := st (alloc_handler_helper fname line_no bytei is_malloc s) in
  cpu_samples_python s' = cpu_samples_python s
  /\ cpu_samples_c s' = cpu_samples_c s
  /\ total_cpu_samples s' = total_cpu_samples s
  /\ bytei_map s' = bytei_map s
  /\ samples_table (negb is_malloc) s' = samples_table (negb is_malloc) s
  /\ count_table (negb is_malloc) s' = count_table (negb is_malloc) s
  /\ total_of (negb is_malloc) s' = total_of (negb is_malloc) s
  /\ bridge_file (negb is_malloc) s' = bridge_file (negb is_malloc) s
  /\ memory_footprint_samples s' = memory_footprint_samples s
  /\ per_line_footprint_samples s' = per_line_footprint_samples s
  /\ clock_reads s' = clock_reads s
  /\ last_signal_time s' = last_signal_time s
  /\ elapsed_time s' = elapsed_time s
  /\ next_output_time s' = next_output_time s.
Proof.
  exact (helper_leaves_rest s fname line_no bytei is_malloc).
Qed.

Lemma helper_pending `{Runtime} (s : Scalene) f l b (im : bool) :
  well_formed im s ->
  let o := alloc_handler_helper f l b im s in
  res o = Ok tt /\ log o = []
  /\ bridge_file im (st o) = None
  /\ samples_view im (st o) f l b
     = fold_left Qplus (pending im s) (samples_view im s f l b)
  /\ total_of im (st o) = fold_left Qplus (pending im s) (total_of im s)
  /\ current_footprint (st o)
     == current_footprint s + (if im then 1 else -1) * py_sum (pending im s).
Proof.
  unfold well_formed, pending. intros Hw.
  destruct (bridge_file im s) as [lines|] eqn:Hf.
  - destruct (helper_accumulates s f l b im Hf Hw)
      as (_ & H1 & H2 & H3 & H4 & _ & H5 & _ & H6).
    repeat split; assumption.
  - rewrite (alloc_handler_helper_missing _ _ _ _ _ Hf). cbn [st log res].
    pose proof (touch_samples_counters im f l s) as (_ & Hs & _).
    split; [reflexivity|]. split; [reflexivity|].
    split; [destruct im; exact Hf|].
    split; [symmetry; apply Hs|].
    split; [destruct im; reflexivity|].
    cbn [fold_left py_sum]. unfold py_sum. cbn [fold_left].
    replace (current_footprint (set_samples_table im _ s)) with (current_footprint s)
      by (destruct im; reflexivity).
    destruct im; ring.
Qed.

(** The state in which the two drains start: the offset has been added
    to the set of the line (lines 380-381). *)
Lemma allocation_handler_run `{Runtime} (fr : frame) (s : Scalene) :
  should_trace (program_path s) (co_filename (f_code fr)) = Ok true ->
  let f := co_filename (f_code fr) in
  let l := f_lineno fr in
  let b := f_lasti fr in
  exists s0,
    allocation_handler fr s
    = bind (alloc_handler_helper f l b true)
           (fun _ => alloc_handler_helper f l b false) s0
    /\ In b (known_offsets s0 f l)
    /\ (forall f' l', (f', l') <> (f, l) ->
                      known_offsets s0 f' l' = known_offsets s f' l')
    /\ known_offsets s0 f l
       = (if existsb (Z.eqb b) (known_offsets s f l) then known_offsets s f l
          else known_offsets s f l ++ [b])
    /\ (forall v, set_bytei_map v s0 = set_bytei_map v s).
Proof.
  intros Ht f l b. unfold allocation_handler.
  rewrite bind_gets, Ht. cbn [lift]. rewrite bind_ret. cbn [negb]. fold f l b.
  assert (Hg : forall x, bytei_getitem f l x
                         = {| st := set_bytei_map
                                      (snd (dd_getitem2 [] (bytei_map x) f l)) x;
                              log := []; res := Ok (known_offsets x f l) |}).
  { intro x. unfold bytei_getitem, known_offsets. rewrite dd_getitem2_fst.
    reflexivity. }
  rewrite (bind_ok _ _ s (a := known_offsets s f l))
    by (rewrite Hg; reflexivity).
  rewrite Hg. cbn [st].
  set (s1 := set_bytei_map (snd (dd_getitem2 [] (bytei_map s) f l)) s).
  assert (Hk1 : forall f' l', known_offsets s1 f' l' = known_offsets s f' l').
  { intros f' l'. unfold known_offsets, s1. cbn [bytei_map set_bytei_map].
    apply lookup2_getitem2. }
  destruct (existsb (Z.eqb b) (known_offsets s f l)) eqn:Ein; cbn [negb].
  - exists s1. rewrite bind_ret.
    split; [reflexivity|]. split; [|split; [|split]].
    + rewrite Hk1. apply existsb_exists in Ein. destruct Ein as [x [Hx Hb]].
      apply Z.eqb_eq in Hb. subst x. exact Hx.
    + intros. apply Hk1.
    + apply Hk1.
    + intro v. unfold s1. destruct s; reflexivity.
  - rewrite bind_assoc.
    rewrite (bind_ok _ _ s1 (a := known_offsets s1 f l))
      by (rewrite Hg; reflexivity).
    rewrite Hg. cbn [st]. rewrite bind_modify.
    eexists. split; [reflexivity|].
    assert (Hk2 : forall f' l',
               known_offsets
                 (set_bytei_map
                    (dd_setitem2
                       (bytei_map
                          (set_bytei_map (snd (dd_getitem2 [] (bytei_map s1) f l)) s1))
                       f l (known_offsets s1 f l ++ [b]))
                    (set_bytei_map (snd (dd_getitem2 [] (bytei_map s1) f l)) s1))
                 f' l'
               = if keqb f f' && keqb l l' then known_offsets s f l ++ [b]
                 else known_offsets s f' l').
    { intros f' l'. unfold known_offsets at 1. cbn [bytei_map set_bytei_map].
      rewrite lookup2_setitem2, lookup2_getitem2. fold (known_offsets s1 f' l').
      rewrite !Hk1. reflexivity. }
    split; [|split; [|split]].
    + rewrite Hk2, !keqb_refl. cbn [andb]. apply in_or_app. right. left. reflexivity.
    + intros f' l' Hneq. rewrite Hk2.
      destruct (keqb f f' && keqb l l') eqn:E; [|reflexivity].
      apply andb_true_iff in E. destruct E as [E1 E2].
      apply keqb_true in E1, E2. subst. congruence.
    + rewrite Hk2, !keqb_refl. reflexivity.
    + intro v. unfold s1. destruct s; reflexivity.
Qed.

(** ** The allocation handler (lines 370-394) *)

(** X8.  A signal that arrives while a file that is not traced is
    running is dropped: the handler returns at once, changes nothing,
    prints nothing, and leaves both bridge files and what is pending in
    them where they are. *)
Theorem allocation_handler_untraced `{Runtime} (fr : frame) (s : Scalene) :
  should_trace (program_path s) (co_filename (f_code fr)) = Ok false ->
  allocation_handler fr s = {| st := s; log := []; res := Ok tt |}
  /\ malloc_event_signal_handler (Some fr) s = {| st := s; log := []; res := Ok tt |}
  /\ free_event_signal_handler (Some fr) s = {| st := s; log := []; res := Ok tt |}
  /\ pending true (st (allocation_handler fr s)) = pending true s
  /\ pending false (st (allocation_handler fr s)) = pending false s.
Proof.
  intro Ht.
  assert (Hrun : allocation_handler fr s = {| st := s; log := []; res := Ok tt |}).
  { unfold allocation_handler. rewrite bind_gets, Ht. cbn [lift].
    rewrite bind_ret. reflexivity. }
  cbn [malloc_event_signal_handler free_event_signal_handler].
  rewrite Hrun. repeat split; reflexivity.
Qed.

Lemma allocation_handler_untraced_witness :
  let s := set_malloc_signal_file (Some ["1048576" ++ newline]%string)
             (initial "/home/u/proj" Inf Inf) in
  @allocation_handler sample_runtime library_frame s
  = {| st := s; log := []; res := Ok tt |}.
Proof.
  intro s.
  apply (proj1 (@allocation_handler_untraced sample_runtime library_frame s eq_refl)).
Defined.

Lemma same_but_offsets (s0 s : Scalene) :
  (forall v, set_bytei_map v s0 = set_bytei_map v s) ->
  (forall im, bridge_file im s0 = bridge_file im s)
  /\ (forall im, samples_table im s0 = samples_table im s)
  /\ (forall im, total_of im s0 = total_of im s)
  /\ current_footprint s0 = current_footprint s.
Proof.
  intro Hv. specialize (Hv []).
  split; [|split; [|split]].
  - intro im. change (bridge_file im (set_bytei_map [] s0)
                      = bridge_file im (set_bytei_map [] s)). rewrite Hv. reflexivity.
  - intro im. change (samples_table im (set_bytei_map [] s0)
                      = samples_table im (set_bytei_map [] s)). rewrite Hv. reflexivity.
  - intro im. change (total_of im (set_bytei_map [] s0)
                      = total_of im (set_bytei_map [] s)). rewrite Hv. reflexivity.
  - change (current_footprint (set_bytei_map [] s0)
            = current_footprint (set_bytei_map [] s)). rewrite Hv. reflexivity.
Qed.



(** ** Traversals

    What every read of a table and every assignment of the reporter and
    of the CPU handler preserves, the reporter and the handler
    preserve. *)

Section Traverse.
Context `{Runtime} (R : Scalene -> Scalene -> Prop) `{!PreOrder R}.
Hypothesis R_samples_get : forall im f l b, steps R (samples_getitem im f l b).
Hypothesis R_count_get : forall im f l b, steps R (count_getitem im f l b).
Hypothesis R_cpu_get : forall native f l, steps R (cpu_getitem native f l).
Hypothesis R_cpu_sum : forall native f, steps R (cpu_file_sum native f).
Hypothesis R_bytei_get : forall f l, steps R (bytei_getitem f l).
Hypothesis R_per_line_get : forall f l, steps R (per_line_getitem f l).
Hypothesis R_per_line_update : forall f l r, steps R (per_line_update f l r).
Hypothesis R_footprint_samples :
  forall r s, R s (set_memory_footprint_samples r s).
Hypothesis R_clock : forall n s, R s (set_clock_reads n s).
Hypothesis R_elapsed : forall t s, R s (set_elapsed_time t s).
Hypothesis R_last : forall t s, R s (set_last_signal_time t s).
Hypothesis R_next : forall t s, R s (set_next_output_time t s).

Ltac traverse :=
  repeat first
    [ simple apply steps_ret; exact _ | simple apply steps_raise; exact _
    | simple apply steps_gets; exact _ | simple apply steps_print; exact _
    | simple apply steps_lift; exact _
    | simple apply R_samples_get | simple apply R_count_get
    | simple apply R_cpu_get | simple apply R_cpu_sum
    | simple apply R_bytei_get | simple apply R_per_line_get
    | simple apply R_per_line_update
    | simple apply steps_modify; try exact _; intro; solve [auto]
    | simple apply steps_for_each; [exact _ | intros]
    | simple apply steps_for_fold; [exact _ | intros]
    | simple apply steps_bind; [exact _ | | intros]
    | match goal with
      | |- steps _ (if ?b then _ else _) => destruct b
      | |- steps _ (let '(_, _) := ?x in _) => destruct x
      | |- steps _ (match ?x with _ => _ end) => destruct x
      end ].

Lemma traverse_gettime : steps R gettime.
Proof. unfold gettime. traverse. Qed.

Lemma traverse_report_line d f l line : steps R (report_line d f l line).
Proof. unfold report_line, line_memory_index. traverse. Qed.

Lemma traverse_report_lines d f lines l : steps R (report_lines d f l lines).
Proof.
  revert l. induction lines as [|line lines IH]; intro l; cbn [report_lines].
  - apply steps_ret; exact _.
  - apply steps_bind; [exact _ | apply traverse_report_line | intro; apply IH].
Qed.

Lemma traverse_report_file d f : steps R (report_file d f).
Proof. unfold report_file. traverse. apply traverse_report_lines. Qed.

Lemma traverse_output_profiles : steps R output_profiles.
Proof. unfold output_profiles. traverse. apply traverse_report_file. Qed.

Lemma traverse_stop : steps R stop.
Proof.
  unfold stop. apply steps_bind; [exact _ | apply traverse_gettime | intro]. traverse.
Qed.

Lemma traverse_start : steps R start.
Proof.
  unfold start, enable_signals.
  repeat (apply steps_bind; [exact _ | try apply traverse_gettime | intros]);
    traverse.
Qed.

Lemma traverse_flush_if_due now : steps R (flush_if_due now).
Proof.
  unfold flush_if_due.
  apply steps_bind; [exact _ | apply steps_gets; exact _ | intro next].
  destruct (reached now next); [|apply steps_ret; exact _].
  apply steps_bind; [exact _ | traverse | intros _].
  apply steps_bind; [exact _ | apply traverse_stop | intros _].
  apply steps_bind; [exact _ | apply traverse_output_profiles | intros _].
  apply traverse_start.
Qed.

Hypothesis R_cpu_add : forall native f l x, steps R (cpu_iadd native f l x).
Hypothesis R_total_cpu : forall t s, R s (set_total_cpu_samples t s).



End Traverse.

(** ** The offsets of a line form a set *)

#[export] Instance same_known_preorder : PreOrder same_known.
Proof.
  split.
  - intros s f l. reflexivity.
  - intros a b c H1 H2 f l. rewrite H1. apply H2.
Qed.

Ltac known_prim :=
  intros;
  repeat match goal with b : bool |- _ => destruct b end;
  unfold steps, same_known; intros; unfold known_offsets; cbn;
  rewrite ?lookup2_getitem2; reflexivity.


Lemma output_profiles_known `{Runtime} : steps same_known output_profiles.
Proof.
  apply traverse_output_profiles; try exact _;
    try solve [known_prim];
    intros; unfold per_line_update; steps_struct;
    try solve [known_prim | apply steps_modify; try exact _; known_prim].
Qed.



Example offsets_stay_distinct_sampled :
  let s := @run sample_runtime
             [AllocatorWrites true ["1048576" ++ newline]%string;
              MallocSignal (Some main_frame);
              AllocatorWrites true ["1048576" ++ newline]%string;
              MallocSignal (Some main_frame);
              FreeSignal (Some (Frame 1 user_code 3 10 None))]
             (initial "/home/u/proj" Inf Inf) in
  known_offsets s "/home/u/proj/x.py" 3 = [12; 10]%Z
  /\ count_view true s "/home/u/proj/x.py" 3 12 = 2%Z.
Proof. split; reflexivity. Qed.

(** ** The CPU handler (lines 237-331) *)

Lemma attribute_tick_raise `{Runtime} now this_frame thread_frames s e :
  retained_frames (program_path s) (this_frame :: thread_frames) = Raise e ->
  attribute_tick now this_frame thread_frames s
  = {| st := s; log := []; res := Raise e |}.
Proof.
  intro Hr. unfold attribute_tick. rewrite !bind_gets, Hr. cbn [lift].
  rewrite bind_raise. reflexivity.
Qed.

(** X11.  The frames are filtered before any counter is touched, so a
    tick whose filter raises changes no counter.  A frame with an empty
    file name and no calling frame makes the filter raise
    [AttributeError] (line 289 reads [frame.f_back.f_code]), whatever
    the other frames are.  When the filter raises and no report is due,
    the handler raises the same exception having only read the clock:
    nothing is attributed, [total_cpu_samples] and [last_signal_time]
    stay as they were, so the next tick measures from the tick
    before. *)
Theorem tick_filter_raises `{Runtime} (s : Scalene) (this_frame : option frame)
        (thread_frames : list (option frame)) (e : exn) :
  (forall pp fr rest,
      co_filename (f_code fr) = ""%string -> f_back fr = None ->
      retained_frames pp (Some fr :: rest) = Raise AttributeError)
  /\ (reached (process_time (clock_reads s)) (next_output_time s) = false ->
      retained_frames (program_path s) (this_frame :: thread_frames) = Raise e ->
      cpu_signal_handler this_frame thread_frames s
      = {| st := set_clock_reads (S (clock_reads s)) s; log := []; res := Raise e |}).
Proof.
  split.
  - intros pp fr rest Hname Hback. cbn [retained_frames].
    rewrite Hname, Hback. reflexivity.
  - intros Hdue Hr. rewrite cpu_signal_handler_split.
    unfold bind. rewrite (tick_start_not_due _ Hdue). cbn [res st log].
    rewrite (@attribute_tick_raise _ _ _ _ _ e) by exact Hr. reflexivity.
Qed.

Lemma tick_filter_raises_witness :
  let s := initial "/home/u/proj" Inf Inf in
  let anonymous := Frame 4 {| co_filename := ""; co_instructions := [] |} 1 0 None in
  @cpu_signal_handler sample_runtime (Some main_frame) [Some anonymous] s
  = {| st := set_clock_reads 1 s; log := []; res := Raise AttributeError |}.
Proof.
  intros s anonymous.
  apply (proj2 (@tick_filter_raises sample_runtime s (Some main_frame)
                  [Some anonymous] AttributeError)); reflexivity.
Defined.

(** ** Sums over a table *)

Lemma py_sum_cons (x : Q) (l : list Q) : py_sum (x :: l) == x + py_sum l.
Proof.
  unfold py_sum. cbn [fold_left]. rewrite fold_plus_sum. ring.
Qed.


Section Weighted.
Context {K V : Type} `{Key K} (w : V -> Q) (dflt : V).
Hypothesis w_dflt : w dflt == 0.

Lemma weighted_set (d : dict K V) (k : K) (v : V) :
  py_sum (map (fun kv => w (snd kv)) (dict_set d k v))
  == py_sum (map (fun kv => w (snd kv)) d) - w (lookup dflt d k) + w v.
Proof.
  unfold lookup. induction d as [|[k' v'] d IH]; cbn [dict_set dict_find map].
  - rewrite py_sum_cons. cbn [snd]. rewrite w_dflt. unfold py_sum. cbn. ring.
  - destruct (keqb k' k); cbn [map snd].
    + rewrite !py_sum_cons. ring.
    + rewrite !py_sum_cons, IH. ring.
Qed.

Lemma weighted_get (d : dict K V) (k : K) :
  py_sum (map (fun kv => w (snd kv)) (snd (dd_getitem dflt d k)))
  == py_sum (map (fun kv => w (snd kv)) d).
Proof.
  unfold dd_getitem. destruct (dict_find d k) eqn:E; cbn [snd]; [reflexivity|].
  rewrite weighted_set. unfold lookup. rewrite E. ring.
Qed.

End Weighted.

Section Stored.
Context {K V : Type} `{Key K} (P : V -> Prop).

Lemma stored_set (d : dict K V) (k : K) (v : V) :
  Forall (fun kv => P (snd kv)) d -> P v ->
  Forall (fun kv => P (snd kv)) (dict_set d k v).
Proof.
  intros Hd Hv. induction Hd as [|[k' v'] d Hk Hd IH]; cbn [dict_set].
  - repeat constructor. exact Hv.
  - destruct (keqb k' k); constructor; assumption.
Qed.

Lemma stored_lookup (dflt : V) (d : dict K V) (k : K) :
  Forall (fun kv => P (snd kv)) d -> P dflt -> P (lookup dflt d k).
Proof.
  intros Hd Hv. unfold lookup.
  induction Hd as [|[k' v'] d Hk _ IH]; cbn [dict_find]; [exact Hv|].
  destruct (keqb k' k); assumption.
Qed.

Lemma stored_get (dflt : V) (d : dict K V) (k : K) :
  Forall (fun kv => P (snd kv)) d -> P dflt ->
  Forall (fun kv => P (snd kv)) (snd (dd_getitem dflt d k)).
Proof.
  intros Hd Hv. unfold dd_getitem. destruct (dict_find d k); cbn [snd];
    [exact Hd | apply stored_set; assumption].
Qed.

End Stored.

Lemma inner_sum_zero : py_sum (dict_values (@nil (Z * Q))) == 0.
Proof. reflexivity. Qed.

Lemma table_sum_getitem (d : dict string (dict Z Q)) f :
  table_sum (snd (dd_getitem [] d f)) == table_sum d.
Proof.
  unfold table_sum.
  apply (@weighted_get _ _ _ (fun inner => py_sum (dict_values inner)) []
           inner_sum_zero).
Qed.

Lemma table_sum_setitem2 (d : dict string (dict Z Q)) f l v :
  table_sum (dd_setitem2 d f l v) == table_sum d - lookup2 0 d f l + v.
Proof.
  unfold dd_setitem2. rewrite (surjective_pairing (dd_getitem [] d f)).
  rewrite dd_getitem_fst. unfold table_sum.
  rewrite (@weighted_set _ _ _ (fun inner => py_sum (dict_values inner)) []
             inner_sum_zero).
  rewrite dd_getitem_lookup. fold (table_sum (snd (dd_getitem [] d f))).
  rewrite table_sum_getitem. unfold dict_values at 2.
  rewrite (@weighted_set _ _ _ (fun x : Q => x) 0 ltac:(reflexivity)).
  unfold lookup2, table_sum, dict_values.
  change (fun kv : Z * Q => snd kv) with (@snd Z Q). unfold dict. ring.
Qed.

Lemma table_sum_getitem2 (d : dict string (dict Z Q)) f l :
  table_sum (snd (dd_getitem2 0 d f l)) == table_sum d.
Proof.
  unfold dd_getitem2. rewrite (surjective_pairing (dd_getitem [] d f)).
  rewrite dd_getitem_fst.
  rewrite (surjective_pairing (dd_getitem 0 (lookup [] d f) l)). cbn [snd].
  unfold table_sum.
  rewrite (@weighted_set _ _ _ (fun inner => py_sum (dict_values inner)) []
             inner_sum_zero).
  rewrite dd_getitem_lookup. fold (table_sum (snd (dd_getitem [] d f))).
  rewrite table_sum_getitem. unfold dict_values at 2.
  rewrite (@weighted_get _ _ _ (fun x : Q => x) 0 ltac:(reflexivity)).
  unfold table_sum, dict_values.
  change (fun kv : Z * Q => snd kv) with (@snd Z Q). unfold dict. ring.
Qed.

Lemma table_nonneg_getitem (d : dict string (dict Z Q)) f :
  table_nonneg d -> table_nonneg (snd (dd_getitem [] d f)).
Proof.
  intro Hd.
  apply (@stored_get _ _ _ (fun inner => Forall (fun lv : Z * Q => 0 <= snd lv) inner));
    [exact Hd | constructor].
Qed.

Lemma table_nonneg_inner (d : dict string (dict Z Q)) f :
  table_nonneg d -> Forall (fun lv : Z * Q => 0 <= snd lv) (lookup [] d f).
Proof.
  intro Hd.
  apply (@stored_lookup _ _ _
           (fun inner => Forall (fun lv : Z * Q => 0 <= snd lv) inner));
    [exact Hd | constructor].
Qed.

Lemma table_nonneg_lookup2 (d : dict string (dict Z Q)) f l :
  table_nonneg d -> 0 <= lookup2 0 d f l.
Proof.
  intro Hd. unfold lookup2.
  apply (@stored_lookup _ _ _ (fun x : Q => 0 <= x));
    [apply table_nonneg_inner; exact Hd | discriminate].
Qed.

Lemma table_nonneg_setitem2 (d : dict string (dict Z Q)) f l v :
  table_nonneg d -> 0 <= v -> table_nonneg (dd_setitem2 d f l v).
Proof.
  intros Hd Hv. unfold dd_setitem2.
  pose proof (table_nonneg_getitem f Hd) as Hg.
  pose proof (dd_getitem_fst (@nil (Z * Q)) d f) as Hf.
  destruct (dd_getitem [] d f) as [inner d1]. cbn [fst snd] in *. subst inner.
  apply (@stored_set _ _ _
           (fun inner => Forall (fun lv : Z * Q => 0 <= snd lv) inner));
    [exact Hg|].
  apply (@stored_set _ _ _ (fun x : Q => 0 <= x));
    [apply table_nonneg_inner; exact Hd | exact Hv].
Qed.

Lemma table_nonneg_getitem2 (d : dict string (dict Z Q)) f l :
  table_nonneg d -> table_nonneg (snd (dd_getitem2 0 d f l)).
Proof.
  intro Hd. unfold dd_getitem2.
  pose proof (table_nonneg_getitem f Hd) as Hg.
  pose proof (dd_getitem_fst (@nil (Z * Q)) d f) as Hf.
  destruct (dd_getitem [] d f) as [inner d1]. cbn [fst snd] in *. subst inner.
  pose proof (@stored_get _ _ _ (fun x : Q => 0 <= x) 0 (lookup [] d f) l
                (table_nonneg_inner f Hd) ltac:(discriminate)) as Hi.
  destruct (dd_getitem 0 (lookup [] d f) l) as [v inner']. cbn [snd] in *.
  apply (@stored_set _ _ _
           (fun inner => Forall (fun lv : Z * Q => 0 <= snd lv) inner));
    assumption.
Qed.

(** ** The books of the CPU handler *)

#[export] Instance same_books_preorder : PreOrder same_books.
Proof.
  split.
  - intro s. unfold same_books. repeat split; auto; reflexivity.
  - intros a b c (A1 & A2 & A3 & A4 & A5 & A6 & A7) (B1 & B2 & B3 & B4 & B5 & B6 & B7).
    unfold same_books. repeat split; auto; etransitivity; eassumption.
Qed.

Ltac books_prim :=
  intros;
  repeat match goal with b : bool |- _ => destruct b end;
  unfold steps, same_books; intros; cbn;
  repeat split; solve [reflexivity | auto].

Lemma cpu_getitem_books native f l : steps same_books (cpu_getitem native f l).
Proof.
  intro s. rewrite cpu_getitem_st. unfold same_books.
  destruct native; cbn;
    repeat split; try reflexivity; auto;
    try (symmetry; apply table_sum_getitem2); apply table_nonneg_getitem2.
Qed.

Lemma cpu_file_sum_books native f : steps same_books (cpu_file_sum native f).
Proof.
  intro s. rewrite cpu_file_sum_st. unfold same_books.
  destruct native; cbn;
    repeat split; try reflexivity; auto;
    try (symmetry; apply table_sum_getitem); apply table_nonneg_getitem.
Qed.

Ltac books_traverse :=
  try exact _; try solve [books_prim];
  try apply cpu_getitem_books; try apply cpu_file_sum_books;
  intros; unfold per_line_update; steps_struct;
  try solve [books_prim | apply steps_modify; try exact _; books_prim].

Lemma output_profiles_books `{Runtime} : steps same_books output_profiles.
Proof. apply traverse_output_profiles; books_traverse. Qed.

Lemma tick_start_books `{Runtime} : steps same_books tick_start.
Proof.
  unfold tick_start.
  apply steps_bind; [exact _ | apply traverse_gettime; books_traverse | intro now].
  apply steps_bind; [exact _ | apply traverse_flush_if_due; books_traverse | intros _].
  apply steps_ret; exact _.
Qed.

Lemma same_books_add s s' : same_books s s' -> books_add 0 s s'.
Proof.
  intros (A1 & A2 & A3 & A4 & A5 & A6 & A7). unfold books_add, cpu_attributed.
  split; [rewrite <- A1, <- A2; ring|]. split; [tauto|]. auto.
Qed.

Lemma books_add_trans x y s s' s'' :
  books_add x s s' -> books_add y s' s'' -> books_add (x + y) s s''.
Proof.
  intros (A1 & A2 & A3 & A4 & A5) (B1 & B2 & B3 & B4 & B5). unfold books_add.
  split; [rewrite B1, A1; ring|]. split; [tauto|].
  repeat split; etransitivity; eassumption.
Qed.

Lemma books_add_eq x y s s' : x == y -> books_add x s s' -> books_add y s s'.
Proof.
  intros Hxy (A1 & A2). split; [rewrite A1, Hxy; reflexivity | exact A2].
Qed.

Lemma cpu_iadd_books native f l x s :
  0 <= x -> books_add x s (st (cpu_iadd native f l x s)).
Proof.
  intro Hx. rewrite cpu_iadd_run. cbn [st]. unfold books_add, cpu_attributed.
  destruct native; setters.
  - split.
    + rewrite table_sum_setitem2, lookup2_getitem2, table_sum_getitem2.
      unfold cpu_view. ring.
    + split; [|repeat split; reflexivity]. intros [Hc Hp]. split; [|exact Hp].
      apply table_nonneg_setitem2; [apply table_nonneg_getitem2, Hc|].
      unfold cpu_view. pose proof (table_nonneg_lookup2 f l Hc). lra.
  - split.
    + rewrite table_sum_setitem2, lookup2_getitem2, table_sum_getitem2.
      unfold cpu_view. ring.
    + split; [|repeat split; reflexivity]. intros [Hc Hp]. split; [exact Hc|].
      apply table_nonneg_setitem2; [apply table_nonneg_getitem2, Hp|].
      unfold cpu_view. pose proof (table_nonneg_lookup2 f l Hp). lra.
Qed.

Lemma Qdiv_nonneg (x y : Q) : 0 <= x -> 0 <= y -> 0 <= x / y.
Proof.
  intros Hx Hy. unfold Qdiv. apply Qmult_le_0_compat; [exact Hx|].
  apply Qinv_le_0_compat. exact Hy.
Qed.

Lemma count_nonneg (n : nat) : 0 <= inject_Z (Z.of_nat n).
Proof.
  change 0 with (inject_Z 0). rewrite <- Zle_Qle. lia.
Qed.

Lemma roll_loop_books `{Runtime} f l :
  steps same_books (known <- bytei_getitem f l;; for_each known (roll_footprint f l)).
Proof.
  unfold roll_footprint, per_line_update. steps_struct;
    try solve [books_prim | apply steps_modify; try exact _; books_prim].
Qed.

Lemma attribute_frame_books `{Runtime} this pt ct tt' n fr s :
  0 <= pt -> 0 <= ct -> tt' == pt + ct ->
  books_add (tt' / inject_Z (Z.of_nat n)) s
            (st (attribute_frame this pt ct tt' n fr s)).
Proof.
  intros Hp Hc Ht.
  assert (Htt : 0 <= tt') by lra.
  pose proof (count_nonneg n) as Hn.
  unfold attribute_frame. rewrite bind_st.
  set (first := if is_this_frame this fr then _ else _).
  assert (Hfirst : books_add (tt' / inject_Z (Z.of_nat n)) s (st (first s))
                   /\ exists u, res (first s) = Ok u).
  { subst first. destruct (is_this_frame this fr);
      [|destruct (is_call_function (f_code fr) (f_lasti fr))].
    - rewrite (@bind_quiet _ _ _ s (cpu_iadd_quiet _ _ _ _)).
      split; [|exists tt; rewrite cpu_iadd_run; reflexivity].
      eapply books_add_eq;
        [|eapply books_add_trans; apply cpu_iadd_books; apply Qdiv_nonneg;
          eassumption].
      rewrite Ht. unfold Qdiv. ring.
    - split; [apply cpu_iadd_books, Qdiv_nonneg; assumption
             | exists tt; rewrite cpu_iadd_run; reflexivity].
    - split; [apply cpu_iadd_books, Qdiv_nonneg; assumption
             | exists tt; rewrite cpu_iadd_run; reflexivity]. }
  destruct Hfirst as [Hadd [u Hu]]. rewrite Hu.
  eapply books_add_eq; [|eapply books_add_trans; [exact Hadd|]].
  2: { apply same_books_add. apply roll_loop_books. }
  ring.
Qed.

Lemma for_each_attribute_books `{Runtime} this pt ct tt' n frames s :
  0 <= pt -> 0 <= ct -> tt' == pt + ct ->
  books_add (inject_Z (Z.of_nat (length frames)) * (tt' / inject_Z (Z.of_nat n))) s
            (st (for_each frames (attribute_frame this pt ct tt' n) s)).
Proof.
  intros Hp Hc Ht. revert s. induction frames as [|fr frames IH]; intro s.
  - cbn [for_each ret st length]. eapply books_add_eq; [|apply same_books_add; reflexivity].
    cbn. ring.
  - cbn [for_each]. rewrite (@bind_quiet _ _ _ s (attribute_frame_quiet _ _ _ _ _ _)).
    eapply books_add_eq;
      [|eapply books_add_trans; [apply (attribute_frame_books this n fr s Hp Hc Ht)
                                | apply IH]].
    cbn [length]. rewrite Nat2Z.inj_succ, <- Z.add_1_r, inject_Z_plus. ring.
Qed.

Lemma c_time_of_nonneg (elapsed python_time : Q) : 0 <= c_time_of elapsed python_time.
Proof.
  rewrite c_time_of_max. apply Q.le_max_l.
Qed.

Lemma tick_tail_books `{Runtime} now elapsed :
  steps same_books
    (interval <- gets last_signal_interval ;;
     ratio <- lift (py_div elapsed interval) ;;
     for_each (repeat tt (Z.to_nat (py_round ratio)))
       (fun _ =>
          footprint <- gets current_footprint ;;
          modify (fun s =>
            set_memory_footprint_samples
              (reservoir_add (memory_footprint_samples s) (now, footprint)) s)) ;;
     t <- gettime ;;
     modify (set_last_signal_time t)).
Proof.
  repeat first [ simple apply traverse_gettime; books_traverse
               | progress steps_struct
               | solve [apply steps_modify; try exact _; books_prim] ].
Qed.

Lemma attribute_tick_books `{Runtime} now this_frame thread_frames s0 retained :
  retained_frames (program_path s0) (this_frame :: thread_frames) = Ok retained ->
  0 <= last_signal_interval s0 ->
  let python_time := last_signal_interval s0 in
  let c_time := c_time_of (now - last_signal_time s0) python_time in
  let total_time := python_time + c_time in
  let o := attribute_tick now this_frame thread_frames s0 in
  cpu_attributed (st o)
  == cpu_attributed s0 + match retained with [] => 0 | _ => total_time end
  /\ (table_nonneg (cpu_samples_c s0) /\ table_nonneg (cpu_samples_python s0) ->
      table_nonneg (cpu_samples_c (st o)) /\ table_nonneg (cpu_samples_python (st o)))
  /\ total_cpu_samples (st o) = total_cpu_samples s0 + total_time
  /\ last_signal_interval (st o) = last_signal_interval s0
  /\ program_path (st o) = program_path s0.
Proof.
  intros Hr Hi python_time c_time total_time o.
  pose proof (c_time_of_nonneg (now - last_signal_time s0) python_time) as Hc.
  fold c_time in Hc.
  subst o. unfold attribute_tick. rewrite !bind_gets, Hr. cbn [lift].
  rewrite bind_ret. fold python_time c_time total_time.
  rewrite (@bind_quiet _ _ _ s0
             (quiet_for_each _ _ (fun fr => attribute_frame_quiet _ _ _ _ _ fr))).
  rewrite bind_modify.
  pose proof (@for_each_attribute_books _ this_frame python_time c_time total_time
                (length retained) retained s0 Hi Hc ltac:(reflexivity))
    as (A1 & A2 & A3 & A4 & A5).
  set (s1 := st (for_each retained _ s0)) in *.
  match goal with
  | |- context [st (?tail ?start)] =>
      pose proof (tick_tail_books now (now - last_signal_time s0) start)
        as (B1 & B2 & B3 & B4 & B5 & B6 & B7)
  end.
  set (s2 := st _) in *.
  cbn [cpu_samples_c cpu_samples_python set_total_cpu_samples total_cpu_samples
       last_signal_interval program_path] in B1, B2, B3, B4, B5, B6, B7.
  split; [|split; [|split; [|split]]].
  - unfold cpu_attributed in *. rewrite <- B1, <- B2, A1.
    destruct retained as [|fr rest]; cbn [length].
    + cbn. ring.
    + assert (Hn : ~ inject_Z (Z.of_nat (S (length rest))) == 0).
      { change 0 with (inject_Z 0). rewrite inject_Z_injective. lia. }
      field. exact Hn.
  - intros Hnn. destruct (A2 Hnn). split; auto.
  - rewrite <- B5, A3. reflexivity.
  - rewrite <- B6. symmetry. exact A4.
  - rewrite <- B7. symmetry. exact A5.
Qed.

Lemma account_sample_books im f l b c : steps same_books (account_sample im f l b c).
Proof.
  unfold account_sample. steps_struct;
    try solve [books_prim | apply steps_modify; try exact _; books_prim].
Qed.

Lemma drain_lines_books `{Runtime} im f l b lines rs :
  steps same_books (drain_lines im f l b lines rs).
Proof.
  revert rs. induction lines as [|line lines IH]; intro rs; cbn [drain_lines].
  - apply steps_ret; exact _.
  - destruct (pyfloat (rstrip line)); [|apply steps_ret; exact _].
    apply steps_bind; [exact _ | apply account_sample_books | intros _; apply IH].
Qed.

Lemma alloc_handler_helper_books `{Runtime} f l b im :
  steps same_books (alloc_handler_helper f l b im).
Proof.
  unfold alloc_handler_helper.
  repeat first [ simple apply drain_lines_books
               | progress steps_struct
               | solve [books_prim | apply steps_modify; try exact _; books_prim] ].
Qed.

Lemma allocation_handler_books `{Runtime} fr : steps same_books (allocation_handler fr).
Proof.
  unfold allocation_handler.
  repeat first [ simple apply alloc_handler_helper_books
               | progress steps_struct
               | solve [books_prim | apply steps_modify; try exact _; books_prim] ].
Qed.

Lemma same_books_keeps s s' :
  same_books s s' ->
  cpu_books s ->
  cpu_books s' /\ last_signal_interval s' = last_signal_interval s
  /\ total_cpu_samples s <= total_cpu_samples s'.
Proof.
  intros (A1 & A2 & A3 & A4 & A5 & A6 & A7) (B1 & B2 & B3 & B4 & B5).
  unfold cpu_books, cpu_attributed in *.
  rewrite <- A1, <- A2, <- A5, <- A6. repeat split; auto; lra.
Qed.

Lemma cpu_signal_handler_keeps `{Runtime} this_frame thread_frames s :
  cpu_books s ->
  let o := cpu_signal_handler this_frame thread_frames s in
  cpu_books (st o) /\ last_signal_interval (st o) = last_signal_interval s
  /\ total_cpu_samples s <= total_cpu_samples (st o)
  /\ (res o = Ok tt ->
      total_cpu_samples s + last_signal_interval s <= total_cpu_samples (st o)).
Proof.
  intros Hb o. subst o. rewrite cpu_signal_handler_split, bind_st, bind_res.
  destruct (same_books_keeps (tick_start_books s) Hb) as (Hb0 & Hi0 & Ht0).
  destruct (res (tick_start s)) as [now|e];
    [|split; [exact Hb0|]; split; [exact Hi0|]; split; [exact Ht0 | discriminate]].
  set (s0 := st (tick_start s)) in *.
  destruct (retained_frames (program_path s0) (this_frame :: thread_frames))
    as [retained|e] eqn:Hr.
  - destruct Hb0 as (B1 & B2 & B3 & B4 & B5).
    destruct (attribute_tick_books now this_frame thread_frames s0 Hr B5)
      as (A1 & A2 & A3 & A4 & A5).
    pose proof (c_time_of_nonneg (now - last_signal_time s0) (last_signal_interval s0)).
    destruct (A2 (conj B1 B2)) as [N1 N2].
    unfold cpu_books. rewrite A1, A3, A4, Hi0 in *.
    repeat split; try assumption; try (destruct retained; lra); try lra.
  - rewrite (@attribute_tick_raise _ _ _ _ _ e Hr). cbn [st res].
    split; [exact Hb0|]. split; [exact Hi0|]. split; [exact Ht0 | discriminate].
Qed.

Lemma deliver_keeps_books `{Runtime} e s :
  cpu_books s ->
  cpu_books (st (deliver e s))
  /\ last_signal_interval (st (deliver e s)) = last_signal_interval s
  /\ total_cpu_samples s <= total_cpu_samples (st (deliver e s)).
Proof.
  intro Hs. destruct e as [im lines|fr|fr|this others|]; cbn [deliver].
  - split; [destruct im; exact Hs|].
    split; destruct im; solve [reflexivity | apply Qle_refl].
  - destruct fr;
      [eapply same_books_keeps; [apply allocation_handler_books | exact Hs]|].
    split; [exact Hs|]. split; [reflexivity | apply Qle_refl].
  - destruct fr;
      [eapply same_books_keeps; [apply allocation_handler_books | exact Hs]|].
    split; [exact Hs|]. split; [reflexivity | apply Qle_refl].
  - destruct (cpu_signal_handler_keeps this others Hs) as (A & B & C & _). auto.
  - rewrite bind_st.
    destruct (res (output_profiles s)); cbn [ret st];
      (eapply same_books_keeps; [apply output_profiles_books | exact Hs]).
Qed.

Lemma run_keeps_books `{Runtime} events s :
  cpu_books s ->
  cpu_books (run events s)
  /\ last_signal_interval (run events s) = last_signal_interval s
  /\ total_cpu_samples s <= total_cpu_samples (run events s).
Proof.
  revert s. induction events as [|e events IH]; intros s Hs; cbn [run].
  - split; [exact Hs|]. split; [reflexivity | apply Qle_refl].
  - destruct (deliver_keeps_books e Hs) as (A & B & C).
    destruct (IH _ A) as (A' & B' & C').
    split; [exact A'|]. split; [rewrite B', B; reflexivity | lra].
Qed.

Lemma initial_books path interval next : cpu_books (initial path interval next).
Proof.
  unfold cpu_books. cbn. repeat split; try constructor; discriminate.
Qed.





Lemma report_of_not_false `{Runtime} did files s : res (report_of did files s) <> Ok false.
Proof.
  unfold report_of. rewrite bind_res.
  match goal with |- context [res (?m s)] => destruct (res (m s)) end;
    [|discriminate].
  rewrite bind_res.
  match goal with |- context [res (?m ?x)] => destruct (res (m x)) end;
    discriminate.
Qed.

(** X14.  Once a CPU tick has been handled to the end, the profile is
    never again "too short": from the initial state, after any
    deliveries, a tick that returns, and any further deliveries,
    [total_cpu_samples] is at least the sampling interval of 0.01 s, so
    [output_profiles] does not return [False]: it reports, or raises
    while reporting. *)
Theorem report_after_tick `{Runtime} (path : string) (interval next : xfloat)
        (before after : list event) (this_frame : option frame)
        (thread_frames : list (option frame)) :
  let s := run before (initial path interval next) in
  let o := cpu_signal_handler this_frame thread_frames s in
  let s' := run after (st o) in
  res o = Ok tt ->
  1 # 100 <= total_cpu_samples s'
  /\ nothing_sampled s' = false
  /\ res (output_profiles s') <> Ok false.
Proof.
  intros s o s' Hres.
  destruct (run_keeps_books before (initial_books path interval next))
    as (Hb & Hi & Ht). fold s in Hb, Hi, Ht.
  cbn [initial last_signal_interval total_cpu_samples] in Hi, Ht.
  destruct (cpu_signal_handler_keeps this_frame thread_frames Hb)
    as (Hb1 & _ & _ & Hgrow). fold o in Hb1, Hgrow.
  specialize (Hgrow Hres). rewrite Hi in Hgrow.
  destruct (run_keeps_books after Hb1) as (_ & _ & Ht'). fold s' in Ht'.
  assert (Hpos : 1 # 100 <= total_cpu_samples s') by lra.
  assert (Hnone : nothing_sampled s' = false).
  { unfold nothing_sampled.
    replace (Qeq_bool (total_cpu_samples s') 0) with false; [reflexivity|].
    symmetry. apply not_true_is_false. intro E. apply Qeq_bool_iff in E. lra. }
  split; [exact Hpos|]. split; [exact Hnone|].
  rewrite output_profiles_run, Hnone. apply report_of_not_false.
Qed.

Lemma report_after_tick_witness :
  let s' := @run sample_runtime [MallocSignal (Some main_frame)]
              (st (@cpu_signal_handler sample_runtime (Some main_frame) []
                     (@run sample_runtime [] (initial "/home/u/proj" Inf Inf)))) in
  res (@output_profiles sample_runtime s') <> Ok false.
Proof.
  intro s'.
  apply (@report_after_tick sample_runtime "/home/u/proj" Inf Inf []
           [MallocSignal (Some main_frame)] (Some main_frame) [] eq_refl).
Defined.

(** ** Elapsed time (lines 244-250 and 412-424) *)

#[export] Instance same_times_preorder : PreOrder same_times.
Proof.
  split.
  - intro s. unfold same_times. repeat split; reflexivity.
  - intros a b c (A1 & A2 & A3 & A4 & A5) (B1 & B2 & B3 & B4 & B5).
    unfold same_times. repeat split; etransitivity; eassumption.
Qed.

Ltac times_prim :=
  intros;
  repeat match goal with b : bool |- _ => destruct b end;
  unfold steps, same_times; intros; cbn; repeat split; reflexivity.

Lemma output_profiles_times `{Runtime} : steps same_times output_profiles.
Proof.
  apply traverse_output_profiles; try exact _; try solve [times_prim];
    intros; unfold per_line_update; steps_struct;
    try solve [times_prim | apply steps_modify; try exact _; times_prim].
Qed.





(** ** The peak footprint *)

#[export] Instance peak_le_preorder : PreOrder peak_le.
Proof.
  split.
  - intro s. apply Qle_refl.
  - intros a b c. unfold peak_le. apply Qle_trans.
Qed.

Ltac peak_prim :=
  intros;
  repeat match goal with b : bool |- _ => destruct b end;
  unfold steps, peak_le; intros; cbn; apply Qle_refl.

Lemma account_sample_peak im f l b c : steps peak_le (account_sample im f l b c).
Proof.
  intro s. unfold peak_le. destruct im.
  - rewrite account_sample_malloc. cbn [st].
    destruct (Qgtb _ _) eqn:E; cbn; [|apply Qle_refl].
    apply Qltb_true in E. apply Qlt_le_weak. exact E.
  - rewrite account_sample_free. cbn. apply Qle_refl.
Qed.

Lemma drain_lines_peak `{Runtime} im f l b lines rs :
  steps peak_le (drain_lines im f l b lines rs).
Proof.
  revert rs. induction lines as [|line lines IH]; intro rs; cbn [drain_lines].
  - apply steps_ret; exact _.
  - destruct (pyfloat (rstrip line)); [|apply steps_ret; exact _].
    apply steps_bind; [exact _ | apply account_sample_peak | intros _; apply IH].
Qed.

Lemma allocation_handler_peak `{Runtime} fr : steps peak_le (allocation_handler fr).
Proof.
  unfold allocation_handler, alloc_handler_helper.
  repeat first [ simple apply drain_lines_peak
               | progress steps_struct
               | solve [peak_prim | apply steps_modify; try exact _; peak_prim] ].
Qed.

Lemma same_footprint_peak s s' : same_footprint s s' -> peak_le s s'.
Proof.
  intros (_ & _ & _ & Hm & _). unfold peak_le. rewrite Hm. apply Qle_refl.
Qed.

Lemma deliver_peak `{Runtime} e : steps peak_le (deliver e).
Proof.
  destruct e as [im lines|fr|fr|this others|]; cbn [deliver].
  - unfold allocator_writes. apply steps_modify; try exact _; peak_prim.
  - destruct fr; [apply allocation_handler_peak | apply steps_raise; exact _].
  - destruct fr; [apply allocation_handler_peak | apply steps_raise; exact _].
  - intro s. apply same_footprint_peak, cpu_signal_handler_footprint.
  - apply steps_bind; [exact _ | | intros; apply steps_ret; exact _].
    intro s. apply same_footprint_peak, output_profiles_footprint.
Qed.

(** X16.  The peak never goes down: after any sequence of deliveries
    from any state, whatever the allocator wrote into the bridge files,
    [max_footprint] is at least what it was.  From the initial state it
    is therefore never negative. *)
Theorem peak_never_decreases `{Runtime} (events : list event) (s : Scalene) :
  max_footprint s <= max_footprint (run events s)
  /\ (forall path interval next,
         0 <= max_footprint (run events (initial path interval next))).
Proof.
  assert (Hrun : forall evs x, max_footprint x <= max_footprint (run evs x)).
  { induction evs as [|e evs IH]; intro x; cbn [run]; [apply Qle_refl|].
    eapply Qle_trans; [apply (deliver_peak e x) | apply IH]. }
  split; [apply Hrun|]. intros path interval next.
  apply (Hrun events (initial path interval next)).
Qed.

Example peak_after_large_free :
  let s := @run sample_runtime
             [AllocatorWrites true ["2097152" ++ newline]%string;
              MallocSignal (Some main_frame);
              AllocatorWrites false ["3145728" ++ newline]%string;
              FreeSignal (Some main_frame)]
             (initial "/home/u/proj" Inf Inf) in
  max_footprint s == 2 /\ current_footprint s == -1.
Proof. split; reflexivity. Qed.

(** ** What a report prints *)


















(** ** What a report leaves alone, and the order of its files *)

(** X18.  A report reads and never resets: after [output_profiles],
    whether it returned or raised, every CPU counter, sample and count
    reads as before, the totals, the footprint with its peak and the
    bridge files are unchanged, every line has the same known offsets,
    and the clock, [elapsed_time] and the report times are unchanged.
    (Its reads insert default entries, and it sorts reservoirs in
    place.) *)
Theorem report_reads_only `{Runtime} (s : Scalene) :
  let s' := st (output_profiles s) in
  same_counters s s' /\ same_footprint s s' /\ same_known s s' /\ same_times s s'
  /\ program_path s' = program_path s
  /\ last_signal_interval s' = last_signal_interval s.
Proof.
  intro s'. subst s'.
  split; [apply output_profiles_counters|].
  split; [apply output_profiles_footprint|].
  split; [apply output_profiles_known|].
  split; [apply output_profiles_times|].
  destruct (output_profiles_config s) as (C1 & C2 & _). split; congruence.
Qed.

Lemma le_string_trans (x y z : string) :
  String.ltb y x = false -> String.ltb z y = false -> String.ltb z x = false.
Proof.
  intros Hxy Hyz. destruct (String.ltb z x) eqn:Hzx; [|reflexivity].
  destruct (String.ltb x y) eqn:E1.
  - pose proof (ltb_trans _ _ _ Hzx E1). congruence.
  - pose proof (ltb_total _ _ E1 Hxy). subst y. congruence.
Qed.

(** X19.  The files of a report: [sorted(all_instrumented_files)] lists
    every file that is a key of one of the four tables of line 459
    exactly once, in strictly ascending order, however many of the
    tables name it. *)
Theorem report_file_order (s : Scalene) :
  let files := list_sort String.ltb (all_instrumented_files s) in
  StronglySorted (fun a b => String.ltb a b = true) files
  /\ NoDup files
  /\ (forall f, In f files
                <-> In f (dict_keys (cpu_samples_python s))
                    \/ In f (dict_keys (cpu_samples_c s))
                    \/ In f (dict_keys (memory_free_samples s))
                    \/ In f (dict_keys (memory_malloc_samples s))).
Proof.
  intro files.
  assert (Hperm : Permutation files (all_instrumented_files s))
    by apply list_sort_perm.
  assert (Hnd : NoDup files).
  { eapply Permutation_NoDup; [symmetry; exact Hperm | apply distinct_nodup]. }
  assert (Hsorted : StronglySorted (fun x y => String.ltb y x = false) files).
  { apply Sorted_StronglySorted.
    - intros x y z. apply le_string_trans.
    - apply list_sort_sorted. exact ltb_asym. }
  split; [|split; [exact Hnd|]].
  - clear Hperm. induction Hsorted as [|x l Hs IH Hall]; [constructor|].
    inversion Hnd as [|? ? Hx Hl]; subst.
    constructor; [apply IH; exact Hl|].
    apply Forall_forall. intros y Hy.
    rewrite Forall_forall in Hall. specialize (Hall y Hy). cbn beta in Hall.
    destruct (String.ltb x y) eqn:E; [reflexivity|].
    pose proof (ltb_total _ _ E Hall). subst y. contradiction.
  - intro f. split; intro Hf.
    + apply (Permutation_in _ Hperm) in Hf. apply file_known_iff. exact Hf.
    + apply (Permutation_in _ (Permutation_sym Hperm)). apply file_known_iff. exact Hf.
Qed.

Example report_file_order_sampled :
  let s := @run sample_runtime
             [CpuSignal (Some (Frame 1 {| co_filename := "/home/u/proj/z.py";
                                          co_instructions := [] |} 1 0 None))
                        [Some main_frame];
              AllocatorWrites true ["1048576" ++ newline]%string;
              MallocSignal (Some main_frame)]
             (initial "/home/u/proj" Inf Inf) in
  all_instrumented_files s = ["/home/u/proj/z.py"; "/home/u/proj/x.py"]%string
  /\ list_sort String.ltb (all_instrumented_files s)
     = ["/home/u/proj/x.py"; "/home/u/proj/z.py"]%string.
Proof. split; reflexivity. Qed.

(** ** Thread join (lines 175-187) *)

Lemma join_loop_untimed `{Runtime} alive_checks timeout start_time s :
  truthy timeout = false ->
  join_loop alive_checks timeout start_time s = ret tt s.
Proof.
  intro Ht. induction alive_checks as [|k IH]; cbn [join_loop]; [reflexivity|].
  destruct timeout as [t|]; [rewrite Ht|]; exact IH.
Qed.

(** X20.  A join without a usable timeout waits for the thread and
    never looks at the clock again: with [timeout=None], and equally
    with [timeout=0] (which [if timeout:] takes for no timeout, although
    [Thread.join(0)] would return at once), the replacement reads the
    clock once, on entry, and changes nothing else, however long the
    thread stays alive. *)
Theorem join_without_timeout `{Runtime} (alive_checks : nat) (timeout : option Q)
        (s : Scalene) :
  timeout = None \/ (exists t, timeout = Some t /\ t == 0) ->
  thread_join_replacement alive_checks timeout s
  = {| st := set_clock_reads (S (clock_reads s)) s; log := []; res := Ok tt |}.
Proof.
  intro Hto.
  assert (Ht : truthy timeout = false).
  { destruct Hto as [->|[t [-> Ht]]]; [reflexivity|].
    cbn [truthy]. apply Qeq_bool_iff in Ht. rewrite Ht. reflexivity. }
  unfold thread_join_replacement.
  rewrite (bind_ok gettime _ s (a := process_time (clock_reads s)))
    by (rewrite gettime_run; reflexivity).
  rewrite gettime_run. cbn [st]. apply join_loop_untimed. exact Ht.
Qed.

Lemma join_without_timeout_witness :
  @thread_join_replacement sample_runtime 1000 (Some 0) (initial "/home/u/proj" Inf Inf)
  = {| st := set_clock_reads 1 (initial "/home/u/proj" Inf Inf);
       log := []; res := Ok tt |}.
Proof.
  apply (@join_without_timeout sample_runtime 1000 (Some 0)).
  right. exists 0. split; reflexivity.
Defined.




Example join_times_out_after_three :
  clock_reads (st (@thread_join_replacement sample_runtime 10 (Some (5 # 100))
                     (initial "/home/u/proj" Inf Inf))) = 4%nat
  /\ clock_reads (st (@thread_join_replacement sample_runtime 2 (Some (5 # 100))
                        (initial "/home/u/proj" Inf Inf))) = 3%nat
  /\ clock_reads (st (@thread_join_replacement sample_runtime 10 (Some (-1))
                        (initial "/home/u/proj" Inf Inf))) = 2%nat.
Proof. repeat split; reflexivity. Qed.

(** ** A signal with nothing new to read *)

Lemma helper_nothing `{Runtime} f l b im s :
  bridge_file im s = None ->
  let o := alloc_handler_helper f l b im s in
  res o = Ok tt /\ log o = []
  /\ same_counters s (st o) /\ same_footprint s (st o) /\ same_known s (st o)
  /\ (forall im', bridge_file im' (st o) = bridge_file im' s).
Proof.
  intros Hf o. subst o. rewrite (alloc_handler_helper_missing _ _ _ _ _ Hf).
  cbn [st log res].
  split; [reflexivity|]. split; [reflexivity|].
  split; [apply touch_samples_counters|].
  split; [destruct im; unfold same_footprint; cbn; repeat split; reflexivity|].
  split; [destruct im; intros f' l'; reflexivity|].
  intro im'. destruct im, im'; reflexivity.
Qed.

(** X22.  A repeated signal is harmless.  After a signal in a traced
    file has drained bridge files that were absent or held numbers only,
    a second signal for the same frame, with nothing written in between,
    returns without printing and changes no counter, no count, no total,
    nothing of the footprint and no known offset. *)
Theorem allocation_handler_repeat `{Runtime} (fr : frame) (s : Scalene) :
  should_trace (program_path s) (co_filename (f_code fr)) = Ok true ->
  well_formed true s -> well_formed false s ->
  let s1 := st (allocation_handler fr s) in
  let o := allocation_handler fr s1 in
  res o = Ok tt /\ log o = []
  /\ same_counters s1 (st o) /\ same_footprint s1 (st o) /\ same_known s1 (st o).
Proof.
  intros Ht Wm Wf s1 o.
  set (f := co_filename (f_code fr)). set (l := f_lineno fr). set (b := f_lasti fr).
  assert (Hfirst : malloc_signal_file s1 = None /\ free_signal_file s1 = None
                   /\ In b (known_offsets s1 f l)).
  { destruct (allocation_handler_run fr s Ht) as (s0 & Hrun & Hin & _ & _ & Hsame).
    fold f l b in Hrun, Hin.
    destruct (same_but_offsets Hsame) as (Hfile & _).
    assert (Wm0 : well_formed true s0) by (unfold well_formed; rewrite Hfile; exact Wm).
    destruct (helper_pending s0 f l b true Wm0) as (R1 & L1 & F1 & _).
    pose proof (helper_leaves_rest s0 f l b true) as (_ & _ & _ & B1 & _ & _ & _ & G1 & _).
    cbn [negb] in G1.
    set (s' := st (alloc_handler_helper f l b true s0)) in *.
    assert (Wf1 : well_formed false s')
      by (unfold well_formed; rewrite G1, Hfile; exact Wf).
    destruct (helper_pending s' f l b false Wf1) as (_ & _ & F2 & _).
    pose proof (helper_leaves_rest s' f l b false) as (_ & _ & _ & B2 & _ & _ & _ & G2 & _).
    cbn [negb] in G2.
    assert (Hs1 : s1 = st (alloc_handler_helper f l b false s')).
    { unfold s1. rewrite Hrun, (bind_ok _ _ s0 R1 L1). reflexivity. }
    rewrite Hs1. split; [exact (eq_trans G2 F1)|]. split; [exact F2|].
    unfold known_offsets in *. rewrite B2, B1. exact Hin. }
  destruct Hfirst as (Hm1 & Hf1 & Hin1).
  assert (Ht1 : should_trace (program_path s1) (co_filename (f_code fr)) = Ok true).
  { destruct (allocation_handler_books fr s) as (_ & _ & _ & _ & _ & _ & Hpp).
    fold s1 in Hpp. rewrite <- Hpp. exact Ht. }
  destruct (allocation_handler_run fr s1 Ht1) as (s2 & Hrun & _ & Hother & Hthis & Hsame).
  fold f l b in Hrun, Hother, Hthis. fold o in Hrun.
  destruct (same_but_offsets Hsame) as (Hfile & Htable & Htotal & Hcur).
  assert (Hk2 : same_known s1 s2).
  { intros f' l'. destruct (string_dec f' f) as [->|Hne];
      [destruct (Z.eq_dec l' l) as [->|Hne]|].
    - rewrite Hthis.
      replace (existsb (Z.eqb b) (known_offsets s1 f l)) with true; [reflexivity|].
      symmetry. apply existsb_exists. exists b.
      split; [exact Hin1 | apply Z.eqb_refl].
    - symmetry. apply Hother. congruence.
    - symmetry. apply Hother. congruence. }
  assert (Hc2 : same_counters s1 s2 /\ same_footprint s1 s2).
  { specialize (Hsame (bytei_map s2)).
    assert (E : s2 = set_bytei_map (bytei_map s2) s1)
      by (rewrite <- Hsame; destruct s2; reflexivity).
    rewrite E. split.
    - unfold same_counters, cpu_view, samples_view, count_view. cbn.
      repeat split; try reflexivity; intros []; intros; reflexivity.
    - unfold same_footprint. cbn. repeat split; reflexivity. }
  destruct Hc2 as [Hc2 Hp2].
  destruct (@helper_nothing _ f l b true s2 (eq_trans (Hfile true) Hm1))
    as (R3 & L3 & C3 & P3 & K3 & G3).
  set (s3 := st (alloc_handler_helper f l b true s2)) in *.
  destruct (@helper_nothing _ f l b false s3
              (eq_trans (G3 false) (eq_trans (Hfile false) Hf1)))
    as (R4 & L4 & C4 & P4 & K4 & _).
  assert (Ho : o = alloc_handler_helper f l b false s3).
  { rewrite Hrun, (bind_ok _ _ s2 R3 L3). reflexivity. }
  rewrite Ho. split; [exact R4|]. split; [exact L4|].
  split; [|split].
  - etransitivity; [exact Hc2|]. etransitivity; [exact C3 | exact C4].
  - etransitivity; [exact Hp2|]. etransitivity; [exact P3 | exact P4].
  - etransitivity; [exact Hk2|]. etransitivity; [exact K3 | exact K4].
Qed.

Lemma allocation_handler_repeat_witness :
  let s := @run sample_runtime
             [AllocatorWrites true ["3145728" ++ newline]%string]
             (initial "/home/u/proj" Inf Inf) in
  let s1 := st (@allocation_handler sample_runtime main_frame s) in
  let o := @allocation_handler sample_runtime main_frame s1 in
  res o = Ok tt /\ log o = [].
Proof.
  intros s s1 o.
  destruct (@allocation_handler_repeat sample_runtime main_frame s eq_refl)
    as (Hr & Hl & _).
  - repeat constructor; discriminate.
  - exact I.
  - split; [exact Hr | exact Hl].
Defined.

(** ** The frame filter (lines 276-292) *)

(** X23.  When every frame has a file name, the frame filter never
    raises and is a plain filter: it keeps exactly the frames whose file
    the file filter accepts, in the order given and as often as they
    occur (the main frame first if it is kept); threads without a frame
    are skipped. *)
Theorem retained_frames_filter `{Runtime} (program_path : string)
        (frames : list (option frame)) :
  Forall (fun fr => co_filename (f_code fr) <> ""%string) (present_frames frames) ->
  retained_frames program_path frames
  = Ok (filter (traced_frame program_path) (present_frames frames)).
Proof.
  induction frames as [|[fr|] frames IH]; intro Hall;
    cbn [retained_frames present_frames flat_map app filter].
  - reflexivity.
  - cbn [present_frames flat_map app] in Hall. inversion Hall as [|? ? Hname Hrest]; subst.
    fold (present_frames frames) in *.
    destruct (co_filename (f_code fr)) as [|c rest] eqn:Ename; [congruence|].
    cbn [String.length Nat.eqb rbind].
    destruct (should_trace_nonempty program_path c rest) as [b Hb].
    unfold traced_frame. rewrite Ename, Hb. cbn [rbind].
    rewrite (IH Hrest). cbn [rbind]. destruct b; reflexivity.
  - apply IH. exact Hall.
Qed.

Lemma retained_frames_filter_witness :
  @retained_frames sample_runtime "/home/u/proj"
    [Some main_frame; Some library_frame; None; Some worker_frame; Some main_frame]
  = Ok [main_frame; worker_frame; main_frame].
Proof.
  apply (@retained_frames_filter sample_runtime "/home/u/proj"
           [Some main_frame; Some library_frame; None; Some worker_frame;
            Some main_frame]).
  repeat constructor; discriminate.
Defined.

(** ** Sums over a memory table *)

Section Weighted2.
Context {V : Type} (w : V -> Q) (dflt : V).
Hypothesis w_dflt : w dflt == 0.





End Weighted2.




(** ** The books of the memory handler *)

#[export] Instance same_memory_preorder : PreOrder same_memory.
Proof.
  split.
  - intro s. unfold same_memory. repeat split; reflexivity.
  - intros a b c (A1 & A2 & A3 & A4) (B1 & B2 & B3 & B4).
    unfold same_memory. repeat split; etransitivity; eassumption.
Qed.















Example memory_samples_add_up_sampled :
  let s := @run sample_runtime
             [AllocatorWrites true malformed_bridge;
              MallocSignal (Some main_frame);
              AllocatorWrites true ["2097152" ++ newline]%string;
              MallocSignal (Some worker_frame)]
             (initial "/home/u/proj" Inf Inf) in
  table3_sum (memory_malloc_samples s) == 2
  /\ total_memory_malloc_samples s == 2
  /\ malloc_signal_file s
     = Some (malformed_bridge ++ ["2097152" ++ newline]%string).
Proof. repeat split; reflexivity. Qed.

(** ** A bridge file that is never removed *)



